(** * web3-tools: the multi-transfer pipeline of [multiTransfer/evm/index.js]

    A shallow embedding of the amount strategy, the retry executor, the
    transfer planner ([previewTransfers]), the transfer runner
    ([executeTransfers]) and the confirmation step of the main flow, together
    with the properties stated about them.

    JavaScript numbers are IEEE 754 binary64 values; they are modelled by
    Rocq's primitive [float], whose operations are the same binary64
    operations (round to nearest, ties to even).  JavaScript strings are
    modelled by [string], one [ascii] per code unit (Latin-1 range). *)

From Stdlib Require Import ZArith List String Ascii Bool Lia.
From Stdlib Require Import Floats.
From Stdlib Require Uint63.
From Stdlib Require Import DecimalString DecimalN.
Import ListNotations.

Local Open Scope Z_scope.

(** ** JavaScript primitives used by the program *)

Module Js.

(** *** Numbers *)

Definition num := float.

Definition abs (x : num) : num := PrimFloat.abs x.

Definition isNaN (x : num) : bool := negb (x =? x)%float.

(** [ofZ z] is the number whose value is the integer [z] (exact for
    [|z| < 2^53], correctly rounded otherwise). *)
Definition ofZ (z : Z) : num := SF2Prim (binary_normalize prec emax z 0 false).

(** [Math.max(x, y)]: NaN if either argument is NaN, and [+0] is larger
    than [-0]. *)
Definition max (x y : num) : num :=
  if isNaN x || isNaN y then nan
  else if (x <? y)%float then y
  else if (y <? x)%float then x
  else if get_sign x then y else x.

(** [Math.floor(x)]: the largest integer not above [x]; NaN, the infinities
    and the zeros are returned unchanged. *)
Definition floor (x : num) : num :=
  match Prim2SF x with
  | S754_finite s m e =>
      if 0 <=? e then x
      else
        let q := Z.shiftr (Zpos m) (- e) in
        if s then
          if Z.shiftl q (- e) =? Zpos m then x else ofZ (- (q + 1))
        else ofZ q
  | _ => x
  end.

(** The number [10^d], for [d <= 22]: up to there every product below is
    exact, since [10^d] is still a binary64 value. *)
Fixpoint pow10 (d : nat) : num :=
  match d with
  | O => 1%float
  | S d' => (10 * pow10 d')%float
  end.

(** The value of [parseInt(text)]: NaN when the text does not start with a
    digit, otherwise an integer.  (The infinity that an overlong run of
    digits gives behaves, where it is used below, as a large integer
    does.) *)
Inductive Parsed : Type :=
| ParsedNaN
| ParsedInt (z : Z).

(** [Math.pow(10, y)] for a value [y] of [parseInt]: NaN for NaN, otherwise
    the binary64 number nearest to [10^y], which is [10^y] itself for
    [0 <= y <= 22], [Infinity] from [y = 309] on and [0] below
    [y = -324].  (ECMAScript leaves the last bit of [Math.pow] to the
    engine where the power is not a binary64 number; the nearest number is
    taken here.) *)
Definition mathPow10 (y : Parsed) : num :=
  match y with
  | ParsedNaN => nan
  | ParsedInt z =>
      if 0 <=? z then ofZ (10 ^ z)
      else
        let '(mz, ez, lz) := SFdiv_core_binary prec emax 1 0 (10 ^ (- z)) 0 in
        SF2Prim (binary_round_aux prec emax false mz ez lz)
  end.

(** [Math.pow(2, k)] for a non-negative integer [k], on integers. *)
Definition pow2 (k : Z) : Z := 2 ^ k.

(** *** Numeric strings

    The strings produced by [toFixed] and read back by [parseFloat] are kept
    in structured form: [StrFixed neg n f] is the decimal numeral of
    [n / 10^f] written with exactly [f] fractional digits and a leading
    minus sign when [neg]; [StrShortest x] is [String(x)], the shortest
    numeral that reads back as [x]. *)

Inductive NumStr : Type :=
| StrNaN
| StrInfinity (neg : bool)
| StrFixed (neg : bool) (n : Z) (f : nat)
| StrShortest (x : num).

(** The integer [n] for which [n / 10^f] is closest to [m * 2^e], the larger
    one on a tie (step 10.a of [Number.prototype.toFixed]). *)
Definition nearestScaled (m : positive) (e : Z) (f : nat) : Z :=
  let num := Zpos m * 10 ^ Z.of_nat f in
  if 0 <=? e then num * 2 ^ e
  else (2 * num + 2 ^ (- e)) / (2 * 2 ^ (- e)).

(** The string built by [x.toFixed(f)] once [f] has passed the range
    check. *)
Definition toFixedDigits (x : num) (f : nat) : NumStr :=
  match Prim2SF x with
  | S754_nan => StrNaN
  | S754_infinity s => StrInfinity s
  | S754_zero _ => StrFixed false 0 f
  | S754_finite s m e =>
      if (1e21 <=? abs x)%float then StrShortest x
      else StrFixed s (nearestScaled m e f) f
  end.

(** [x.toFixed(fractionDigits)] for a value of [parseInt]: NaN counts as
    [0] digits, and [None] is the RangeError raised, whatever [x] is, for a
    number of digits outside [[0, 100]]. *)
Definition toFixed (x : num) (fractionDigits : Parsed) : option NumStr :=
  let f := match fractionDigits with ParsedNaN => 0 | ParsedInt z => z end in
  if (f <? 0) || (100 <? f) then None else Some (toFixedDigits x (Z.to_nat f)).

(** [parseFloat(s)] on a numeric string: the binary64 value nearest to the
    numeral (ties to even).  For [n / 10^f] with [n < 2^53] and [f <= 22]
    both [n] and [10^f] are binary64 values and their quotient, rounded once
    by the division, is that nearest value; otherwise the quotient of the
    two integers is rounded directly. *)
Definition parseFloat (s : NumStr) : num :=
  match s with
  | StrNaN => nan
  | StrInfinity neg => if neg then neg_infinity else infinity
  | StrShortest x => x
  | StrFixed neg n f =>
      if n =? 0 then (if neg then neg_zero else zero)
      else if (Z.abs n <? 2 ^ 53) && (f <=? 22)%nat then
        let q := (ofZ (Z.abs n) / pow10 f)%float in
        if neg then (- q)%float else q
      else
        let '(mz, ez, lz) :=
          SFdiv_core_binary prec emax (Z.abs n) 0 (10 ^ Z.of_nat f) 0 in
        SF2Prim (binary_round_aux prec emax neg mz ez lz)
  end.

(** *** Strings *)

Definition chars (s : string) : list ascii := list_ascii_of_string s.
Definition str (l : list ascii) : string := string_of_list_ascii l.

(** White space removed by [String.prototype.trim] (code units below 256):
    TAB, LF, VT, FF, CR, SPACE and NBSP. *)
Definition isWhite (c : ascii) : bool :=
  let n := N.to_nat (N_of_ascii c) in
  ((9 <=? n)%nat && (n <=? 13)%nat) || (n =? 32)%nat || (n =? 160)%nat.

Fixpoint dropWhite (l : list ascii) : list ascii :=
  match l with
  | [] => []
  | c :: l' => if isWhite c then dropWhite l' else l
  end.

Definition trimChars (l : list ascii) : list ascii :=
  rev (dropWhite (rev (dropWhite l))).

Definition trim (s : string) : string := str (trimChars (chars s)).

(** [toLowerCase] on one code unit below 256: A-Z and the Latin-1 capitals
    (0xC0-0xDE except the multiplication sign 0xD7) move up by 32. *)
Definition lowerChar (c : ascii) : ascii :=
  let n := N.to_nat (N_of_ascii c) in
  if ((65 <=? n)%nat && (n <=? 90)%nat)
     || ((192 <=? n)%nat && (n <=? 222)%nat && negb (n =? 215)%nat)
  then ascii_of_N (N.of_nat (n + 32)) else c.

Definition toLowerCase (s : string) : string := str (map lowerChar (chars s)).

(** [s.split(sep)] for a one-character separator: the fields between the
    separators, at least one. *)
Fixpoint splitChars (sep : ascii) (l : list ascii) : list (list ascii) :=
  match l with
  | [] => [[]]
  | c :: l' =>
      if Ascii.eqb c sep then [] :: splitChars sep l'
      else
        match splitChars sep l' with
        | [] => [[c]]
        | field :: fields => (c :: field) :: fields
        end
  end.

Definition split (sep : ascii) (s : string) : list string :=
  map str (splitChars sep (chars s)).

(** [hay.includes(needle)] *)
Fixpoint isPrefix (p l : list ascii) : bool :=
  match p, l with
  | [], _ => true
  | _ :: _, [] => false
  | a :: p', b :: l' => Ascii.eqb a b && isPrefix p' l'
  end.

Fixpoint includesChars (needle hay : list ascii) : bool :=
  isPrefix needle hay ||
  match hay with
  | [] => false
  | _ :: hay' => includesChars needle hay'
  end.

Definition includes (hay needle : string) : bool :=
  includesChars (chars needle) (chars hay).

End Js.

Local Open Scope string_scope.

(** ** Errors, results and effects *)

(** The [code] property of a thrown error object: absent, a string or a
    number. *)
Inductive ErrorCode : Type :=
| NoCode
| StrCode (s : string)
| NumCode (n : Z).

(** A thrown error object, with the two properties the program reads. *)
Record JsError : Type := mkError {
  code : ErrorCode;
  message : option string
}.

(** The outcome of an evaluation: a value, or a thrown error. *)
Inductive Res (A : Type) : Type :=
| Ok (a : A)
| Throw (e : JsError).
Arguments Ok {A} a.
Arguments Throw {A} e.

Definition typeError (msg : string) : JsError :=
  {| code := NoCode; message := Some msg |}.

Definition rangeError (msg : string) : JsError :=
  {| code := NoCode; message := Some msg |}.

Definition Address := string.

(** Why the planner skipped an entry. *)
Inductive SkipReason : Type := zero_balance | insufficient_balance.

(** One line of the preview report or of the skipped list:
    [index | from(balance) => to | symbol | amount] and, on a skipped line,
    the reason. *)
Inductive ReportLine : Type :=
| HeaderLine
| EntryLine (index : Z) (fromAddr : Address) (balance : Js.NumStr)
            (toAddr : string) (symbol : string) (amount : Js.NumStr)
            (reason : option SkipReason).

(** One line of the success or failure log:
    [from => to | amount | txHash] or [from => to | amount | err.message]. *)
Inductive LogLine : Type :=
| SuccessLine (fromAddr : Address) (toAddr : string) (amount : Js.num) (hash : string)
| FailureLine (fromAddr : Address) (toAddr : string) (amount : Js.num)
              (errMessage : option string).

(** Observable effects, in the order they happen. *)
Inductive Event : Type :=
| EvInvoke                          (* withRetry calls the wrapped operation *)
| EvBackoff (ms : Z)                (* withRetry waits before the next attempt *)
| EvSleep (ms : Js.num)             (* sleep(ms) of randomDelay *)
| EvQueryFailed (fromAddr : Address)  (* console.error of a failed balance query *)
| EvWritePreview (lines : list ReportLine)  (* fs.writeFileSync of the preview *)
| EvWriteSkipped (lines : list ReportLine)  (* fs.writeFileSync of the skipped list *)
| EvAppendSuccess (line : LogLine)  (* fs.appendFileSync(successLog, ...) *)
| EvAppendFailure (line : LogLine). (* fs.appendFileSync(failLog, ...) *)

Section Effects.

(** The state of everything outside the program: the chain behind the RPC
    endpoint and the random number generator. *)
Variable World : Type.

Record State : Type := mkState {
  world : World;
  trace : list Event
}.

(** A computation that may read and change the world, record events and
    throw. *)
Definition M (A : Type) : Type := State -> Res A * State.

Definition ret {A} (a : A) : M A := fun s => (Ok a, s).

Definition throw {A} (e : JsError) : M A := fun s => (Throw e, s).

Definition bind {A B} (m : M A) (k : A -> M B) : M B :=
  fun s =>
    match m s with
    | (Ok a, s') => k a s'
    | (Throw e, s') => (Throw e, s')
    end.

(** [try { m } catch (e) { handler e }] *)
Definition tryCatch {A} (m : M A) (handler : JsError -> M A) : M A :=
  fun s =>
    match m s with
    | (Ok a, s') => (Ok a, s')
    | (Throw e, s') => handler e s'
    end.

Definition emit (ev : Event) : M unit :=
  fun s => (Ok tt, {| world := world s; trace := trace s ++ [ev] |}).

(** A call into the outside world. *)
Definition call {A} (op : World -> Res A * World) : M A :=
  fun s =>
    let '(r, w) := op (world s) in
    (r, {| world := w; trace := trace s |}).

(** A call of a library function that either returns or throws. *)
Definition lift {A} (r : Res A) : M A := fun s => (r, s).

End Effects.

Arguments mkState {World} world trace.
Arguments world {World} s.
Arguments trace {World} s.
Arguments ret {World A} a.
Arguments throw {World A} e.
Arguments bind {World A B} m k.
Arguments tryCatch {World A} m handler.
Arguments emit {World} ev.
Arguments call {World A} op.
Arguments lift {World A} r.

Declare Scope js_scope.
Delimit Scope js_scope with js.
Notation "x <- m ;; k" := (bind m (fun x => k))
  (at level 61, m at next level, right associativity) : js_scope.
Notation "m ;;; k" := (bind m (fun _ => k))
  (at level 61, right associativity) : js_scope.
Local Open Scope js_scope.

(** ** Configuration and data *)

(** The [config] object once [getTokenMetadata] has filled in [decimals] and
    [symbol], with [TRANSFER_RANDOM_DECIMALS] as the planner parses it. *)
Record Config : Type := mkConfig {
  tokenAddress : string;
  transferMode : string;
  fixedAmount : Js.num;
  minAmount : Js.num;
  maxAmount : Js.num;
  percent : Js.num;
  remainAmount : Js.num;
  randomDecimals : Js.Parsed;
  gasPriceMode : string;
  gasPriceGwei : Js.num;
  gasLimitMode : string;
  gasLimit : Js.num;
  delayMin : Js.num;
  delayMax : Js.num;
  decimals : nat;
  symbol : string
}.

(** An entry of the plan: [{ privateKey, from, to, amount }]. *)
Record PlannedTransfer : Type := mkPlanned {
  privateKey : string;
  from : Address;
  to : string;
  amount : Js.num
}.

(** The three arrays the planner fills. *)
Record PlanState : Type := mkPlan {
  result : list PlannedTransfer;
  skipped : list ReportLine;
  previewLines : list ReportLine
}.

(** The overrides object of a transaction. *)
Record Overrides : Type := mkOverrides {
  gasPriceOverride : option Z;
  gasLimitOverride : option Js.num
}.

(** What is submitted to the chain: [wallet.sendTransaction({to, value,
    ...overrides})] or [token.transfer(to, value, overrides)] on the contract
    at [token], signed with [key]. *)
Inductive TxRequest : Type :=
| NativeTransfer (key : string) (toAddr : string) (value : Z) (ov : Overrides)
| TokenTransfer (key : string) (token : string) (toAddr : string) (value : Z)
                (ov : Overrides).

Definition nativeSentinel : string := "0xeeeeeeeeeeeeeeeeeeeeeeeeeeeeeeeeeeeeeeee".

Definition tokenIsNative (cfg : Config) : bool :=
  String.eqb (Js.toLowerCase (tokenAddress cfg)) nativeSentinel.

(** [toReadable(balance, decimals)]: [formatUnits] writes the exact decimal
    numeral of [balance / 10^decimals]; it is read as a number and written
    again with six decimals. *)
Definition toReadable (balance : Z) (decimals : nat) : Js.NumStr :=
  Js.toFixedDigits (Js.parseFloat (Js.StrFixed (balance <? 0)%Z (Z.abs balance) decimals)) 6.

(** The retriable predicate of [withRetry]:
    [error?.code === 'SERVER_ERROR' || error?.code === -32603 ||
     error?.message?.includes('no response')]. *)
Definition retriable (error : JsError) : bool :=
  match code error with
  | StrCode c => String.eqb c "SERVER_ERROR"
  | _ => false
  end
  || match code error with
     | NumCode n => (n =? -32603)%Z
     | _ => false
     end
  || match message error with
     | Some m => Js.includes m "no response"
     | None => false
     end.

(** The validation of lines 118-129 of the planner, as a verdict. *)
Inductive Verdict : Type :=
| Skip (reason : SkipReason)
| Accept.

Definition validate (b amount : Js.num) : Verdict :=
  if (b <=? 0)%float then Skip zero_balance
  else if (amount <=? 0)%float || (b <? amount)%float then Skip insufficient_balance
  else Accept.

(** The confirmation test of the main flow:
    [answer.trim().toLowerCase() === 'yes']. *)
Definition confirmed (answer : string) : bool :=
  String.eqb (Js.toLowerCase (Js.trim answer)) "yes".

(** ** The program *)

Section Program.

(** The outside world and the library calls the program makes into it. *)
Variable World : Type.

(** [Math.random()] *)
Variable mathRandom : World -> Js.num * World.

(** [new ethers.Wallet(key, provider)] followed by [wallet.getAddress()]; it
    throws on a key it cannot use. *)
Variable newWallet : string -> Res Address.

(** [provider.getBalance(from)] and [balanceOf(from)] on the token contract. *)
Variable getBalance : Address -> World -> Res Z * World.
Variable balanceOf : string -> Address -> World -> Res Z * World.

(** [ethers.utils.parseUnits(text, decimals)]; it throws on a numeral it
    cannot represent. *)
Variable parseUnits : Js.NumStr -> nat -> Res Z.

(** Submission of a transaction; the value is the hash of the transaction
    object that comes back. *)
Variable submit : TxRequest -> World -> Res string * World.

Local Abbreviation M := (M World).

(** *** Utilities *)

Definition random : M Js.num :=
  fun s =>
    let '(r, w) := mathRandom (world s) in
    (Ok r, {| world := w; trace := trace s |}).

(** [randomDelay()] *)
Definition randomDelay (cfg : Config) : M unit :=
  r <- random ;;
  let delay := Js.floor (r * (delayMax cfg - delayMin cfg + 1) + delayMin cfg)%float in
  emit (EvSleep (delay * 1000)%float).

(** [randomAmount(min, max, decimals)]; the value is the string [toFixed]
    builds. *)
Definition randomAmount (min max : Js.num) (decimals : Js.Parsed) : M Js.NumStr :=
  let factor := Js.mathPow10 decimals in
  r <- random ;;
  let randInt := Js.floor (r * (max * factor - min * factor) + min * factor)%float in
  match Js.toFixed (randInt / factor)%float decimals with
  | Some text => ret text
  | None => throw (rangeError "toFixed() digits argument must be between 0 and 100")
  end.

(** [formatAmount(amount, decimals)] *)
Definition formatAmount (amount : Js.num) (decimals : nat) : Res Z :=
  parseUnits (Js.StrShortest amount) decimals.

(** *** withRetry *)

Section WithRetry.

Variable A : Type.
Variable fn : World -> Res A * World.
Variable maxRetries : Z.
Variable delay : Z.

(** The loop [while (attempt <= maxRetries)]; [budget] bounds the number of
    iterations left and is never what ends the loop (see
    [retryLoop_budget]).  The value [None] is the [undefined] that comes back
    when the loop ends without a return. *)
Fixpoint retryLoop (budget : nat) (attempt : Z) : M (option A) :=
  if (attempt <=? maxRetries)%Z then
    match budget with
    | O => ret None
    | S budget' =>
        tryCatch
          (emit EvInvoke ;;;
           v <- call fn ;;
           ret (Some v))
          (fun error =>
             let attempt := (attempt + 1)%Z in
             let isFinalAttempt := (maxRetries <? attempt)%Z in
             if negb (retriable error) || isFinalAttempt then throw error
             else
               let backoff := (delay * Js.pow2 attempt)%Z in
               emit (EvBackoff backoff) ;;;
               retryLoop budget' attempt)
    end
  else ret None.

Definition withRetry : M (option A) :=
  retryLoop (Z.to_nat (maxRetries + 1)) 0.

End WithRetry.

Definition defaultMaxRetries : Z := 3.
Definition defaultDelay : Z := 1000.

(** *** The planner: previewTransfers *)

(** The [switch (config.transferMode)] that computes the amount to send from
    the balance [b]; a mode outside the five cases leaves the initial [0]. *)
Definition computeAmount (cfg : Config) (b : Js.num) : M Js.num :=
  let mode := transferMode cfg in
  if String.eqb mode "fixed" then ret (fixedAmount cfg)
  else if String.eqb mode "range" then
    text <- randomAmount (minAmount cfg) (maxAmount cfg) (randomDecimals cfg) ;;
    ret (Js.parseFloat text)
  else if String.eqb mode "all" then ret b
  else if String.eqb mode "percent" then ret (b * percent cfg)%float
  else if String.eqb mode "remain" then ret (Js.max (b - remainAmount cfg)%float 0%float)
  else ret 0%float.

(** The balance query of one entry, native or through the token contract. *)
Definition queryBalance (cfg : Config) (fromAddr : Address) : M Z :=
  if tokenIsNative cfg then call (getBalance fromAddr)
  else call (balanceOf (tokenAddress cfg) fromAddr).

(** [to.trim()], where [to] is [undefined] when the line has no second
    field. *)
Definition trimTo (to : option string) : M string :=
  match to with
  | Some t => ret (Js.trim t)
  | None => throw (typeError "Cannot read properties of undefined (reading 'trim')")
  end.

(** One iteration of the planner's loop on [lines[i]]; a [continue] is the
    return of the arrays as they are. *)
Definition planEntry (cfg : Config) (i : Z) (line : string) (acc : PlanState)
  : M PlanState :=
  let fields := Js.split ":" line in
  let privateKey := nth 0 fields "" in
  let to := nth_error fields 1 in
  fromAddr <- lift (newWallet (Js.trim privateKey)) ;;
  queried <- tryCatch
               (balanceRaw <- queryBalance cfg fromAddr ;; ret (Some balanceRaw))
               (fun _ => emit (EvQueryFailed fromAddr) ;;; ret None) ;;
  match queried with
  | None => ret acc
  | Some balanceRaw =>
      let balance := toReadable balanceRaw (decimals cfg) in
      let b := Js.parseFloat balance in
      amount <- computeAmount cfg b ;;
      if (b <=? 0)%float then
        toText <- trimTo to ;;
        ret {| result := result acc;
               skipped := skipped acc ++
                 [EntryLine (i + 1) fromAddr balance toText (symbol cfg)
                            (Js.toFixedDigits amount 6) (Some zero_balance)];
               previewLines := previewLines acc |}
      else if (amount <=? 0)%float || (b <? amount)%float then
        toText <- trimTo to ;;
        ret {| result := result acc;
               skipped := skipped acc ++
                 [EntryLine (i + 1) fromAddr balance toText (symbol cfg)
                            (Js.toFixedDigits amount 6) (Some insufficient_balance)];
               previewLines := previewLines acc |}
      else
        toText <- trimTo to ;;
        ret {| result := result acc ++
                 [{| privateKey := privateKey; from := fromAddr;
                     to := toText; amount := amount |}];
               skipped := skipped acc;
               previewLines := previewLines acc ++
                 [EntryLine (i + 1) fromAddr balance toText (symbol cfg)
                            (Js.toFixedDigits amount 6) None] |}
  end.

(** The loop [for (let i = 0; i < lines.length; i++)], from index [i] on. *)
Fixpoint planLoop (cfg : Config) (i : Z) (lines : list string) (acc : PlanState)
  : M PlanState :=
  match lines with
  | [] => ret acc
  | line :: rest =>
      acc' <- planEntry cfg i line acc ;;
      planLoop cfg (i + 1) rest acc'
  end.

(** The non-blank lines of the address file. *)
Definition nonBlankLines (rawLines : list string) : list string :=
  filter (fun l => negb (String.eqb (Js.trim l) "")) rawLines.

Definition initialPlan : PlanState :=
  {| result := []; skipped := []; previewLines := [HeaderLine] |}.

(** [previewTransfers(provider)] on the lines of the address file; the value
    is [{ list, skipped }]. *)
Definition previewTransfers (cfg : Config) (rawLines : list string)
  : M (list PlannedTransfer * list ReportLine) :=
  let lines := nonBlankLines rawLines in
  final <- planLoop cfg 0 lines initialPlan ;;
  emit (EvWritePreview (previewLines final)) ;;;
  ret (result final, skipped final).

(** *** The runner: executeTransfers *)

(** The overrides of lines 156-164: a gas price and a gas limit only in the
    fixed modes. *)
Definition buildOverrides (cfg : Config) : Res Overrides :=
  let limit :=
    if String.eqb (gasLimitMode cfg) "fixed" then Some (gasLimit cfg) else None in
  if String.eqb (gasPriceMode cfg) "fixed" then
    match parseUnits (Js.StrShortest (gasPriceGwei cfg)) 9 with
    | Ok price => Ok {| gasPriceOverride := Some price; gasLimitOverride := limit |}
    | Throw e => Throw e
    end
  else Ok {| gasPriceOverride := None; gasLimitOverride := limit |}.

(** [tx.hash], where [tx] is [undefined] when [withRetry] came back without a
    value. *)
Definition hashOf (tx : option string) : M string :=
  match tx with
  | Some hash => ret hash
  | None => throw (typeError "Cannot read properties of undefined (reading 'hash')")
  end.

(** The body of the runner's loop for one entry of the plan. *)
Definition executeEntry (cfg : Config) (p : PlannedTransfer) : M unit :=
  _ <- lift (newWallet (privateKey p)) ;;
  value <- lift (formatAmount (amount p) (decimals cfg)) ;;
  overrides <- lift (buildOverrides cfg) ;;
  tryCatch
    (let request :=
       if tokenIsNative cfg
       then NativeTransfer (privateKey p) (to p) value overrides
       else TokenTransfer (privateKey p) (tokenAddress cfg) (to p) value overrides in
     tx <- withRetry string (submit request) defaultMaxRetries defaultDelay ;;
     hash <- hashOf tx ;;
     emit (EvAppendSuccess (SuccessLine (from p) (to p) (amount p) hash)))
    (fun err =>
       emit (EvAppendFailure (FailureLine (from p) (to p) (amount p) (message err)))) ;;;
  randomDelay cfg.

(** [executeTransfers(provider, list)] *)
Fixpoint executeTransfers (cfg : Config) (list : list PlannedTransfer) : M unit :=
  match list with
  | [] => ret tt
  | p :: rest => executeEntry cfg p ;;; executeTransfers cfg rest
  end.

(** *** The main flow

    Planning, then either the skipped report of an empty plan or the
    confirmation prompt, answered by [answer], and the execution. *)
Inductive RunEnd : Type :=
| EmptyPlan      (* process.exit(0) after the skipped report *)
| Executed       (* the plan was executed *)
| Cancelled.     (* the answer was not the confirmation *)

Definition main (cfg : Config) (rawLines : list string) (answer : string)
  : M RunEnd :=
  planned <- previewTransfers cfg rawLines ;;
  let '(transferList, skippedLines) := planned in
  match transferList with
  | [] => emit (EvWriteSkipped skippedLines) ;;; ret EmptyPlan
  | _ :: _ =>
      if confirmed answer then
        executeTransfers cfg transferList ;;; ret Executed
      else ret Cancelled
  end.

End Program.

Arguments retryLoop {World A} fn maxRetries delay budget attempt.
Arguments withRetry {World A} fn maxRetries delay.

(** ** Vocabulary of the properties *)

Definition isInvoke (ev : Event) : bool :=
  match ev with EvInvoke => true | _ => false end.

(** The number of calls of the wrapped operation among [evs]. *)
Definition invocations (evs : list Event) : nat :=
  List.length (filter isInvoke evs).

(** The waits of [withRetry] among [evs], in order. *)
Fixpoint backoffs (evs : list Event) : list Z :=
  match evs with
  | [] => []
  | EvBackoff ms :: rest => ms :: backoffs rest
  | _ :: rest => backoffs rest
  end.

(** The waits of [randomDelay] among [evs], in order. *)
Fixpoint sleeps (evs : list Event) : list Js.num :=
  match evs with
  | [] => []
  | EvSleep ms :: rest => ms :: sleeps rest
  | _ :: rest => sleeps rest
  end.

(** The lines appended to the success and failure logs among [evs], in
    order. *)
Fixpoint outcomes (evs : list Event) : list LogLine :=
  match evs with
  | [] => []
  | EvAppendSuccess line :: rest => line :: outcomes rest
  | EvAppendFailure line :: rest => line :: outcomes rest
  | _ :: rest => outcomes rest
  end.

(** The balance queries that failed among [evs]. *)
Fixpoint queryFailures (evs : list Event) : nat :=
  match evs with
  | [] => O
  | EvQueryFailed _ :: rest => S (queryFailures rest)
  | _ :: rest => queryFailures rest
  end.

(** An event of [withRetry] itself. *)
Definition isAttemptEvent (ev : Event) : Prop :=
  match ev with
  | EvInvoke | EvBackoff _ => True
  | _ => False
  end.

(** [line] is the outcome of the planned transfer [p]: its success line with
    some hash, or its failure line with some message. *)
Definition outcomeOf (p : PlannedTransfer) (line : LogLine) : Prop :=
  (exists hash, line = SuccessLine (from p) (to p) (amount p) hash) \/
  (exists msg, line = FailureLine (from p) (to p) (amount p) msg).

(** The arrays after the planner has recorded, under [verdict], the entry of
    index [i] with the given fields. *)
Definition recordVerdict (cfg : Config) (i : Z) (key : string) (fromAddr : Address)
    (balance : Js.NumStr) (toText : string) (amount : Js.num)
    (verdict : Verdict) (acc : PlanState) : PlanState :=
  match verdict with
  | Skip reason =>
      {| result := result acc;
         skipped := skipped acc ++
           [EntryLine (i + 1) fromAddr balance toText (symbol cfg)
                      (Js.toFixedDigits amount 6) (Some reason)];
         previewLines := previewLines acc |}
  | Accept =>
      {| result := result acc ++
           [{| privateKey := key; from := fromAddr; to := toText; amount := amount |}];
         skipped := skipped acc;
         previewLines := previewLines acc ++
           [EntryLine (i + 1) fromAddr balance toText (symbol cfg)
                      (Js.toFixedDigits amount 6) None] |}
  end.

(** The preview line of an accepted entry agrees with the planned transfer,
    and [b] is the balance written on it. *)
Definition previewOf (p : PlannedTransfer) (b : Js.num) (line : ReportLine) : Prop :=
  exists index balance sym,
    line = EntryLine index (from p) balance (to p) sym
                     (Js.toFixedDigits (amount p) 6) None
    /\ b = Js.parseFloat balance.

(** A line of the skipped list: an entry line that carries a reason. *)
Definition isSkipLine (line : ReportLine) : Prop :=
  match line with
  | EntryLine _ _ _ _ _ _ (Some _) => True
  | _ => False
  end.

(** [answer] is the word yes in any letter case, between white space. *)
Definition isYes (answer : string) : Prop :=
  exists before word after : list ascii,
    Js.chars answer = (before ++ word ++ after)%list
    /\ Forall (fun c => Js.isWhite c = true) before
    /\ Forall (fun c => Js.isWhite c = true) after
    /\ map Js.lowerChar word = Js.chars "yes".

(** ** A scripted world, to run the program on concrete inputs *)

Module Sim.

(** The draws [Math.random()] will return, the answers the chain will give
    to submissions, and the balance the chain reports for each address. *)
Record World : Type := mkWorld {
  draws : list Js.num;
  answers : list (Res string);
  funds : list (Address * Res Z)
}.

Definition mathRandom (w : World) : Js.num * World :=
  match draws w with
  | [] => (0%float, w)
  | r :: rest => (r, {| draws := rest; answers := answers w; funds := funds w |})
  end.

(** A wallet is built from any non-empty key. *)
Definition newWallet (key : string) : Res Address :=
  if String.eqb key "" then Throw {| code := StrCode "INVALID_ARGUMENT";
                                     message := Some "invalid private key" |}
  else Ok ("0x" ++ key).

Fixpoint lookup (a : Address) (table : list (Address * Res Z)) : Res Z :=
  match table with
  | [] => Ok 0
  | (a', r) :: rest => if String.eqb a a' then r else lookup a rest
  end.

Definition getBalance (a : Address) (w : World) : Res Z * World :=
  (lookup a (funds w), w).

Definition balanceOf (token : string) (a : Address) (w : World) : Res Z * World :=
  (lookup a (funds w), w).

(** The number that the numeral [digits * 10^t] reads as. *)
Definition readNumeral (digits t : Z) : Js.num :=
  if (0 <=? t)%Z then Js.ofZ (digits * 10 ^ t)
  else Js.parseFloat (Js.StrFixed false digits (Z.to_nat (- t))).

(** The digits of [String(x)] for a positive [x = m * 2^e]: the numeral
    [digits * 10^t] with the fewest digits that reads back as [x], the one
    closest to [x] when there are several, the even one on a tie.  The
    search goes down from the place [t]. *)
Fixpoint shortestFrom (x : Js.num) (m : positive) (e : Z) (t : Z) (fuel : nat)
  : option (Z * Z) :=
  match fuel with
  | O => None
  | S fuel' =>
      let numerator := Zpos m * 2 ^ Z.max e 0 * 10 ^ Z.max (- t) 0 in
      let denominator := 2 ^ Z.max (- e) 0 * 10 ^ Z.max t 0 in
      let '(lo, rest) := Z.div_eucl numerator denominator in
      let hi := lo + 1 in
      let candidates :=
        if (rest =? 0)%Z then [lo]
        else if (2 * rest <? denominator)%Z then [lo; hi]
        else if (denominator <? 2 * rest)%Z then [hi; lo]
        else if Z.even lo then [lo; hi] else [hi; lo] in
      match find (fun digits => (0 <? digits)%Z && (readNumeral digits t =? x)%float)
                 candidates with
      | Some digits => Some (digits, t)
      | None => shortestFrom x m e (t - 1) fuel'
      end
  end.

(** The fractional digits of a numeral once its trailing zeros are
    dropped. *)
Fixpoint dropZeros (n : Z) (f : nat) : Z * nat :=
  match f with
  | O => (n, O)
  | S f' => if (n mod 10 =? 0)%Z then dropZeros (n / 10) f' else (n, f)
  end.

(** [parseUnits(text, d)] as ethers has it.  On the numeral [String(x)] it
    throws on NaN, on the infinities and on numerals in exponent notation
    (which is how numbers below [10^-6] and from [10^21] on are written);
    on a decimal numeral it throws when the fraction, trailing zeros apart,
    has more than [d] digits, and otherwise gives the numeral scaled by
    [10^d]. *)
Definition parseUnits (text : Js.NumStr) (d : nat) : Res Z :=
  let invalid := Throw {| code := StrCode "INVALID_ARGUMENT";
                          message := Some "invalid decimal value" |} in
  let underflow := Throw {| code := StrCode "NUMERIC_FAULT";
                            message := Some "fractional component exceeds decimals" |} in
  match text with
  | Js.StrShortest x =>
      if (x =? 0)%float then Ok 0
      else if Js.isNaN x then invalid
      else if (Js.abs x <? Js.parseFloat (Js.StrFixed false 1 6))%float then invalid
      else if (Js.ofZ (10 ^ 21) <=? Js.abs x)%float then invalid
      else
        match Prim2SF x with
        | S754_finite neg m e =>
            match shortestFrom (Js.abs x) m e 21 50 with
            | Some (digits, t) =>
                if (0 <=? t + Z.of_nat d)%Z
                then Ok ((if neg then - digits else digits) * 10 ^ (t + Z.of_nat d))
                else underflow
            | None => invalid
            end
        | _ => invalid
        end
  | Js.StrFixed neg n f =>
      let '(n', f') := dropZeros n f in
      if (f' <=? d)%nat then Ok ((if neg then - n' else n') * 10 ^ Z.of_nat (d - f'))
      else underflow
  | _ => invalid
  end.

Definition submit (req : TxRequest) (w : World) : Res string * World :=
  match answers w with
  | [] => (Throw {| code := NoCode; message := Some "no answer" |}, w)
  | r :: rest => (r, {| draws := draws w; answers := rest; funds := funds w |})
  end.

(** A wrapped operation that plays a script of results, then fails. *)
Definition scripted (w : list (Res string)) : Res string * list (Res string) :=
  match w with
  | [] => (Throw {| code := NoCode; message := Some "no answer" |}, [])
  | r :: rest => (r, rest)
  end.

Definition serverError : JsError :=
  {| code := StrCode "SERVER_ERROR"; message := Some "missing response" |}.

Definition rpcError : JsError :=
  {| code := NumCode (-32603); message := Some "Internal JSON-RPC error." |}.

Definition noResponse : JsError :=
  {| code := NoCode; message := Some "failed to meet quorum: no response" |}.


(** A native-coin configuration with 18 decimals. *)
Definition config (mode : string) (fixed remain : Js.num) : Config :=
  {| tokenAddress := nativeSentinel;
     transferMode := mode;
     fixedAmount := fixed;
     minAmount := 1%float;
     maxAmount := 2%float;
     percent := 1%float;
     remainAmount := remain;
     randomDecimals := Js.ParsedInt 6;
     gasPriceMode := "auto";
     gasPriceGwei := 5%float;
     gasLimitMode := "auto";
     gasLimit := 21000%float;
     delayMin := 1%float;
     delayMax := 3%float;
     decimals := 18;
     symbol := "Native" |}.

Definition start (w : World) : State World := {| world := w; trace := [] |}.

Definition previewTransfers :=
  previewTransfers World mathRandom newWallet getBalance balanceOf.

Definition executeTransfers :=
  executeTransfers World mathRandom newWallet parseUnits submit.

Definition main :=
  main World mathRandom newWallet getBalance balanceOf parseUnits submit.

(** One unit of the coin in base units. *)
Definition coin : Z := 10 ^ 18.

(** Configurations: a fixed amount of 1, and the modes remain (keeping 5 or
    3) and range (between 1 and 2). *)
Definition fixedOne : Config := config "fixed" 1%float 0%float.
Definition keepFive : Config := config "remain" 0%float 5%float.
Definition keepThree : Config := config "remain" 0%float 3%float.


(** Half of the balance of a token with six decimals. *)
Definition halfOfToken : Config :=
  {| tokenAddress := "0xdac17f958d2ee523a2206206994597c13d831ec7";
     transferMode := "percent";
     fixedAmount := 0%float;
     minAmount := 0%float;
     maxAmount := 0%float;
     percent := 0.5%float;
     remainAmount := 0%float;
     randomDecimals := Js.ParsedInt 6;
     gasPriceMode := "auto";
     gasPriceGwei := 5%float;
     gasLimitMode := "auto";
     gasLimit := 21000%float;
     delayMin := 1%float;
     delayMax := 3%float;
     decimals := 6;
     symbol := "USDT" |}.

(** A chain on which the address of key [k1] holds 1.234567 tokens and that
    of [k2] holds 2 tokens. *)
Definition tokenChain (answers : list (Res string)) : World :=
  {| draws := [];
     answers := answers;
     funds := [("0xk1", Ok 1234567); ("0xk2", Ok 2000000)] |}.

(** A chain on which the address of key [k1] holds 5 coins, that of [k2]
    half a coin, the query for [k3] fails, and every other address holds
    nothing. *)
Definition chain (draws : list Js.num) (answers : list (Res string)) : World :=
  {| draws := draws;
     answers := answers;
     funds := [("0xk1", Ok (5 * coin)); ("0xk2", Ok (coin / 2));
               ("0xk3", Throw rpcError)] |}.

End Sim.

(** The events of a run of [withRetry] that calls the operation [n] times,
    the first call being made with the counter at [attempt]: every call but
    the last is followed by a wait. *)
Fixpoint attemptEvents (delay attempt : Z) (n : nat) : list Event :=
  match n with
  | O => []
  | S n' =>
      match n' with
      | O => [EvInvoke]
      | S _ =>
          EvInvoke :: EvBackoff (delay * 2 ^ (attempt + 1))
                   :: attemptEvents delay (attempt + 1) n'
      end
  end.

(** [needle] occurs in [hay]. *)
Definition occursIn (needle hay : string) : Prop :=
  exists before after : list ascii,
    Js.chars hay = (before ++ Js.chars needle ++ after)%list.

(** The reading of the backoff rule in which the attempts are numbered from
    zero: the wait before the [k]-th retry is [delay * 2^(k-1)], so the first
    wait is [delay] itself. *)
Definition backoffFromZero (delay : Z) (evs : list Event) : Prop :=
  backoffs evs
  = map (fun k => delay * 2 ^ Z.of_nat k) (seq 0 (List.length (backoffs evs))).

(** The balance of an entry as the planner compares it. *)
Definition balanceOfEntry (cfg : Config) (balanceRaw : Z) : Js.num :=
  Js.parseFloat (toReadable balanceRaw (decimals cfg)).

(** What holds of the planner's arrays at every point of its loop: the
    preview is the header followed by one line per planned transfer, in
    order, each planned transfer passed the validation against the balance
    on its line, and the skipped list holds skip lines only. *)
Definition planInvariant (acc : PlanState) : Prop :=
  exists entryLines,
    previewLines acc = HeaderLine :: entryLines
    /\ Forall2 (fun p line =>
                  exists b, previewOf p b line /\ validate b (amount p) = Accept)
               (result acc) entryLines
    /\ Forall isSkipLine (skipped acc).

(** The reading of the preview report in which it has, after its header, one
    line for each of the [processed] entries. *)
Definition previewCoversEntries (processed : nat) (preview : list ReportLine) : Prop :=
  List.length preview = S processed.

(** The preview written among [evs], if any. *)
Fixpoint writtenPreview (evs : list Event) : option (list ReportLine) :=
  match evs with
  | [] => None
  | EvWritePreview lines :: _ => Some lines
  | _ :: rest => writtenPreview rest
  end.

(** A line is well formed when it has a key and a destination around its
    colon, neither of them blank. *)
Definition wellFormedLine (line : string) : bool :=
  match Js.split ":" line with
  | [key; dest] =>
      negb (String.eqb (Js.trim key) "") && negb (String.eqb (Js.trim dest) "")
  | _ => false
  end.

(** The reading of the planner in which malformed lines are rejected one by
    one: planning comes back, and no planned transfer has a blank key or
    destination. *)
Definition rejectsMalformed {W : Type}
    (run : Res (list PlannedTransfer * list ReportLine) * State W) : Prop :=
  exists plan skippedLines s',
    run = (Ok (plan, skippedLines), s')
    /\ Forall (fun p => Js.trim (privateKey p) <> "" /\ to p <> "") plan.

(** The reading of the confirmation in which the answer itself, with no
    white space around it, is the word yes in any letter case. *)
Definition exactlyYes (answer : string) : bool :=
  String.eqb (Js.toLowerCase answer) "yes".

(** [ev] records the outcome of the planned transfer [p]: its success line
    with the hash of the transaction, or its failure line with the message
    of the error. *)
Definition isOutcomeEvent (p : PlannedTransfer) (ev : Event) : Prop :=
  (exists hash, ev = EvAppendSuccess (SuccessLine (from p) (to p) (amount p) hash))
  \/ (exists msg, ev = EvAppendFailure (FailureLine (from p) (to p) (amount p) msg)).

(** The events of the runner for one planned transfer: the calls and waits
    of [withRetry], at least one call, then the one outcome, then the wait of
    [randomDelay]. *)
Definition entryBlock (p : PlannedTransfer) (block : list Event) : Prop :=
  exists attempts ev ms,
    block = (attempts ++ [ev; EvSleep ms])%list
    /\ Forall isAttemptEvent attempts
    /\ (1 <= invocations attempts)%nat
    /\ isOutcomeEvent p ev.

(** The second normalisation of [binary_round_aux], on a mantissa of at most
    53 bits or on [2^53]. *)
Definition finish (m2 e1 : Z) : spec_float :=
  if (m2 =? 0)%Z then S754_zero false
  else if (m2 =? 2 ^ 53)%Z then
    if (e1 + 1 <=? 971)%Z then S754_finite false (Z.to_pos (2 ^ 52)) (e1 + 1)
    else S754_infinity false
  else if (e1 <=? 971)%Z then S754_finite false (Z.to_pos m2) e1
  else S754_infinity false.

(** ** The ledger of a run of the planner

    What the planner did with each line, in the order of the lines, and the
    three lists that follow from it. *)

(** What the planner did with one line: the balance query of its address
    failed, or the entry was recorded with the balance read, the trimmed
    destination and the amount computed. *)
Inductive EntryOutcome : Type :=
| QueryFailed (fromAddr : Address)
| Recorded (key : string) (fromAddr : Address) (balanceRaw : Z) (toText : string)
           (amount : Js.num).

(** The line written for the entry of index [i], on the preview (no
    reason) or on the skipped list (with the reason). *)
Definition entryLine (cfg : Config) (i : Z) (fromAddr : Address) (balanceRaw : Z)
    (toText : string) (amount : Js.num) (reason : option SkipReason) : ReportLine :=
  EntryLine (i + 1) fromAddr (toReadable balanceRaw (decimals cfg)) toText
            (symbol cfg) (Js.toFixedDigits amount 6) reason.

(** The planned transfers of the entries that the validation accepts. *)
Fixpoint plannedEntries (cfg : Config) (outcomes : list EntryOutcome)
  : list PlannedTransfer :=
  match outcomes with
  | [] => []
  | QueryFailed _ :: rest => plannedEntries cfg rest
  | Recorded key fromAddr balanceRaw toText amount :: rest =>
      match validate (balanceOfEntry cfg balanceRaw) amount with
      | Accept =>
          {| privateKey := key; from := fromAddr; to := toText; amount := amount |}
          :: plannedEntries cfg rest
      | Skip _ => plannedEntries cfg rest
      end
  end.

(** The preview lines of the entries that the validation accepts, the
    first line of the ledger having the index [i]. *)
Fixpoint previewEntries (cfg : Config) (i : Z) (outcomes : list EntryOutcome)
  : list ReportLine :=
  match outcomes with
  | [] => []
  | QueryFailed _ :: rest => previewEntries cfg (i + 1) rest
  | Recorded key fromAddr balanceRaw toText amount :: rest =>
      match validate (balanceOfEntry cfg balanceRaw) amount with
      | Accept =>
          entryLine cfg i fromAddr balanceRaw toText amount None
          :: previewEntries cfg (i + 1) rest
      | Skip _ => previewEntries cfg (i + 1) rest
      end
  end.

(** The lines of the entries that the validation skips, each with its
    reason. *)
Fixpoint skippedEntries (cfg : Config) (i : Z) (outcomes : list EntryOutcome)
  : list ReportLine :=
  match outcomes with
  | [] => []
  | QueryFailed _ :: rest => skippedEntries cfg (i + 1) rest
  | Recorded key fromAddr balanceRaw toText amount :: rest =>
      match validate (balanceOfEntry cfg balanceRaw) amount with
      | Accept => skippedEntries cfg (i + 1) rest
      | Skip reason =>
          entryLine cfg i fromAddr balanceRaw toText amount (Some reason)
          :: skippedEntries cfg (i + 1) rest
      end
  end.

(** The entries of the ledger that the validation accepts. *)
Definition isAccepted (cfg : Config) (o : EntryOutcome) : bool :=
  match o with
  | QueryFailed _ => false
  | Recorded _ _ balanceRaw _ amount =>
      match validate (balanceOfEntry cfg balanceRaw) amount with
      | Accept => true
      | Skip _ => false
      end
  end.

(** The events of the failed balance queries of the ledger, which are all
    that the loop of the planner records. *)
Fixpoint failedQueries (outcomes : list EntryOutcome) : list Event :=
  match outcomes with
  | [] => []
  | QueryFailed fromAddr :: rest => EvQueryFailed fromAddr :: failedQueries rest
  | Recorded _ _ _ _ _ :: rest => failedQueries rest
  end.

(** The event of the writing of the skipped list to its file. *)
Definition isWriteSkipped (ev : Event) : Prop :=
  match ev with EvWriteSkipped _ => True | _ => False end.

Section PlannerRuns.

Variable World : Type.
Variable mathRandom : World -> Js.num * World.
Variable newWallet : string -> Res Address.
Variable getBalance : Address -> World -> Res Z * World.
Variable balanceOf : string -> Address -> World -> Res Z * World.

(** The iteration of the planner on [line], started in the state [s], had
    the outcome [o] and ended in the state [s']: the wallet was built from
    the trimmed key; then either the balance query made in [s] threw, which
    was recorded, or it returned [balanceRaw] and the amount was computed
    from the balance read. *)
Definition entryRun (cfg : Config) (line : string) (s : State World)
    (o : EntryOutcome) (s' : State World) : Prop :=
  match o with
  | QueryFailed fromAddr =>
      newWallet (Js.trim (nth 0 (Js.split ":" line) "")) = Ok fromAddr
      /\ exists e s1,
           queryBalance World getBalance balanceOf cfg fromAddr s = (Throw e, s1)
           /\ s' = {| world := world s1;
                      trace := (trace s1 ++ [EvQueryFailed fromAddr])%list |}
  | Recorded key fromAddr balanceRaw toText amount =>
      key = nth 0 (Js.split ":" line) ""
      /\ (exists field, nth_error (Js.split ":" line) 1 = Some field
                        /\ toText = Js.trim field)
      /\ newWallet (Js.trim key) = Ok fromAddr
      /\ exists s1,
           queryBalance World getBalance balanceOf cfg fromAddr s = (Ok balanceRaw, s1)
           /\ computeAmount World mathRandom cfg (balanceOfEntry cfg balanceRaw) s1
              = (Ok amount, s')
  end.

(** The loop of the planner over [lines], started in [s], had the outcomes
    [outcomes], one per line, and ended in [s']. *)
Fixpoint plannerRun (cfg : Config) (lines : list string) (s : State World)
    (outcomes : list EntryOutcome) (s' : State World) : Prop :=
  match lines, outcomes with
  | [], [] => s' = s
  | line :: rest, o :: others =>
      exists s1, entryRun cfg line s o s1 /\ plannerRun cfg rest s1 others s'
  | _, _ => False
  end.

End PlannerRuns.

(** ** The amount of mode range as a function of the draw *)








(** ** Vocabulary of the further properties *)

(** The five modes the [switch] of the planner knows. *)
Definition knownMode (mode : string) : bool :=
  String.eqb mode "fixed" || String.eqb mode "range" || String.eqb mode "all"
  || String.eqb mode "percent" || String.eqb mode "remain".

(** The one event the loop of the planner records: a failed balance query. *)
Definition isQueryFailed (ev : Event) : Prop :=
  match ev with EvQueryFailed _ => True | _ => False end.

(** The time spent in the waits [waits]. *)
Definition totalWait (waits : list Z) : Z := fold_right Z.add 0 waits.


(** A wallet library that, like ethers, takes a key of 32 bytes written as
    64 hexadecimal digits, with or without the prefix [0x]: a key with white
    space around it is refused.  The address is not computed: the digits of
    the key stand for it. *)
Module Strict.

Definition isHexDigit (c : ascii) : bool :=
  let n := N.to_nat (N_of_ascii c) in
  ((48 <=? n)%nat && (n <=? 57)%nat) || ((97 <=? n)%nat && (n <=? 102)%nat)
  || ((65 <=? n)%nat && (n <=? 70)%nat).

Definition refused (reason : string) : Res Address :=
  Throw {| code := StrCode "INVALID_ARGUMENT"; message := Some reason |}.

Definition newWallet (key : string) : Res Address :=
  let units := Js.chars key in
  if forallb isHexDigit units && (List.length units =? 64)%nat then Ok ("0x" ++ key)
  else
    match units with
    | "0"%char :: "x"%char :: digits =>
        if forallb isHexDigit digits then
          if Nat.odd (List.length digits) then refused "hex data is odd-length"
          else if (List.length digits =? 64)%nat then Ok key
          else refused "invalid private key"
        else refused "invalid hexlify value"
    | _ => refused "invalid hexlify value"
    end.

(** A key of 32 bytes. *)
Definition sampleKey : string :=
  "c0ffee00c0ffee00c0ffee00c0ffee00c0ffee00c0ffee00c0ffee00c0ffee00".

End Strict.

(** ** The lines of a text file

    Both scripts of [multiTransfer/evm/index.js] read their address file with
    [raw.split(/\r?\n/)]: a line ends at LF, or at CR LF. *)

Definition LF : ascii := "010"%char.
Definition CR : ascii := "013"%char.

Definition consFirst (c : ascii) (fields : list (list ascii)) : list (list ascii) :=
  match fields with
  | [] => [[c]]
  | field :: rest => (c :: field) :: rest
  end.

Fixpoint splitLinesChars (l : list ascii) : list (list ascii) :=
  match l with
  | [] => [[]]
  | c :: l' =>
      if Ascii.eqb c LF then [] :: splitLinesChars l'
      else
        match l' with
        | c' :: l'' =>
            if Ascii.eqb c CR && Ascii.eqb c' LF then [] :: splitLinesChars l''
            else consFirst c (splitLinesChars l')
        | [] => [[c]]
        end
  end.

Definition splitLines (raw : string) : list string :=
  map Js.str (splitLinesChars (Js.chars raw)).

(** The lines the planner works on (line 80 of the transfer script):
    [raw.split(/\r?\n/).filter(l => l.trim())]. *)
Definition linesOf (raw : string) : list string :=
  nonBlankLines (splitLines raw).

(** The two line ends, and a line with neither CR nor LF in it. *)
Definition lineEndLF : string := String LF "".
Definition lineEndCRLF : string := String CR (String LF "").

Definition plainChars (l : list ascii) : bool :=
  forallb (fun c => negb (Ascii.eqb c LF) && negb (Ascii.eqb c CR)) l.

Definition plainLine (line : string) : bool := plainChars (Js.chars line).

(** ** The balance query script

    The second script of [multiTransfer/evm/index.js] (lines 265-376; a
    later copy is [unnamed/part_000]): for each address of a file it asks
    the chain for a balance, through its own [withRetry], and appends a line
    to the success log or to the failure log.  The state is passed
    explicitly. *)

Module Balances.

(** What a [catch] clause receives: an error object, or the [undefined]
    that [throw lastError] throws when no attempt was made. *)
Inductive Thrown : Type :=
| Undefined
| Error (e : JsError).

(** Observable effects, in the order they happen. *)
Inductive Event : Type :=
| Query                     (* withRetry calls the wrapped query *)
| Delay (ms : Z)            (* delay(delayMs) between two attempts *)
| WriteSuccessHeader        (* fs.writeFileSync of the success log *)
| WriteFailureHeader        (* fs.writeFileSync of the failure log *)
| AppendSuccess (address : string) (rawBalance : Z) (decimals : nat)
                            (* `${address}:${formatUnits(rawBalance, decimals)}\n` *)
| AppendFailure (address : string).   (* `${address}\n` *)

Section Script.

Variable World : Type.

(** [provider.getBalance(address)] and [token.balanceOf(address)]. *)
Variable getBalance : Address -> World -> Res Z * World.
Variable balanceOf : Address -> World -> Res Z * World.

Record State : Type := mkState {
  chain : World;
  log : list Event
}.

Definition record (ev : Event) (s : State) : State :=
  {| chain := chain s; log := log s ++ [ev] |}.

Section WithRetry.

Variable A : Type.
Variable fn : World -> Res A * World.
Variable retries : Z.
Variable delayMs : Z.

(** The loop [for (let i = 0; i < retries; i++)] from index [i] on, with
    [lastError] as it stands; [budget] bounds the iterations left and is
    never what ends the loop.  The value is what [fn] returned, or what the
    [throw lastError] after the loop throws. *)
Fixpoint retryFrom (budget : nat) (i : Z) (lastError : Thrown) (s : State)
  : (A + Thrown) * State :=
  if (i <? retries)%Z then
    match budget with
    | O => (inr lastError, s)
    | S budget' =>
        let s1 := record Query s in
        match fn (chain s1) with
        | (Ok v, w) => (inl v, {| chain := w; log := log s1 |})
        | (Throw err, w) =>
            let s2 := {| chain := w; log := log s1 |} in
            let s3 := if (i <? retries - 1)%Z then record (Delay delayMs) s2 else s2 in
            retryFrom budget' (i + 1) (Error err) s3
        end
    end
  else (inr lastError, s).

Definition withRetry (s : State) : (A + Thrown) * State :=
  retryFrom (Z.to_nat retries) 0 Undefined s.

End WithRetry.

(** The body of the loop over the addresses: the [try] block appends the
    success line; the [catch] block reads [error.message], which throws a
    TypeError when [error] is [undefined], and appends the failure line. *)
Definition queryOne (isNative : bool) (decimals : nat) (retries delayMs : Z)
    (address : string) (s : State) : (unit + Thrown) * State :=
  let fn := if isNative then getBalance address else balanceOf address in
  match withRetry Z fn retries delayMs s with
  | (inl rawBalance, s1) =>
      (inl tt, record (AppendSuccess address rawBalance decimals) s1)
  | (inr (Error error), s1) =>
      (inl tt, record (AppendFailure address) s1)
  | (inr Undefined, s1) =>
      (inr (Error (typeError
              "Cannot read properties of undefined (reading 'message')")), s1)
  end.

(** The loop [for (let i = 0; i < addressList.length; i++)]. *)
Fixpoint queryAll (isNative : bool) (decimals : nat) (retries delayMs : Z)
    (addressList : list string) (s : State) : (unit + Thrown) * State :=
  match addressList with
  | [] => (inl tt, s)
  | address :: rest =>
      match queryOne isNative decimals retries delayMs address s with
      | (inl _, s1) => queryAll isNative decimals retries delayMs rest s1
      | (inr t, s1) => (inr t, s1)
      end
  end.

(** [raw.split(/\r?\n/).map(line => line.trim()).filter(Boolean)] *)
Definition addressesOf (raw : string) : list string :=
  filter (fun line => negb (String.eqb line "")) (map Js.trim (splitLines raw)).

(** The script from the reading of the address file on (lines 339-355), for
    a token whose decimals are known. *)
Definition run (isNative : bool) (decimals : nat) (retries delayMs : Z)
    (raw : string) (s : State) : (unit + Thrown) * State :=
  let addressList := addressesOf raw in
  let s1 := record WriteFailureHeader (record WriteSuccessHeader s) in
  queryAll isNative decimals retries delayMs addressList s1.

End Script.

Arguments chain {World} s.
Arguments log {World} s.
Arguments mkState {World} chain log.
Arguments record {World} ev s.
Arguments retryFrom {World A} fn retries delayMs budget i lastError s.
Arguments withRetry {World A} fn retries delayMs s.

(** The events of a run of [withRetry] that calls the query [n] times: a
    wait between two calls, none after the last. *)
Fixpoint attemptLog (delayMs : Z) (n : nat) : list Event :=
  match n with
  | O => []
  | S n' =>
      match n' with
      | O => [Query]
      | S _ => Query :: Delay delayMs :: attemptLog delayMs n'
      end
  end.


(** A chain that answers the balance queries from a script, then fails. *)
Definition scripted (address : Address) (w : list (Res Z))
  : Res Z * list (Res Z) :=
  match w with
  | [] => (Throw {| code := NoCode; message := Some "no answer" |}, [])
  | r :: rest => (r, rest)
  end.

End Balances.

(** ** The wallet generator

    The third script derives [num] wallets and adds a row for each to a
    worksheet, which it saves once all the rows are there.  [num] is [NUM]
    as [parseInt] reads it; a [NUM] that is no number runs the loop as zero
    does. *)

Module Wallets.

(** A row of the worksheet. *)
Record Row : Type := mkRow {
  address : Address;
  privateKey : string;
  mnemonic : string
}.

(** [`${i}`] for an index of the loop. *)
Definition decimal (i : Z) : string :=
  NilEmpty.string_of_uint (N.to_uint (Z.to_N i)).

(** [`m/44'/60'/0'/0/${i}`] *)
Definition pathOf (i : Z) : string := "m/44'/60'/0'/0/" ++ decimal i.

(** [envConfig.USE_SINGLE_MNEMONIC === 'false'], the setting being absent
    from the file or a string. *)
Definition isUsingSingleMnemonic (setting : option string) : bool :=
  match setting with
  | Some text => String.eqb text "false"
  | None => false
  end.

Section Script.

Variable World : Type.

(** [bip39.generateMnemonic()] *)
Variable generateMnemonic : World -> string * World.

(** [ethers.utils.HDNode.fromMnemonic(mnemonic).derivePath(path).privateKey] *)
Variable derivePrivateKey : string -> string -> Res string.

(** [new ethers.Wallet(key)], read at [.address]. *)
Variable newWallet : string -> Res Address.

(** The loop [for (let i = 0; i < num; i++)] from index [i] on, with the
    variables [mnemonic] and [derivationPath] as they stand; [budget] bounds
    the iterations left and is never what ends the loop. *)
Fixpoint generateFrom (single : bool) (num : Z) (budget : nat) (i : Z)
    (mnemonic derivationPath : string) (rows : list Row) (w : World)
  : Res (list Row) * World :=
  if (i <? num)%Z then
    match budget with
    | O => (Ok rows, w)
    | S budget' =>
        let '(mnemonic, w) :=
          if negb single then generateMnemonic w else (mnemonic, w) in
        let derivationPath := if negb single then derivationPath else pathOf i in
        match derivePrivateKey mnemonic derivationPath with
        | Throw e => (Throw e, w)
        | Ok key =>
            match newWallet key with
            | Throw e => (Throw e, w)
            | Ok addr =>
                generateFrom single num budget' (i + 1) mnemonic derivationPath
                  (rows ++ [{| address := addr; privateKey := key;
                               mnemonic := mnemonic |}]) w
            end
        end
    end
  else (Ok rows, w).

(** The script: the value is the rows of the workbook it saves. *)
Definition generateWallets (num : Z) (setting : option string) (w : World)
  : Res (list Row) * World :=
  let '(mnemonic, w) := generateMnemonic w in
  generateFrom (isUsingSingleMnemonic setting) num (Z.to_nat num) 0
    mnemonic "m/44'/60'/0'/0/0" [] w.

(** The row of the wallet derived from [mnemonic] at [path]. *)
Definition rowOf (mnemonic path : string) : Res Row :=
  match derivePrivateKey mnemonic path with
  | Throw e => Throw e
  | Ok key =>
      match newWallet key with
      | Throw e => Throw e
      | Ok addr => Ok {| address := addr; privateKey := key; mnemonic := mnemonic |}
      end
  end.

(** [count] mnemonics drawn in a row. *)
Fixpoint draw (count : nat) (w : World) : list string * World :=
  match count with
  | O => ([], w)
  | S count' =>
      let '(m, w1) := generateMnemonic w in
      let '(ms, w2) := draw count' w1 in
      (m :: ms, w2)
  end.

End Script.

(** The [n] indices from [i] on. *)
Fixpoint indicesFrom (i : Z) (n : nat) : list Z :=
  match n with
  | O => []
  | S n' => i :: indicesFrom (i + 1) n'
  end.

(** A generator that hands out the mnemonics of a list, a derivation that
    names its inputs and, like [HDNode.fromMnemonic], throws on a text that
    is no mnemonic (here the empty one), and a wallet whose address names
    its key. *)
Definition scripted (w : list string) : string * list string :=
  match w with
  | [] => ("", [])
  | m :: rest => (m, rest)
  end.

Definition derived (mnemonic path : string) : Res string :=
  if String.eqb mnemonic ""
  then Throw {| code := StrCode "INVALID_ARGUMENT"; message := Some "invalid mnemonic" |}
  else Ok (mnemonic ++ "@" ++ path).

Definition walletOf (key : string) : Res Address := Ok ("0x" ++ key).

End Wallets.

(** * Properties *)

Local Open Scope list_scope.
Local Open Scope Z_scope.

(** ** The effect layer *)

Ltac run_step :=
  unfold bind, ret, throw, tryCatch, emit, call, lift; cbn [world trace fst snd].

Section RetryFacts.

Variable World : Type.
Variable A : Type.
Variable fn : World -> Res A * World.
Variable maxRetries delay : Z.

Local Abbreviation loop := (retryLoop fn maxRetries delay).

Lemma retryLoop_stop (budget : nat) (attempt : Z) (s : State World) :
  maxRetries < attempt ->
  loop budget attempt s = (Ok None, s).
Proof.
  intros Hlt. destruct budget; cbn [retryLoop];
    replace (attempt <=? maxRetries) with false by (symmetry; apply Z.leb_gt; lia);
    reflexivity.
Qed.

Lemma retryLoop_ok (budget : nat) (attempt : Z) (s : State World) v w :
  attempt <= maxRetries ->
  fn (world s) = (Ok v, w) ->
  loop (S budget) attempt s
  = (Ok (Some v), {| world := w; trace := trace s ++ [EvInvoke] |}).
Proof.
  intros Hle Hfn. cbn [retryLoop].
  replace (attempt <=? maxRetries) with true by (symmetry; apply Z.leb_le; lia).
  run_step. rewrite Hfn. reflexivity.
Qed.

Lemma retryLoop_fatal (budget : nat) (attempt : Z) (s : State World) e w :
  attempt <= maxRetries ->
  fn (world s) = (Throw e, w) ->
  retriable e = false \/ maxRetries < attempt + 1 ->
  loop (S budget) attempt s
  = (Throw e, {| world := w; trace := trace s ++ [EvInvoke] |}).
Proof.
  intros Hle Hfn Hwhy. cbn [retryLoop].
  replace (attempt <=? maxRetries) with true by (symmetry; apply Z.leb_le; lia).
  run_step. rewrite Hfn.
  destruct Hwhy as [Hr | Hlast].
  - rewrite Hr. reflexivity.
  - replace (maxRetries <? attempt + 1) with true by (symmetry; apply Z.ltb_lt; lia).
    rewrite orb_true_r. reflexivity.
Qed.

Lemma retryLoop_again (budget : nat) (attempt : Z) (s : State World) e w :
  attempt < maxRetries ->
  fn (world s) = (Throw e, w) ->
  retriable e = true ->
  loop (S budget) attempt s
  = loop budget (attempt + 1)
      {| world := w;
         trace := trace s ++ [EvInvoke; EvBackoff (delay * 2 ^ (attempt + 1))] |}.
Proof.
  intros Hlt Hfn Hr. cbn [retryLoop].
  replace (attempt <=? maxRetries) with true by (symmetry; apply Z.leb_le; lia).
  run_step. rewrite Hfn, Hr.
  replace (maxRetries <? attempt + 1) with false by (symmetry; apply Z.ltb_ge; lia).
  cbn [negb orb world trace]. unfold Js.pow2. rewrite <- app_assoc. reflexivity.
Qed.

(** The shape of every run of the loop whose budget is the number of
    iterations the loop condition allows. *)
Lemma retryLoop_shape (budget : nat) :
  forall (attempt : Z) (s : State World),
    budget = Z.to_nat (maxRetries + 1 - attempt) ->
    exists n,
      (n <= budget)%nat /\
      (attempt <= maxRetries -> (1 <= n)%nat) /\
      trace (snd (loop budget attempt s))
      = trace s ++ attemptEvents delay attempt n.
Proof.
  induction budget as [|budget IH]; intros attempt s Hb.
  - exists O. rewrite retryLoop_stop by lia. cbn. rewrite app_nil_r.
    repeat split; first [lia | reflexivity].
  - assert (Hle : attempt <= maxRetries) by lia.
    destruct (fn (world s)) as [[v | e] w] eqn:Hfn.
    + exists 1%nat. rewrite (retryLoop_ok _ _ _ _ _ Hle Hfn). cbn.
      repeat split; first [lia | reflexivity].
    + destruct (retriable e) eqn:Hr;
        [destruct (Z.eq_dec attempt maxRetries) as [Hlast | Hmore]|].
      * exists 1%nat.
        rewrite (retryLoop_fatal _ _ _ _ _ Hle Hfn) by (right; lia). cbn.
        repeat split; first [lia | reflexivity].
      * assert (Hlt : attempt < maxRetries) by lia.
        rewrite (retryLoop_again _ _ _ _ _ Hlt Hfn Hr).
        destruct (IH (attempt + 1)
                     {| world := w;
                        trace := trace s ++ [EvInvoke;
                                   EvBackoff (delay * 2 ^ (attempt + 1))] |})
          as (n & Hn & Hpos & Htr); [lia|].
        destruct n as [|n]; [lia|].
        exists (S (S n)). rewrite Htr. cbn [trace].
        rewrite <- app_assoc. cbn [attemptEvents app].
        repeat split; first [lia | reflexivity].
      * exists 1%nat.
        rewrite (retryLoop_fatal _ _ _ _ _ Hle Hfn) by (left; exact Hr). cbn.
        repeat split; first [lia | reflexivity].
Qed.

(** The budget is never what ends the loop: a larger one changes nothing. *)
Lemma retryLoop_budget (budget : nat) :
  forall (attempt : Z) (s : State World),
    budget = Z.to_nat (maxRetries + 1 - attempt) ->
    forall extra, loop (budget + extra) attempt s = loop budget attempt s.
Proof.
  induction budget as [|budget IH]; intros attempt s Hb extra.
  - rewrite !retryLoop_stop by lia. reflexivity.
  - assert (Hle : attempt <= maxRetries) by lia.
    cbn [Nat.add].
    destruct (fn (world s)) as [[v | e] w] eqn:Hfn.
    + rewrite !(retryLoop_ok _ _ _ _ _ Hle Hfn). reflexivity.
    + destruct (retriable e) eqn:Hr;
        [destruct (Z.eq_dec attempt maxRetries) as [Hlast | Hmore]|].
      * rewrite !(retryLoop_fatal _ _ _ _ _ Hle Hfn) by (right; lia). reflexivity.
      * assert (Hlt : attempt < maxRetries) by lia.
        rewrite !(retryLoop_again _ _ _ _ _ Hlt Hfn Hr).
        apply IH. lia.
      * rewrite !(retryLoop_fatal _ _ _ _ _ Hle Hfn) by (left; exact Hr). reflexivity.
Qed.

Lemma attemptEvents_more (attempt : Z) (n : nat) :
  attemptEvents delay attempt (S (S n))
  = EvInvoke :: EvBackoff (delay * 2 ^ (attempt + 1))
             :: attemptEvents delay (attempt + 1) (S n).
Proof. reflexivity. Qed.

Lemma attemptEvents_invocations (attempt : Z) (n : nat) :
  invocations (attemptEvents delay attempt n) = n.
Proof.
  revert attempt. induction n as [|n IH]; intros attempt; [reflexivity|].
  destruct n as [|n]; [reflexivity|].
  rewrite attemptEvents_more. specialize (IH (attempt + 1)).
  unfold invocations in *. cbn [filter isInvoke List.length].
  rewrite IH. reflexivity.
Qed.

Lemma attemptEvents_backoffs (attempt : Z) (n : nat) :
  backoffs (attemptEvents delay attempt n)
  = map (fun k => delay * 2 ^ (attempt + Z.of_nat k)) (seq 1 (n - 1)).
Proof.
  revert attempt. induction n as [|n IH]; intros attempt; [reflexivity|].
  destruct n as [|n]; [reflexivity|].
  rewrite attemptEvents_more. cbn [backoffs]. rewrite IH.
  replace (S (S n) - 1)%nat with (S (S n - 1)) by lia.
  cbn [seq map]. f_equal.
  rewrite <- (seq_shift (S n - 1) 1), map_map. apply map_ext. intros k.
  f_equal. f_equal. lia.
Qed.

Lemma attemptEvents_attempts (attempt : Z) (n : nat) :
  Forall isAttemptEvent (attemptEvents delay attempt n).
Proof.
  revert attempt. induction n as [|n IH]; intros attempt; [constructor|].
  destruct n as [|n].
  - repeat constructor.
  - rewrite attemptEvents_more.
    constructor; [exact I|]. constructor; [exact I|]. apply IH.
Qed.

End RetryFacts.

(** ** Strings *)

Lemma isPrefix_spec (p : list ascii) :
  forall l, Js.isPrefix p l = true <-> exists after, l = p ++ after.
Proof.
  induction p as [|a p IH]; intros l; cbn [Js.isPrefix].
  - split; [intros _; exists l; reflexivity | reflexivity].
  - destruct l as [|b l].
    + split; [discriminate | intros [after H]; discriminate].
    + rewrite andb_true_iff, IH, Ascii.eqb_eq. split.
      * intros [-> [after ->]]. exists after. reflexivity.
      * intros [after H]. injection H as -> ->. split; [reflexivity | eauto].
Qed.

Lemma includesChars_spec (needle : list ascii) :
  forall hay,
    Js.includesChars needle hay = true
    <-> exists before after, hay = before ++ needle ++ after.
Proof.
  induction hay as [|c hay IH]; cbn [Js.includesChars];
    rewrite orb_true_iff, isPrefix_spec.
  - split.
    + intros [[after H] | H]; [|discriminate]. exists [], after. exact H.
    + intros (before & after & H). left.
      destruct before; [exists after; exact H | discriminate].
  - rewrite IH. split.
    + intros [[after H] | (before & after & H)].
      * exists [], after. exact H.
      * exists (c :: before), after. rewrite H. reflexivity.
    + intros (before & after & H). destruct before as [|c' before].
      * left. exists after. exact H.
      * right. injection H as -> H. eauto.
Qed.

Lemma includes_spec (hay needle : string) :
  Js.includes hay needle = true <-> occursIn needle hay.
Proof. unfold Js.includes, occursIn. apply includesChars_spec. Qed.

(** The retriable errors are those with code SERVER_ERROR, those with code
    -32603 and those whose message contains "no response". *)
Lemma retriable_spec (e : JsError) :
  retriable e = true
  <-> code e = StrCode "SERVER_ERROR"
      \/ code e = NumCode (-32603)
      \/ exists m, message e = Some m /\ occursIn "no response" m.
Proof.
  unfold retriable. rewrite !orb_true_iff. split.
  - intros [[H | H] | H].
    + left. destruct (code e); try discriminate.
      apply String.eqb_eq in H. congruence.
    + right; left. destruct (code e); try discriminate.
      apply Z.eqb_eq in H. congruence.
    + right; right. destruct (message e) as [m|]; [|discriminate].
      exists m. split; [reflexivity | apply includes_spec; exact H].
  - intros [H | [H | (m & Hm & H)]].
    + left; left. rewrite H. apply String.eqb_refl.
    + left; right. rewrite H. reflexivity.
    + right. rewrite Hm. apply includes_spec. exact H.
Qed.

(** ** The retry executor *)

(** C2.  With a retry count [maxRetries >= 0], [withRetry] calls the wrapped
    operation at most [maxRetries + 1] times.  An error is retriable exactly
    when its code is SERVER_ERROR or -32603 or its message contains
    "no response".  When the operation fails twice with retriable errors and
    then succeeds (and at least two retries are allowed, as with the default
    of three), it is called exactly three times and its value is returned.
    When it fails with an error that is not retriable, it is called exactly
    once and that error is thrown at once. *)
Theorem withRetry_invocations
    (World A : Type) (fn : World -> Res A * World) (maxRetries delay : Z)
    (Hretries : 0 <= maxRetries) :
  (forall s, exists evs,
      trace (snd (withRetry fn maxRetries delay s)) = trace s ++ evs
      /\ Z.of_nat (invocations evs) <= maxRetries + 1)
  /\ (forall e,
       retriable e = true
       <-> code e = StrCode "SERVER_ERROR"
           \/ code e = NumCode (-32603)
           \/ exists m, message e = Some m /\ occursIn "no response" m)
  /\ (2 <= maxRetries ->
      forall s e1 w1 e2 w2 v w3,
        fn (world s) = (Throw e1, w1) -> retriable e1 = true ->
        fn w1 = (Throw e2, w2) -> retriable e2 = true ->
        fn w2 = (Ok v, w3) ->
        exists evs,
          withRetry fn maxRetries delay s
          = (Ok (Some v), {| world := w3; trace := trace s ++ evs |})
          /\ invocations evs = 3%nat)
  /\ (forall s e w,
        fn (world s) = (Throw e, w) -> retriable e = false ->
        exists evs,
          withRetry fn maxRetries delay s
          = (Throw e, {| world := w; trace := trace s ++ evs |})
          /\ invocations evs = 1%nat).
Proof.
  split; [|split; [|split]].
  - intros s.
    destruct (retryLoop_shape World A fn maxRetries delay
                (Z.to_nat (maxRetries + 1)) 0 s) as (n & Hn & _ & Htr);
      [f_equal; lia|].
    exists (attemptEvents delay 0 n). split; [exact Htr|].
    rewrite attemptEvents_invocations. lia.
  - exact retriable_spec.
  - intros Htwo s e1 w1 e2 w2 v w3 H1 R1 H2 R2 H3.
    unfold withRetry.
    replace (Z.to_nat (maxRetries + 1))
      with (S (S (S (Z.to_nat (maxRetries - 2))))) by lia.
    rewrite (retryLoop_again World A fn maxRetries delay _ 0 s e1 w1)
      by first [lia | assumption].
    rewrite (retryLoop_again World A fn maxRetries delay _ (0 + 1) _ e2 w2)
      by first [lia | assumption].
    rewrite (retryLoop_ok World A fn maxRetries delay _ (0 + 1 + 1) _ v w3)
      by first [lia | assumption].
    cbn [trace world]. rewrite <- !app_assoc. cbn [app].
    eexists. split; [reflexivity|]. reflexivity.
  - intros s e w H R. unfold withRetry.
    replace (Z.to_nat (maxRetries + 1)) with (S (Z.to_nat maxRetries)) by lia.
    rewrite (retryLoop_fatal World A fn maxRetries delay _ 0 s e w)
      by first [lia | assumption | left; assumption].
    eexists. split; reflexivity.
Qed.

(** C8, as the code has it.  The attempt counter is incremented before the
    wait is computed, so the wait before the [k]-th retry ([k = 1, 2, ...]) is
    [delay * 2^k]: every run of [withRetry] waits [delay * 2], then
    [delay * 4], and so on, once after each call but the last.  With the
    default delay of 1000 ms the first wait is 2000 ms. *)
Theorem withRetry_backoff
    (World A : Type) (fn : World -> Res A * World) (maxRetries delay : Z)
    (s : State World) :
  exists evs,
    trace (snd (withRetry fn maxRetries delay s)) = trace s ++ evs
    /\ backoffs evs
       = map (fun k => delay * 2 ^ Z.of_nat k) (seq 1 (invocations evs - 1))
    /\ (forall first rest, backoffs evs = first :: rest -> first = delay * 2)
    /\ defaultDelay * 2 = 2000.
Proof.
  destruct (retryLoop_shape World A fn maxRetries delay
              (Z.to_nat (maxRetries + 1)) 0 s) as (n & Hn & _ & Htr);
    [f_equal; lia|].
  exists (attemptEvents delay 0 n).
  assert (Hb : backoffs (attemptEvents delay 0 n)
               = map (fun k => delay * 2 ^ Z.of_nat k) (seq 1 (n - 1))).
  { rewrite attemptEvents_backoffs. apply map_ext. intros k. reflexivity. }
  rewrite attemptEvents_invocations.
  repeat split; try assumption.
  intros first rest Hfirst. rewrite Hb in Hfirst.
  destruct (n - 1)%nat; cbn [seq map] in Hfirst; [discriminate|].
  injection Hfirst as <- _. reflexivity.
Qed.

Lemma withRetry_invocations_witness :
  exists evs,
    withRetry Sim.scripted 3 1000
      (mkState [Throw Sim.serverError; Throw Sim.noResponse; Ok "0xhash"] [])
    = (Ok (Some "0xhash"), mkState [] ([] ++ evs))
    /\ invocations evs = 3%nat.
Proof.
  destruct (withRetry_invocations _ _ Sim.scripted 3 1000 ltac:(lia))
    as (_ & _ & Hthree & _).
  apply (Hthree ltac:(lia)
           (mkState [Throw Sim.serverError; Throw Sim.noResponse; Ok "0xhash"] [])
           Sim.serverError [Throw Sim.noResponse; Ok "0xhash"]
           Sim.noResponse [Ok "0xhash"]); reflexivity.
Defined.

(** The wait before the first retry is not the base delay: an operation that
    fails once with a retriable error and then succeeds waits 2000 ms under
    the defaults, where numbering the attempts from zero gives 1000 ms. *)
Lemma withRetry_backoff_counterexample :
  backoffs
    (trace (snd (withRetry Sim.scripted defaultMaxRetries defaultDelay
                   (mkState [Throw Sim.serverError; Ok "0xhash"] []))))
  = [2000]
  /\ ~ backoffFromZero defaultDelay
        (trace (snd (withRetry Sim.scripted defaultMaxRetries defaultDelay
                       (mkState [Throw Sim.serverError; Ok "0xhash"] [])))).
Proof.
  split; [reflexivity|].
  unfold backoffFromZero. vm_compute. discriminate.
Qed.

(** ** Numbers: comparisons *)

Lemma SFcompare_refl (x : spec_float) :
  x <> S754_nan -> SFcompare x x = Some Eq.
Proof.
  destruct x as [s | s | | s m e]; intros Hx; try congruence.
  - reflexivity.
  - destruct s; reflexivity.
  - cbn [SFcompare]. rewrite Z.compare_refl.
    change (Pos.compare_cont Eq m m) with (m ?= m)%positive.
    rewrite Pos.compare_refl. destruct s; reflexivity.
Qed.

Lemma SFcompare_antisym (x y : spec_float) :
  SFcompare y x = option_map CompOpp (SFcompare x y).
Proof.
  destruct x as [sx | sx | | sx mx ex], y as [sy | sy | | sy my ey];
    cbn [SFcompare option_map]; try reflexivity;
    try (destruct sx; reflexivity); try (destruct sy; reflexivity);
    try (destruct sx, sy; reflexivity).
  change (Pos.compare_cont Eq my mx) with (my ?= mx)%positive.
  change (Pos.compare_cont Eq mx my) with (mx ?= my)%positive.
  rewrite (Z.compare_antisym ex ey), (Pos.compare_antisym mx my).
  destruct sx, sy, (ex ?= ey); cbn [CompOpp]; try reflexivity;
    destruct (mx ?= my)%positive; reflexivity.
Qed.

Lemma isNaN_spec (x : float) :
  Js.isNaN x = false <-> Prim2SF x <> S754_nan.
Proof.
  unfold Js.isNaN. rewrite eqb_spec. unfold SFeqb. split.
  - intros H Hnan. rewrite Hnan in H. discriminate.
  - intros H. rewrite SFcompare_refl by exact H. reflexivity.
Qed.

Lemma compare_defined (x y : float) :
  Js.isNaN x = false -> Js.isNaN y = false ->
  exists c, SFcompare (Prim2SF x) (Prim2SF y) = Some c.
Proof.
  rewrite !isNaN_spec. intros Hx Hy.
  destruct (Prim2SF x) as [sx | sx | | sx mx ex], (Prim2SF y) as [sy | sy | | sy my ey];
    try congruence; cbn [SFcompare]; eauto.
Qed.

(** On numbers, [x <= y] fails exactly when [y < x]. *)
Lemma leb_ltb (x y : float) :
  Js.isNaN x = false -> Js.isNaN y = false ->
  (x <=? y)%float = negb (y <? x)%float.
Proof.
  intros Hx Hy. rewrite leb_spec, ltb_spec. unfold SFleb, SFltb.
  rewrite (SFcompare_antisym (Prim2SF x) (Prim2SF y)).
  destruct (compare_defined x y Hx Hy) as [c ->].
  destruct c; reflexivity.
Qed.

(** A comparison that holds has numbers on both sides. *)
Lemma leb_numbers (x y : float) :
  (x <=? y)%float = true -> Js.isNaN x = false /\ Js.isNaN y = false.
Proof.
  rewrite leb_spec, !isNaN_spec. unfold SFleb.
  destruct (Prim2SF x) as [sx | sx | | sx mx ex], (Prim2SF y) as [sy | sy | | sy my ey];
    cbn [SFcompare]; intros H; split; congruence.
Qed.

Lemma ltb_numbers (x y : float) :
  (x <? y)%float = true -> Js.isNaN x = false /\ Js.isNaN y = false.
Proof.
  rewrite ltb_spec, !isNaN_spec. unfold SFltb.
  destruct (Prim2SF x) as [sx | sx | | sx mx ex], (Prim2SF y) as [sy | sy | | sy my ey];
    cbn [SFcompare]; intros H; split; congruence.
Qed.

Lemma isNaN_zero : Js.isNaN 0%float = false.
Proof. reflexivity. Qed.

(** ** The validation rule *)

Lemma validate_zero (b a : float) :
  validate b a = Skip zero_balance <-> (b <=? 0)%float = true.
Proof.
  unfold validate. destruct (b <=? 0)%float.
  - split; reflexivity.
  - destruct ((a <=? 0)%float || (b <? a)%float); split; discriminate.
Qed.

Lemma validate_insufficient (b a : float) :
  Js.isNaN b = false ->
  validate b a = Skip insufficient_balance
  <-> (0 <? b)%float = true
      /\ ((a <=? 0)%float = true \/ (b <? a)%float = true).
Proof.
  intros Hb. unfold validate.
  rewrite (leb_ltb b 0 Hb isNaN_zero).
  destruct (0 <? b)%float; cbn [negb].
  - rewrite <- orb_true_iff.
    destruct ((a <=? 0)%float || (b <? a)%float); split;
      try discriminate; try tauto; intros [_ H]; discriminate.
  - split; [discriminate | intros [H _]; discriminate].
Qed.

Lemma validate_accept (b a : float) :
  validate b a = Accept
  <-> (b <=? 0)%float = false /\ (a <=? 0)%float = false /\ (b <? a)%float = false.
Proof.
  unfold validate.
  destruct (b <=? 0)%float, (a <=? 0)%float, (b <? a)%float; cbn [orb];
    split; try discriminate; try tauto; intros (H1 & H2 & H3); discriminate.
Qed.

(** ** The planner *)

Lemma queryFailures_app (xs ys : list Event) :
  queryFailures (xs ++ ys) = (queryFailures xs + queryFailures ys)%nat.
Proof.
  induction xs as [|x xs IH]; [reflexivity|].
  destruct x; cbn [app queryFailures]; rewrite IH; reflexivity.
Qed.

Section PlannerFacts.

Variable World : Type.
Variable mathRandom : World -> Js.num * World.
Variable newWallet : string -> Res Address.
Variable getBalance : Address -> World -> Res Z * World.
Variable balanceOf : string -> Address -> World -> Res Z * World.

Local Abbreviation computeAmount := (computeAmount World mathRandom).
Local Abbreviation queryBalance := (queryBalance World getBalance balanceOf).
Local Abbreviation planEntry :=
  (planEntry World mathRandom newWallet getBalance balanceOf).
Local Abbreviation planLoop :=
  (planLoop World mathRandom newWallet getBalance balanceOf).
Local Abbreviation previewTransfers :=
  (previewTransfers World mathRandom newWallet getBalance balanceOf).

Lemma random_trace (s : State World) :
  exists r s', random World mathRandom s = (Ok r, s') /\ trace s' = trace s.
Proof.
  unfold random. destruct (mathRandom (world s)) as [r w].
  eexists _, _. split; reflexivity.
Qed.

(** Computing an amount records no event. *)
Lemma computeAmount_trace (cfg : Config) (b : Js.num) (s : State World) :
  trace (snd (computeAmount cfg b s)) = trace s.
Proof.
  unfold computeAmount.
  destruct (String.eqb (transferMode cfg) "fixed"); [reflexivity|].
  destruct (String.eqb (transferMode cfg) "range").
  - unfold randomAmount, bind.
    destruct (random_trace s) as (r & s' & -> & Htr).
    destruct (Js.toFixed _ _); cbn; exact Htr.
  - repeat match goal with
           | |- context [if ?c then _ else _] => destruct c
           end; reflexivity.
Qed.

Lemma queryBalance_trace (cfg : Config) (a : Address) (s : State World) :
  trace (snd (queryBalance cfg a s)) = trace s.
Proof.
  unfold queryBalance, call.
  destruct (tokenIsNative cfg).
  - destruct (getBalance a (world s)); reflexivity.
  - destruct (balanceOf (tokenAddress cfg) a (world s)); reflexivity.
Qed.

(** What an iteration that goes through does to the arrays: either the
    balance query failed and the arrays are unchanged, or the entry is
    recorded under the verdict of the validation rule. *)
Lemma planEntry_cases (cfg : Config) (i : Z) (line : string)
    (acc acc' : PlanState) (s s' : State World) :
  planEntry cfg i line acc s = (Ok acc', s') ->
  (acc' = acc /\ exists a, trace s' = trace s ++ [EvQueryFailed a])
  \/ (exists fromAddr balanceRaw toText amount,
        nth_error (Js.split ":" line) 1 = Some toText
        /\ trace s' = trace s
        /\ acc' = recordVerdict cfg i (nth 0 (Js.split ":" line) "") fromAddr
                    (toReadable balanceRaw (decimals cfg)) (Js.trim toText) amount
                    (validate (balanceOfEntry cfg balanceRaw) amount) acc).
Proof.
  unfold planEntry, bind, lift, tryCatch.
  destruct (newWallet _) as [fromAddr | e]; [|discriminate].
  pose proof (queryBalance_trace cfg fromAddr s) as Hq.
  destruct (queryBalance cfg fromAddr s) as [[balanceRaw | e] s1]; cbn [snd] in Hq.
  - cbn [ret].
    pose proof (computeAmount_trace cfg
                  (Js.parseFloat (toReadable balanceRaw (decimals cfg))) s1) as Ha.
    destruct (computeAmount cfg _ s1) as [[amount | e] s2]; cbn [snd] in Ha;
      [|discriminate].
    intros H. right. exists fromAddr, balanceRaw.
    unfold balanceOfEntry, validate.
    destruct (nth_error (Js.split ":" line) 1) as [toText|].
    + exists toText, amount.
      destruct (_ <=? 0)%float;
        [| destruct ((amount <=? 0)%float || (_ <? amount)%float)];
        cbn [trimTo bind ret throw] in H; injection H as <- <-;
        (split; [reflexivity | split; [congruence | reflexivity]]).
    + exfalso.
      destruct (_ <=? 0)%float;
        [| destruct ((amount <=? 0)%float || (_ <? amount)%float)];
        cbn [trimTo bind ret throw] in H; discriminate.
  - cbn [emit bind ret]. intros H. injection H as <- <-. left.
    split; [reflexivity|]. exists fromAddr. cbn [trace]. rewrite Hq. reflexivity.
Qed.

(** An iteration on a line with a second field, when the wallet is built,
    the balance is read and the amount is computed. *)
Lemma planEntry_recorded (cfg : Config) (i : Z) (line : string) (acc : PlanState)
    (s s1 s2 : State World) (toText : string) (fromAddr : Address)
    (balanceRaw : Z) (amount : Js.num) :
  nth_error (Js.split ":" line) 1 = Some toText ->
  newWallet (Js.trim (nth 0 (Js.split ":" line) "")) = Ok fromAddr ->
  queryBalance cfg fromAddr s = (Ok balanceRaw, s1) ->
  computeAmount cfg (balanceOfEntry cfg balanceRaw) s1 = (Ok amount, s2) ->
  planEntry cfg i line acc s
  = (Ok (recordVerdict cfg i (nth 0 (Js.split ":" line) "") fromAddr
           (toReadable balanceRaw (decimals cfg)) (Js.trim toText) amount
           (validate (balanceOfEntry cfg balanceRaw) amount) acc), s2).
Proof.
  intros Hto Hwallet Hquery Hamount.
  unfold planEntry, bind, lift, tryCatch.
  rewrite Hwallet, Hquery. cbn [ret].
  unfold balanceOfEntry in *. rewrite Hamount, Hto.
  unfold validate.
  destruct (_ <=? 0)%float;
    [| destruct ((amount <=? 0)%float || (_ <? amount)%float)]; reflexivity.
Qed.

Lemma recordVerdict_invariant (cfg : Config) (i : Z) (key : string)
    (fromAddr : Address) (balanceRaw : Z) (toText : string) (amount : Js.num)
    (acc : PlanState) :
  planInvariant acc ->
  planInvariant
    (recordVerdict cfg i key fromAddr (toReadable balanceRaw (decimals cfg))
       toText amount (validate (balanceOfEntry cfg balanceRaw) amount) acc).
Proof.
  intros (entryLines & Hpre & Hres & Hskip).
  destruct (validate (balanceOfEntry cfg balanceRaw) amount) eqn:Hv;
    cbn [recordVerdict].
  - exists entryLines. cbn [previewLines result skipped].
    repeat split; try assumption.
    apply Forall_app. split; [assumption|]. repeat constructor.
  - eexists. cbn [previewLines result skipped]. rewrite Hpre.
    split; [rewrite <- app_comm_cons; reflexivity|]. split; [|assumption].
    apply Forall2_app; [assumption|]. constructor; [|constructor].
    exists (balanceOfEntry cfg balanceRaw). split; [|exact Hv].
    eexists _, _, _. split; reflexivity.
Qed.

Lemma recordVerdict_count (cfg : Config) (i : Z) (key : string)
    (fromAddr : Address) (balance : Js.NumStr) (toText : string)
    (amount : Js.num) (v : Verdict) (acc : PlanState) :
  (List.length (result (recordVerdict cfg i key fromAddr balance toText amount v acc))
   + List.length (skipped (recordVerdict cfg i key fromAddr balance toText amount v acc))
   = List.length (result acc) + List.length (skipped acc) + 1)%nat.
Proof.
  destruct v; cbn [recordVerdict result skipped]; rewrite length_app; cbn; lia.
Qed.

(** The loop keeps the invariant, and accounts for every line: each one is
    planned, skipped or dropped on a failed balance query. *)
Lemma planLoop_run (cfg : Config) (lines : list string) :
  forall (i : Z) (acc acc' : PlanState) (s s' : State World),
    planLoop cfg i lines acc s = (Ok acc', s') ->
    planInvariant acc ->
    exists evs,
      trace s' = trace s ++ evs
      /\ planInvariant acc'
      /\ (List.length (result acc') + List.length (skipped acc') + queryFailures evs
          = List.length (result acc) + List.length (skipped acc) + List.length lines)%nat.
Proof.
  induction lines as [|line rest IH]; intros i acc acc' s s' Hrun Hinv.
  - cbn in Hrun. injection Hrun as <- <-. exists [].
    rewrite app_nil_r. cbn. repeat split; try assumption; lia.
  - cbn [planLoop] in Hrun. unfold bind in Hrun.
    destruct (planEntry cfg i line acc s) as [[acc1 | e] s1] eqn:Hentry;
      [|discriminate].
    destruct (planEntry_cases cfg i line acc acc1 s s1 Hentry)
      as [[-> [a Htr]] | (fromAddr & raw & toText & amount & _ & Htr & ->)].
    + destruct (IH _ _ _ _ _ Hrun Hinv) as (evs & Htr' & Hinv' & Hcount).
      exists (EvQueryFailed a :: evs). rewrite Htr', Htr, <- app_assoc.
      repeat split; try assumption. cbn [queryFailures List.length]. lia.
    + destruct (IH _ _ _ _ _ Hrun
                  (recordVerdict_invariant cfg i _ fromAddr raw _ amount acc Hinv))
        as (evs & Htr' & Hinv' & Hcount).
      exists evs. rewrite Htr', Htr.
      repeat split; try assumption.
      pose proof (recordVerdict_count cfg i (nth 0 (Js.split ":" line) "")
                    fromAddr (toReadable raw (decimals cfg)) (Js.trim toText)
                    amount (validate (balanceOfEntry cfg raw) amount) acc).
      cbn [List.length]. lia.
Qed.

Lemma initialPlan_invariant : planInvariant initialPlan.
Proof. exists []. repeat split; constructor. Qed.

End PlannerFacts.

(** ** Numbers: the larger of two *)

Lemma ltb_leb (x y : float) : (x <? y)%float = true -> (x <=? y)%float = true.
Proof.
  rewrite ltb_spec, leb_spec. unfold SFltb, SFleb.
  destruct (SFcompare (Prim2SF x) (Prim2SF y)) as [[| |]|]; congruence.
Qed.

Lemma leb_refl (x : float) : Js.isNaN x = false -> (x <=? x)%float = true.
Proof.
  intros Hx. rewrite leb_spec. unfold SFleb.
  rewrite SFcompare_refl by (apply isNaN_spec; exact Hx). reflexivity.
Qed.

(** A zero that carries no sign is the number [0]. *)
Lemma unsigned_zero (x : float) :
  (x <? 0)%float = false -> (0 <? x)%float = false -> Js.isNaN x = false ->
  get_sign x = false -> x = 0%float.
Proof.
  rewrite !ltb_spec, isNaN_spec. unfold SFltb. intros Hlt Hgt Hnan Hsign.
  change (Prim2SF 0) with (S754_zero false) in *.
  destruct (Prim2SF x) as [sx | sx | | sx mx ex] eqn:Hx.
  - rewrite <- (SF2Prim_Prim2SF x), Hx. rewrite <- (SF2Prim_Prim2SF x), Hx in Hsign.
    destruct sx; [discriminate | reflexivity].
  - destruct sx; discriminate.
  - congruence.
  - destruct sx; discriminate.
Qed.

(** [Js.max] is the larger of two numbers. *)
Lemma max_spec (x y : float) :
  Js.isNaN x = false -> Js.isNaN y = false ->
  (x <=? Js.max x y)%float = true
  /\ (y <=? Js.max x y)%float = true
  /\ (Js.max x y = x \/ Js.max x y = y).
Proof.
  intros Hx Hy. unfold Js.max. rewrite Hx, Hy. cbn [orb].
  destruct (x <? y)%float eqn:Hxy.
  - repeat split; [apply ltb_leb; exact Hxy | apply leb_refl; exact Hy | now right].
  - destruct (y <? x)%float eqn:Hyx.
    + repeat split; [apply leb_refl; exact Hx | apply ltb_leb; exact Hyx | now left].
    + assert (H1 : (x <=? y)%float = true) by (rewrite leb_ltb, Hyx; auto).
      assert (H2 : (y <=? x)%float = true) by (rewrite leb_ltb, Hxy; auto).
      destruct (get_sign x); repeat split;
        auto using leb_refl.
Qed.

(** The larger of a number and [0] is that number when it is positive, and
    the number [0] otherwise. *)
Lemma max_zero (d : float) :
  Js.isNaN d = false ->
  Js.max d 0%float = if (0 <? d)%float then d else 0%float.
Proof.
  intros Hd. unfold Js.max. rewrite Hd. cbn [orb Js.isNaN].
  change (negb (0 =? 0)%float) with false. cbv iota.
  destruct (d <? 0)%float eqn:Hneg.
  - replace (0 <? d)%float with false; [reflexivity|].
    pose proof (leb_ltb d 0 Hd isNaN_zero) as H.
    rewrite (ltb_leb _ _ Hneg) in H. destruct (0 <? d)%float; [discriminate | reflexivity].
  - destruct (0 <? d)%float eqn:Hpos; [reflexivity|].
    destruct (get_sign d) eqn:Hsign; [reflexivity|].
    apply unsigned_zero; assumption.
Qed.

(** ** The planner: what is stated of it *)

Section PlannerClaims.

Variable World : Type.
Variable mathRandom : World -> Js.num * World.
Variable newWallet : string -> Res Address.
Variable getBalance : Address -> World -> Res Z * World.
Variable balanceOf : string -> Address -> World -> Res Z * World.

Local Abbreviation computeAmount := (computeAmount World mathRandom).
Local Abbreviation queryBalance := (queryBalance World getBalance balanceOf).
Local Abbreviation planEntry :=
  (planEntry World mathRandom newWallet getBalance balanceOf).
Local Abbreviation planLoop :=
  (planLoop World mathRandom newWallet getBalance balanceOf).
Local Abbreviation previewTransfers :=
  (previewTransfers World mathRandom newWallet getBalance balanceOf).

(** C1.  For an entry whose balance [b] was read and whose amount [a] was
    computed, the planner records the entry under one verdict: it is skipped
    with reason zero_balance exactly when [b <= 0], skipped with reason
    insufficient_balance exactly when [b > 0] and ([a <= 0] or [a > b]), and
    accepted into the plan exactly when neither test holds; the balance test
    comes first, so with [b <= 0] the reason is never insufficient_balance. *)
Theorem planner_validation (cfg : Config) (i : Z) (line : string) (acc : PlanState)
    (s s1 s2 : State World) (toText : string) (fromAddr : Address)
    (balanceRaw : Z) (a : Js.num) :
  nth_error (Js.split ":" line) 1 = Some toText ->
  newWallet (Js.trim (nth 0 (Js.split ":" line) "")) = Ok fromAddr ->
  queryBalance cfg fromAddr s = (Ok balanceRaw, s1) ->
  computeAmount cfg (balanceOfEntry cfg balanceRaw) s1 = (Ok a, s2) ->
  Js.isNaN (balanceOfEntry cfg balanceRaw) = false ->
  exists verdict,
    planEntry cfg i line acc s
    = (Ok (recordVerdict cfg i (nth 0 (Js.split ":" line) "") fromAddr
             (toReadable balanceRaw (decimals cfg)) (Js.trim toText) a
             verdict acc), s2)
    /\ (verdict = Skip zero_balance
        <-> (balanceOfEntry cfg balanceRaw <=? 0)%float = true)
    /\ (verdict = Skip insufficient_balance
        <-> (0 <? balanceOfEntry cfg balanceRaw)%float = true
            /\ ((a <=? 0)%float = true
                \/ (balanceOfEntry cfg balanceRaw <? a)%float = true))
    /\ (verdict = Accept
        <-> (balanceOfEntry cfg balanceRaw <=? 0)%float = false
            /\ (a <=? 0)%float = false
            /\ (balanceOfEntry cfg balanceRaw <? a)%float = false)
    /\ ((balanceOfEntry cfg balanceRaw <=? 0)%float = true
        -> verdict <> Skip insufficient_balance).
Proof.
  intros Hto Hwallet Hquery Hamount Hb.
  exists (validate (balanceOfEntry cfg balanceRaw) a).
  split; [|split; [|split; [|split]]].
  - apply (planEntry_recorded World mathRandom newWallet getBalance balanceOf
             cfg i line acc s s1 s2); assumption.
  - apply validate_zero.
  - apply validate_insufficient. exact Hb.
  - apply validate_accept.
  - intros Hzero Hv. rewrite <- (validate_zero _ a) in Hzero. congruence.
Qed.

(** C3.  In mode remain the computed amount is [Math.max(b - remainAmount, 0)],
    which for numbers is the larger of [b - remainAmount] and [0].  An entry
    with balance 5 gets the amount 0 and is skipped with reason
    insufficient_balance when the amount to keep is 5, and gets the amount 2
    and is accepted into the plan when the amount to keep is 3. *)
Theorem remain_amount (cfg : Config) (Hmode : transferMode cfg = "remain") :
  (forall b s,
      (0 <=? remainAmount cfg)%float = true -> (0 <=? b)%float = true ->
      computeAmount cfg b s = (Ok (Js.max (b - remainAmount cfg)%float 0%float), s)
      /\ (Js.isNaN (b - remainAmount cfg)%float = false ->
          Js.max (b - remainAmount cfg)%float 0%float
          = if (0 <? b - remainAmount cfg)%float then (b - remainAmount cfg)%float
            else 0%float))
  /\ (forall i line acc s s1 toText fromAddr balanceRaw,
        nth_error (Js.split ":" line) 1 = Some toText ->
        newWallet (Js.trim (nth 0 (Js.split ":" line) "")) = Ok fromAddr ->
        queryBalance cfg fromAddr s = (Ok balanceRaw, s1) ->
        balanceOfEntry cfg balanceRaw = 5%float ->
        (remainAmount cfg = 5%float ->
         planEntry cfg i line acc s
         = (Ok (recordVerdict cfg i (nth 0 (Js.split ":" line) "") fromAddr
                  (toReadable balanceRaw (decimals cfg)) (Js.trim toText)
                  0%float (Skip insufficient_balance) acc), s1))
        /\ (remainAmount cfg = 3%float ->
            planEntry cfg i line acc s
            = (Ok (recordVerdict cfg i (nth 0 (Js.split ":" line) "") fromAddr
                     (toReadable balanceRaw (decimals cfg)) (Js.trim toText)
                     2%float Accept acc), s1))).
Proof.
  assert (Hcompute : forall b s,
             computeAmount cfg b s = (Ok (Js.max (b - remainAmount cfg)%float 0%float), s)).
  { intros b s. unfold computeAmount. rewrite Hmode. reflexivity. }
  split.
  - intros b s _ _. split; [apply Hcompute | apply max_zero].
  - intros i line acc s s1 toText fromAddr balanceRaw Hto Hwallet Hquery Hb.
    split; intros Hremain;
      rewrite (planEntry_recorded World mathRandom newWallet getBalance balanceOf
                 cfg i line acc s s1 s1 toText fromAddr balanceRaw
                 (Js.max (balanceOfEntry cfg balanceRaw - remainAmount cfg)%float 0%float)
                 Hto Hwallet Hquery (Hcompute _ _));
      rewrite Hb, Hremain; reflexivity.
Qed.

(** What a run of the planner that comes back has written and returned. *)
Lemma previewTransfers_run (cfg : Config) (rawLines : list string)
    (s s' : State World) (plan : list PlannedTransfer)
    (skippedLines : list ReportLine) :
  previewTransfers cfg rawLines s = (Ok (plan, skippedLines), s') ->
  exists evs entryLines,
    trace s' = trace s ++ evs ++ [EvWritePreview (HeaderLine :: entryLines)]
    /\ planInvariant {| result := plan; skipped := skippedLines;
                        previewLines := HeaderLine :: entryLines |}
    /\ (List.length plan + List.length skippedLines + queryFailures evs
        = List.length (nonBlankLines rawLines))%nat.
Proof.
  unfold previewTransfers, bind. intros Hrun.
  destruct (planLoop cfg 0 (nonBlankLines rawLines) initialPlan s)
    as [[final | e] s1] eqn:Hloop; [|discriminate].
  cbn [emit ret] in Hrun. injection Hrun as <- <- <-.
  destruct (planLoop_run World mathRandom newWallet getBalance balanceOf
              cfg _ _ _ _ _ _ Hloop initialPlan_invariant)
    as (evs & Htr & Hinv & Hcount).
  pose proof Hinv as (entryLines & Hpre & Hres & Hskip).
  exists evs, entryLines. cbn [trace]. rewrite Htr, Hpre, <- app_assoc.
  split; [reflexivity|]. split.
  - exists entryLines. cbn [previewLines result skipped]. auto.
  - cbn in Hcount. lia.
Qed.

(** C7, as the code has it.  The planner does not check the fields of a line.
    A line with a second field, blank or not, whose wallet is built, whose
    balance is read and whose amount is computed is recorded under the
    balance and amount rule alone, with its trimmed second field as the
    destination; when the rule accepts it, it enters the plan with that
    destination, and the loop goes on with the next line. *)
Theorem planner_takes_fields_unchecked (cfg : Config) (i : Z) (line : string)
    (rest : list string) (acc : PlanState) (s s1 s2 : State World)
    (toText : string) (fromAddr : Address) (balanceRaw : Z) (a : Js.num) :
  nth_error (Js.split ":" line) 1 = Some toText ->
  newWallet (Js.trim (nth 0 (Js.split ":" line) "")) = Ok fromAddr ->
  queryBalance cfg fromAddr s = (Ok balanceRaw, s1) ->
  computeAmount cfg (balanceOfEntry cfg balanceRaw) s1 = (Ok a, s2) ->
  let recorded :=
    recordVerdict cfg i (nth 0 (Js.split ":" line) "") fromAddr
      (toReadable balanceRaw (decimals cfg)) (Js.trim toText) a
      (validate (balanceOfEntry cfg balanceRaw) a) acc in
  planLoop cfg i (line :: rest) acc s = planLoop cfg (i + 1) rest recorded s2
  /\ (validate (balanceOfEntry cfg balanceRaw) a = Accept ->
      result recorded
      = result acc ++ [{| privateKey := nth 0 (Js.split ":" line) "";
                          from := fromAddr; to := Js.trim toText; amount := a |}]).
Proof.
  intros Hto Hwallet Hquery Hamount recorded. split.
  - cbn [planLoop]. unfold bind.
    rewrite (planEntry_recorded World mathRandom newWallet getBalance balanceOf
               cfg i line acc s s1 s2 toText fromAddr balanceRaw a
               Hto Hwallet Hquery Hamount).
    reflexivity.
  - intros Hv. unfold recorded. rewrite Hv. reflexivity.
Qed.

End PlannerClaims.

(** *** Runs of the planner on the scripted world *)

Lemma planner_validation_witness :
  exists verdict,
    planEntry Sim.World Sim.mathRandom Sim.newWallet Sim.getBalance Sim.balanceOf
      Sim.fixedOne 1 "k2:d2" initialPlan (Sim.start (Sim.chain [] []))
    = (Ok (recordVerdict Sim.fixedOne 1 "k2" "0xk2"
             (Js.StrFixed false 500000 6) "d2" 1%float verdict initialPlan),
       Sim.start (Sim.chain [] []))
    /\ verdict = Skip insufficient_balance.
Proof.
  destruct (planner_validation Sim.World Sim.mathRandom Sim.newWallet
              Sim.getBalance Sim.balanceOf
              Sim.fixedOne 1 "k2:d2" initialPlan
              (Sim.start (Sim.chain [] [])) (Sim.start (Sim.chain [] []))
              (Sim.start (Sim.chain [] []))
              "d2" "0xk2" (Sim.coin / 2) 1%float
              eq_refl eq_refl eq_refl eq_refl eq_refl)
    as (verdict & Hrun & _ & Hins & _).
  exists verdict. split; [exact Hrun|].
  apply Hins. vm_compute. split; [reflexivity | right; reflexivity].
Defined.

Lemma remain_amount_witness :
  planEntry Sim.World Sim.mathRandom Sim.newWallet Sim.getBalance Sim.balanceOf
    Sim.keepFive 0 "k1:d1" initialPlan (Sim.start (Sim.chain [] []))
  = (Ok (recordVerdict Sim.keepFive 0 "k1" "0xk1" (Js.StrFixed false 5000000 6)
           "d1" 0%float (Skip insufficient_balance) initialPlan),
     Sim.start (Sim.chain [] []))
  /\ planEntry Sim.World Sim.mathRandom Sim.newWallet Sim.getBalance Sim.balanceOf
       Sim.keepThree 0 "k1:d1" initialPlan (Sim.start (Sim.chain [] []))
     = (Ok (recordVerdict Sim.keepThree 0 "k1" "0xk1" (Js.StrFixed false 5000000 6)
              "d1" 2%float Accept initialPlan),
        Sim.start (Sim.chain [] [])).
Proof.
  split.
  - apply (proj2 (remain_amount Sim.World Sim.mathRandom Sim.newWallet
                    Sim.getBalance Sim.balanceOf Sim.keepFive eq_refl)
             0 "k1:d1" initialPlan (Sim.start (Sim.chain [] []))
             (Sim.start (Sim.chain [] [])) "d1" "0xk1" (5 * Sim.coin)
             eq_refl eq_refl eq_refl eq_refl).
    reflexivity.
  - apply (proj2 (remain_amount Sim.World Sim.mathRandom Sim.newWallet
                    Sim.getBalance Sim.balanceOf Sim.keepThree eq_refl)
             0 "k1:d1" initialPlan (Sim.start (Sim.chain [] []))
             (Sim.start (Sim.chain [] [])) "d1" "0xk1" (5 * Sim.coin)
             eq_refl eq_refl eq_refl eq_refl).
    reflexivity.
Defined.

(** The preview of a run with one accepted and one skipped entry has the
    header and the line of the accepted entry only: two lines, not three. *)
Lemma preview_lists_accepted_counterexample :
  Sim.previewTransfers Sim.fixedOne ["k1:d1"; "k2:d2"] (Sim.start (Sim.chain [] []))
  = (Ok ([{| privateKey := "k1"; from := "0xk1"; to := "d1"; amount := 1%float |}],
         [EntryLine 2 "0xk2" (Js.StrFixed false 500000 6) "d2" "Native"
                    (Js.StrFixed false 1000000 6) (Some insufficient_balance)]),
     {| world := Sim.chain [] [];
        trace := [EvWritePreview
                    [HeaderLine;
                     EntryLine 1 "0xk1" (Js.StrFixed false 5000000 6) "d1" "Native"
                               (Js.StrFixed false 1000000 6) None]] |})
  /\ writtenPreview
       (trace (snd (Sim.previewTransfers Sim.fixedOne ["k1:d1"; "k2:d2"]
                      (Sim.start (Sim.chain [] [])))))
     = Some [HeaderLine;
             EntryLine 1 "0xk1" (Js.StrFixed false 5000000 6) "d1" "Native"
                       (Js.StrFixed false 1000000 6) None]
  /\ ~ previewCoversEntries 2
        [HeaderLine;
         EntryLine 1 "0xk1" (Js.StrFixed false 5000000 6) "d1" "Native"
                   (Js.StrFixed false 1000000 6) None].
Proof.
  split; [vm_compute; reflexivity|]. split; [vm_compute; reflexivity|].
  unfold previewCoversEntries. cbn. discriminate.
Qed.

(** A line without a colon is not rejected on its own: planning is aborted
    by a TypeError and the entry after it is never reached.  A line with a
    blank destination is not rejected either: it enters the plan with an
    empty destination. *)
Lemma planner_takes_fields_unchecked_counterexample :
  wellFormedLine "k1" = false
  /\ ~ rejectsMalformed
        (Sim.previewTransfers Sim.fixedOne ["k1"; "k2:d2"]
           (Sim.start (Sim.chain [] [])))
  /\ wellFormedLine "k1: " = false
  /\ ~ rejectsMalformed
        (Sim.previewTransfers Sim.fixedOne ["k1: "]
           (Sim.start (Sim.chain [] []))).
Proof.
  split; [reflexivity|]. split; [|split; [reflexivity|]].
  - intros (plan & skippedLines & s' & Hrun & _).
    vm_compute in Hrun. discriminate.
  - intros (plan & skippedLines & s' & Hrun & Hall).
    vm_compute in Hrun. injection Hrun as <- _ _.
    inversion Hall as [|p rest [_ Hto] _]. apply Hto. reflexivity.
Qed.

Lemma planner_takes_fields_unchecked_witness :
  planLoop Sim.World Sim.mathRandom Sim.newWallet Sim.getBalance Sim.balanceOf
    Sim.fixedOne 0 ["k1: "; "k2:d2"] initialPlan (Sim.start (Sim.chain [] []))
  = planLoop Sim.World Sim.mathRandom Sim.newWallet Sim.getBalance Sim.balanceOf
      Sim.fixedOne 1 ["k2:d2"]
      (recordVerdict Sim.fixedOne 0 "k1" "0xk1" (Js.StrFixed false 5000000 6)
         "" 1%float Accept initialPlan)
      (Sim.start (Sim.chain [] [])).
Proof.
  apply (planner_takes_fields_unchecked Sim.World Sim.mathRandom Sim.newWallet
           Sim.getBalance Sim.balanceOf Sim.fixedOne 0 "k1: " ["k2:d2"]
           initialPlan (Sim.start (Sim.chain [] [])) (Sim.start (Sim.chain [] []))
           (Sim.start (Sim.chain [] [])) " " "0xk1" (5 * Sim.coin) 1%float
           eq_refl eq_refl eq_refl eq_refl).
Defined.

(** ** The confirmation *)

Lemma chars_str (l : list ascii) : Js.chars (Js.str l) = l.
Proof. apply list_ascii_of_string_of_list_ascii. Qed.

Lemma str_chars (t : string) : Js.str (Js.chars t) = t.
Proof. apply string_of_list_ascii_of_string. Qed.

Lemma dropWhite_split (l : list ascii) :
  exists w, l = w ++ Js.dropWhite l /\ Forall (fun c => Js.isWhite c = true) w.
Proof.
  induction l as [|c l (w & Hl & Hw)]; cbn [Js.dropWhite].
  - exists []. split; [reflexivity | constructor].
  - destruct (Js.isWhite c) eqn:Hc.
    + exists (c :: w). split; [cbn; congruence | constructor; assumption].
    + exists []. split; [reflexivity | constructor].
Qed.

Lemma dropWhite_white (w rest : list ascii) :
  Forall (fun c => Js.isWhite c = true) w ->
  Js.dropWhite (w ++ rest) = Js.dropWhite rest.
Proof.
  induction 1 as [|c w Hc _ IH]; [reflexivity|].
  cbn [app Js.dropWhite]. rewrite Hc. exact IH.
Qed.

(** No white space character is lowered to a letter of the word yes. *)
Lemma white_not_yes (c : ascii) :
  Js.isWhite c = true -> In (Js.lowerChar c) (Js.chars "yes") -> False.
Proof.
  destruct c as [[] [] [] [] [] [] [] []]; vm_compute;
    intros Hw Hin; try discriminate;
    repeat (destruct Hin as [Hin | Hin]; [discriminate|]); exact Hin.
Qed.

Lemma trimChars_yes (l : list ascii) :
  map Js.lowerChar (Js.trimChars l) = Js.chars "yes"
  <-> exists before word after,
        l = before ++ word ++ after
        /\ Forall (fun c => Js.isWhite c = true) before
        /\ Forall (fun c => Js.isWhite c = true) after
        /\ map Js.lowerChar word = Js.chars "yes".
Proof.
  unfold Js.trimChars. split.
  - intros Hyes.
    destruct (dropWhite_split l) as (before & Hl & Hbefore).
    destruct (dropWhite_split (rev (Js.dropWhite l))) as (w & Hrev & Hw).
    exists before, (rev (Js.dropWhite (rev (Js.dropWhite l)))), (rev w).
    repeat split; try assumption.
    + rewrite <- rev_app_distr, <- Hrev, rev_involutive. exact Hl.
    + apply Forall_rev. exact Hw.
  - intros (before & word & after & -> & Hbefore & Hafter & Hword).
    destruct word as [|c1 [|c2 [|c3 [|c4 word]]]]; try discriminate.
    cbn [map Js.chars list_ascii_of_string] in Hword.
    injection Hword as H1 H2 H3.
    assert (N1 : Js.isWhite c1 = false).
    { destruct (Js.isWhite c1) eqn:E; [|reflexivity].
      exfalso. apply (white_not_yes c1 E). rewrite H1. cbn. auto. }
    assert (N3 : Js.isWhite c3 = false).
    { destruct (Js.isWhite c3) eqn:E; [|reflexivity].
      exfalso. apply (white_not_yes c3 E). rewrite H3. cbn. auto. }
    rewrite dropWhite_white by assumption.
    cbn [app Js.dropWhite]. rewrite N1.
    cbn [rev]. rewrite <- !app_assoc. cbn [app].
    rewrite dropWhite_white by (apply Forall_rev; assumption).
    cbn [Js.dropWhite]. rewrite N3. cbn [rev app map].
    rewrite H1, H2, H3. reflexivity.
Qed.

(** The confirmation test accepts exactly the word yes, in any letter case,
    with any white space before and after it. *)
Lemma confirmed_spec (answer : string) :
  confirmed answer = true <-> isYes answer.
Proof.
  unfold confirmed, isYes, Js.toLowerCase, Js.trim.
  rewrite String.eqb_eq, chars_str, <- trimChars_yes. split.
  - intros H. rewrite <- H. rewrite chars_str. reflexivity.
  - intros H. rewrite H. apply str_chars.
Qed.

(** ** The runner *)

Section RunnerFacts.

Variable World : Type.
Variable mathRandom : World -> Js.num * World.
Variable newWallet : string -> Res Address.
Variable parseUnits : Js.NumStr -> nat -> Res Z.
Variable submit : TxRequest -> World -> Res string * World.

Local Abbreviation executeEntry :=
  (executeEntry World mathRandom newWallet parseUnits submit).
Local Abbreviation executeTransfers :=
  (executeTransfers World mathRandom newWallet parseUnits submit).

Lemma randomDelay_run (cfg : Config) (s : State World) :
  exists ms w,
    randomDelay World mathRandom cfg s
    = (Ok tt, {| world := w; trace := trace s ++ [EvSleep ms] |}).
Proof.
  unfold randomDelay, bind, random, emit.
  destruct (mathRandom (world s)) as [r w]. cbn [world trace].
  eexists _, _. reflexivity.
Qed.

(** A run of [withRetry] under the defaults: it comes back with a value or
    an error after between one and four calls. *)
Lemma withRetry_default_run (A : Type) (fn : World -> Res A * World)
    (s : State World) :
  exists attempts r w,
    withRetry fn defaultMaxRetries defaultDelay s
    = (r, {| world := w; trace := trace s ++ attempts |})
    /\ Forall isAttemptEvent attempts
    /\ (1 <= invocations attempts <= 4)%nat.
Proof.
  destruct (retryLoop_shape World A fn defaultMaxRetries defaultDelay
              (Z.to_nat (defaultMaxRetries + 1)) 0 s eq_refl)
    as (n & Hn & Hpos & Htr).
  fold (withRetry fn defaultMaxRetries defaultDelay) in Htr.
  destruct (withRetry fn defaultMaxRetries defaultDelay s) as [r [w tr]].
  cbn [snd trace] in Htr. subst tr.
  exists (attemptEvents defaultDelay 0 n), r, w.
  split; [reflexivity|]. split; [apply attemptEvents_attempts|].
  rewrite attemptEvents_invocations.
  change (Z.to_nat (defaultMaxRetries + 1)) with 4%nat in Hn.
  split; [apply Hpos; unfold defaultMaxRetries; lia | exact Hn].
Qed.

(** One iteration of the runner whose transaction can be built: whatever the
    submission does, the iteration comes back, having recorded one outcome
    and then waited. *)
Lemma executeEntry_run (cfg : Config) (p : PlannedTransfer) (s : State World)
    (a : Address) (value : Z) (ov : Overrides) :
  newWallet (privateKey p) = Ok a ->
  formatAmount parseUnits (amount p) (decimals cfg) = Ok value ->
  buildOverrides parseUnits cfg = Ok ov ->
  exists block w,
    executeEntry cfg p s
    = (Ok tt, {| world := w; trace := trace s ++ block |})
    /\ entryBlock p block.
Proof.
  intros Hwallet Hvalue Hov.
  unfold executeEntry, bind, lift, tryCatch.
  rewrite Hwallet, Hvalue, Hov.
  match goal with
  | |- context [withRetry ?fn _ _ s] =>
      destruct (withRetry_default_run string fn s)
        as (attempts & r & w & -> & Hatt & Hinv)
  end.
  destruct r as [[hash|]|e]; cbn [hashOf bind ret throw emit world trace].
  all: match goal with
       | |- context [randomDelay _ _ _ ?st] =>
           destruct (randomDelay_run cfg st) as (ms & w' & ->)
       end.
  all: cbn [world trace]; rewrite <- !app_assoc; cbn [app].
  all: eexists _, w'; (split; [reflexivity|]).
  all: exists attempts; eexists _, ms; (split; [reflexivity|]).
  all: split; [exact Hatt|]; split; [apply Hinv|].
  - left. eexists. reflexivity.
  - right. eexists. reflexivity.
  - right. eexists. reflexivity.
Qed.

(** A run of the runner on a plan whose transactions can all be built: it
    comes back, and its events are one block per planned transfer, in the
    order of the plan. *)
Lemma executeTransfers_run (cfg : Config) (ov : Overrides)
    (plan : list PlannedTransfer) :
  buildOverrides parseUnits cfg = Ok ov ->
  Forall (fun p => (exists a, newWallet (privateKey p) = Ok a)
                   /\ (exists value,
                         formatAmount parseUnits (amount p) (decimals cfg) = Ok value))
         plan ->
  forall s,
  exists blocks w,
    executeTransfers cfg plan s
    = (Ok tt, {| world := w; trace := trace s ++ List.concat blocks |})
    /\ Forall2 entryBlock plan blocks.
Proof.
  intros Hov Hplan. induction Hplan as [|p rest [[a Ha] [value Hv]] _ IH]; intros s.
  - exists [], (world s). cbn. rewrite app_nil_r. destruct s; split; [reflexivity | constructor].
  - cbn [executeTransfers]. unfold bind.
    destruct (executeEntry_run cfg p s a value ov Ha Hv Hov) as (block & w & -> & Hblock).
    destruct (IH {| world := w; trace := trace s ++ block |})
      as (blocks & w' & -> & Hblocks).
    exists (block :: blocks), w'. cbn [trace List.concat]. rewrite <- app_assoc.
    split; [reflexivity | constructor; assumption].
Qed.

(** A planned transfer whose amount [parseUnits] refuses ends the run: the
    error leaves the loop, no outcome is recorded for that transfer, and the
    transfers after it are not attempted. *)
Lemma executeTransfers_aborts (cfg : Config) (p : PlannedTransfer)
    (rest : list PlannedTransfer) (s : State World) (a : Address) (e : JsError) :
  newWallet (privateKey p) = Ok a ->
  formatAmount parseUnits (amount p) (decimals cfg) = Throw e ->
  executeTransfers cfg (p :: rest) s = (Throw e, s).
Proof.
  intros Hwallet Hvalue.
  cbn [executeTransfers]. unfold bind, executeEntry, bind, lift.
  rewrite Hwallet, Hvalue. reflexivity.
Qed.

Lemma outcomes_app (xs ys : list Event) :
  outcomes (xs ++ ys) = outcomes xs ++ outcomes ys.
Proof.
  induction xs as [|x xs IH]; [reflexivity|].
  destruct x; cbn [app outcomes]; rewrite IH; reflexivity.
Qed.

Lemma sleeps_app (xs ys : list Event) :
  sleeps (xs ++ ys) = sleeps xs ++ sleeps ys.
Proof.
  induction xs as [|x xs IH]; [reflexivity|].
  destruct x; cbn [app sleeps]; rewrite IH; reflexivity.
Qed.

Lemma attempts_silent (attempts : list Event) :
  Forall isAttemptEvent attempts ->
  outcomes attempts = [] /\ sleeps attempts = [].
Proof.
  induction 1 as [|ev attempts Hev _ [IHo IHs]]; [split; reflexivity|].
  destruct ev; cbn in Hev; try contradiction; cbn [outcomes sleeps]; auto.
Qed.

(** A block holds exactly one outcome, that of its transfer, and one wait. *)
Lemma entryBlock_outcome (p : PlannedTransfer) (block : list Event) :
  entryBlock p block ->
  exists line ms,
    outcomes block = [line] /\ outcomeOf p line /\ sleeps block = [ms].
Proof.
  intros (attempts & ev & ms & -> & Hatt & _ & Hev).
  destruct (attempts_silent attempts Hatt) as [Ho Hs].
  rewrite outcomes_app, sleeps_app, Ho, Hs. cbn [app].
  destruct Hev as [[hash ->] | [msg ->]]; cbn [outcomes sleeps];
    eexists _, ms; (split; [reflexivity|]); (split; [|reflexivity]).
  - left. eexists. reflexivity.
  - right. eexists. reflexivity.
Qed.

Lemma blocks_outcomes (plan : list PlannedTransfer) (blocks : list (list Event)) :
  Forall2 entryBlock plan blocks ->
  Forall2 outcomeOf plan (outcomes (List.concat blocks))
  /\ List.length (sleeps (List.concat blocks)) = List.length plan.
Proof.
  induction 1 as [|p block plan blocks Hblock _ [IHo IHs]];
    [split; [constructor | reflexivity]|].
  destruct (entryBlock_outcome p block Hblock) as (line & ms & Ho & Hline & Hs).
  cbn [List.concat]. rewrite outcomes_app, sleeps_app, Ho, Hs. cbn [app List.length].
  split; [constructor; assumption | congruence].
Qed.

End RunnerFacts.

(** C5.  The try block of the runner starts after the wallet is built and the
    amount is converted (lines 154-155), so an amount that [parseUnits]
    refuses is not a recorded failure: it ends the run.  Here half of a
    balance of 1.234567 of a token with six decimals is 0.6172835, which has
    seven decimals; the planner accepts it, and the runner, after sending the
    first planned transfer, throws on the second one, records no outcome for
    it and waits no delay. *)
Theorem runner_stops_on_refused_amount :
  Sim.main Sim.halfOfToken ["k2:d2"; "k1:d1"] "yes"
    (Sim.start (Sim.tokenChain [Ok "0xh1"; Ok "0xh2"]))
  = (Throw {| code := StrCode "NUMERIC_FAULT";
              message := Some "fractional component exceeds decimals" |},
     {| world := Sim.tokenChain [Ok "0xh2"];
        trace :=
          [EvWritePreview
             [HeaderLine;
              EntryLine 1 "0xk2" (Js.StrFixed false 2000000 6) "d2" "USDT"
                        (Js.StrFixed false 1000000 6) None;
              EntryLine 2 "0xk1" (Js.StrFixed false 1234567 6) "d1" "USDT"
                        (Js.StrFixed false 617283 6) None];
           EvInvoke;
           EvAppendSuccess (SuccessLine "0xk2" "d2" 1%float "0xh1");
           EvSleep 1000%float] |})
  /\ fst (Sim.previewTransfers Sim.halfOfToken ["k2:d2"; "k1:d1"]
            (Sim.start (Sim.tokenChain [Ok "0xh1"; Ok "0xh2"])))
     = Ok ([{| privateKey := "k2"; from := "0xk2"; to := "d2"; amount := 1%float |};
            {| privateKey := "k1"; from := "0xk1"; to := "d1";
               amount := (Js.parseFloat (Js.StrFixed false 1234567 6) * 0.5)%float |}],
           []).
Proof. split; vm_compute; reflexivity. Qed.

(** ** The main flow *)

Section MainFacts.

Variable World : Type.
Variable mathRandom : World -> Js.num * World.
Variable newWallet : string -> Res Address.
Variable getBalance : Address -> World -> Res Z * World.
Variable balanceOf : string -> Address -> World -> Res Z * World.
Variable parseUnits : Js.NumStr -> nat -> Res Z.
Variable submit : TxRequest -> World -> Res string * World.

Local Abbreviation previewTransfers :=
  (previewTransfers World mathRandom newWallet getBalance balanceOf).
Local Abbreviation executeTransfers :=
  (executeTransfers World mathRandom newWallet parseUnits submit).
Local Abbreviation main :=
  (main World mathRandom newWallet getBalance balanceOf parseUnits submit).

(** C9, as the code has it.  At the confirmation prompt the answer is
    trimmed and lowered before it is compared: the plan is executed exactly
    when the answer is the word yes in any letter case, with any white space
    before and after it; on any other answer the run ends where planning left
    it, with no transfer executed. *)
Theorem confirmation_rule (cfg : Config) (rawLines : list string)
    (answer : string) (s s1 : State World) (plan : list PlannedTransfer)
    (skippedLines : list ReportLine) :
  previewTransfers cfg rawLines s = (Ok (plan, skippedLines), s1) ->
  plan <> [] ->
  (confirmed answer = true <-> isYes answer)
  /\ (isYes answer ->
      main cfg rawLines answer s
      = (executeTransfers cfg plan ;;; ret Executed) s1)
  /\ (~ isYes answer -> main cfg rawLines answer s = (Ok Cancelled, s1)).
Proof.
  intros Hplan Hne. split; [apply confirmed_spec|].
  destruct plan as [|p plan]; [congruence|].
  split; intros Hyes; unfold main; unfold bind at 1; rewrite Hplan.
  - apply confirmed_spec in Hyes. rewrite Hyes. reflexivity.
  - destruct (confirmed answer) eqn:Hc; [|reflexivity].
    exfalso. apply Hyes, confirmed_spec, Hc.
Qed.

End MainFacts.

(** An answer with a space before the word is not the word itself, yet it
    confirms: the plan is executed. *)
Lemma confirmation_rule_counterexample :
  exactlyYes " yes" = false
  /\ Sim.main Sim.fixedOne ["k1:d1"] " yes" (Sim.start (Sim.chain [] [Ok "0xh1"]))
     = (Ok Executed,
        {| world := Sim.chain [] [];
           trace :=
             [EvWritePreview
                [HeaderLine;
                 EntryLine 1 "0xk1" (Js.StrFixed false 5000000 6) "d1" "Native"
                           (Js.StrFixed false 1000000 6) None];
              EvInvoke;
              EvAppendSuccess (SuccessLine "0xk1" "d1" 1%float "0xh1");
              EvSleep 1000%float] |}).
Proof. split; vm_compute; reflexivity. Qed.

Lemma confirmation_rule_witness :
  isYes " YeS " /\
  Sim.main Sim.fixedOne ["k1:d1"] " YeS " (Sim.start (Sim.chain [] [Ok "0xh1"]))
  = (Sim.executeTransfers Sim.fixedOne
       [{| privateKey := "k1"; from := "0xk1"; to := "d1"; amount := 1%float |}]
     ;;; ret Executed)
      {| world := Sim.chain [] [Ok "0xh1"];
         trace :=
           [EvWritePreview
              [HeaderLine;
               EntryLine 1 "0xk1" (Js.StrFixed false 5000000 6) "d1" "Native"
                         (Js.StrFixed false 1000000 6) None]] |}.
Proof.
  destruct (confirmation_rule Sim.World Sim.mathRandom Sim.newWallet
              Sim.getBalance Sim.balanceOf Sim.parseUnits Sim.submit
              Sim.fixedOne ["k1:d1"] " YeS "
              (Sim.start (Sim.chain [] [Ok "0xh1"]))
              {| world := Sim.chain [] [Ok "0xh1"];
                 trace :=
                   [EvWritePreview
                      [HeaderLine;
                       EntryLine 1 "0xk1" (Js.StrFixed false 5000000 6) "d1" "Native"
                                 (Js.StrFixed false 1000000 6) None]] |}
              [{| privateKey := "k1"; from := "0xk1"; to := "d1"; amount := 1%float |}]
              [] eq_refl ltac:(discriminate))
    as (Hiff & Hrun & _).
  assert (Hyes : isYes " YeS ") by (apply Hiff; reflexivity).
  split; [exact Hyes | exact (Hrun Hyes)].
Defined.

(** ** The ledger of the planner *)

Section LedgerFacts.

Variable World : Type.
Variable mathRandom : World -> Js.num * World.
Variable newWallet : string -> Res Address.
Variable getBalance : Address -> World -> Res Z * World.
Variable balanceOf : string -> Address -> World -> Res Z * World.

Local Abbreviation computeAmount := (computeAmount World mathRandom).
Local Abbreviation queryBalance := (queryBalance World getBalance balanceOf).
Local Abbreviation planEntry :=
  (planEntry World mathRandom newWallet getBalance balanceOf).
Local Abbreviation planLoop :=
  (planLoop World mathRandom newWallet getBalance balanceOf).
Local Abbreviation previewTransfers :=
  (previewTransfers World mathRandom newWallet getBalance balanceOf).
Local Abbreviation entryRan :=
  (entryRun World mathRandom newWallet getBalance balanceOf).
Local Abbreviation plannerRan :=
  (plannerRun World mathRandom newWallet getBalance balanceOf).

(** An iteration that goes through has one outcome, and adds to the three
    lists what the ledger says for that outcome. *)
Lemma planEntry_ledger (cfg : Config) (i : Z) (line : string)
    (acc acc' : PlanState) (s s' : State World) :
  planEntry cfg i line acc s = (Ok acc', s') ->
  exists o,
    entryRan cfg line s o s'
    /\ result acc' = result acc ++ plannedEntries cfg [o]
    /\ previewLines acc' = previewLines acc ++ previewEntries cfg i [o]
    /\ skipped acc' = skipped acc ++ skippedEntries cfg i [o].
Proof.
  unfold planEntry, bind, lift, tryCatch.
  destruct (newWallet _) as [fromAddr | e] eqn:Hwallet; [|discriminate].
  destruct (queryBalance cfg fromAddr s) as [[balanceRaw | e] s1] eqn:Hquery.
  - cbn [ret].
    destruct (computeAmount cfg _ s1) as [[amount | e] s2] eqn:Hamount; [|discriminate].
    intros H.
    destruct (nth_error (Js.split ":" line) 1) as [field|] eqn:Hfield.
    + exists (Recorded (nth 0 (Js.split ":" line) "") fromAddr balanceRaw
                (Js.trim field) amount).
      split.
      { cbn [entryRun]. split; [reflexivity|].
        split; [exists field; split; [exact Hfield | reflexivity]|]. split; [exact Hwallet|].
        exists s1. split; [exact Hquery|].
        destruct (_ <=? 0)%float;
          [| destruct ((amount <=? 0)%float || (_ <? amount)%float)];
          cbn [trimTo bind ret throw] in H; injection H as _ <-; exact Hamount. }
      cbn [plannedEntries previewEntries skippedEntries].
      unfold validate, balanceOfEntry, entryLine.
      destruct (_ <=? 0)%float;
        [| destruct ((amount <=? 0)%float || (_ <? amount)%float)];
        cbn [trimTo bind ret throw] in H; injection H as <- _;
        cbn [result previewLines skipped]; rewrite ?app_nil_r; auto.
    + exfalso.
      destruct (_ <=? 0)%float;
        [| destruct ((amount <=? 0)%float || (_ <? amount)%float)];
        cbn [trimTo bind ret throw] in H; discriminate.
  - cbn [emit bind ret]. intros H. injection H as <- <-.
    exists (QueryFailed fromAddr). split.
    + cbn [entryRun]. split; [exact Hwallet|].
      exists e, s1. split; [exact Hquery | reflexivity].
    + cbn [plannedEntries previewEntries skippedEntries]. rewrite !app_nil_r. auto.
Qed.

Lemma plannedEntries_cons (cfg : Config) (o : EntryOutcome) (rest : list EntryOutcome) :
  plannedEntries cfg (o :: rest) = plannedEntries cfg [o] ++ plannedEntries cfg rest.
Proof.
  destruct o as [a | key a raw t amount]; cbn [plannedEntries]; [reflexivity|].
  destruct (validate _ _); reflexivity.
Qed.

Lemma previewEntries_cons (cfg : Config) (i : Z) (o : EntryOutcome)
    (rest : list EntryOutcome) :
  previewEntries cfg i (o :: rest)
  = previewEntries cfg i [o] ++ previewEntries cfg (i + 1) rest.
Proof.
  destruct o as [a | key a raw t amount]; cbn [previewEntries]; [reflexivity|].
  destruct (validate _ _); reflexivity.
Qed.

Lemma skippedEntries_cons (cfg : Config) (i : Z) (o : EntryOutcome)
    (rest : list EntryOutcome) :
  skippedEntries cfg i (o :: rest)
  = skippedEntries cfg i [o] ++ skippedEntries cfg (i + 1) rest.
Proof.
  destruct o as [a | key a raw t amount]; cbn [skippedEntries]; [reflexivity|].
  destruct (validate _ _); reflexivity.
Qed.

(** A run of the loop that goes through has a ledger, one outcome per line,
    and adds to the three lists what the ledger says. *)
Lemma planLoop_ledger (cfg : Config) (lines : list string) :
  forall (i : Z) (acc acc' : PlanState) (s s' : State World),
    planLoop cfg i lines acc s = (Ok acc', s') ->
    exists outcomes,
      plannerRan cfg lines s outcomes s'
      /\ result acc' = result acc ++ plannedEntries cfg outcomes
      /\ previewLines acc' = previewLines acc ++ previewEntries cfg i outcomes
      /\ skipped acc' = skipped acc ++ skippedEntries cfg i outcomes.
Proof.
  induction lines as [|line rest IH]; intros i acc acc' s s' Hrun.
  - cbn in Hrun. injection Hrun as <- <-. exists [].
    cbn. rewrite !app_nil_r. auto.
  - cbn [planLoop] in Hrun. unfold bind in Hrun.
    destruct (planEntry cfg i line acc s) as [[acc1 | e] s1] eqn:Hentry;
      [|discriminate].
    destruct (planEntry_ledger cfg i line acc acc1 s s1 Hentry)
      as (o & Ho & Hres & Hpre & Hskip).
    destruct (IH _ _ _ _ _ Hrun) as (others & Hrest & Hres' & Hpre' & Hskip').
    exists (o :: others). split.
    + cbn [plannerRun]. exists s1. split; assumption.
    + rewrite plannedEntries_cons, previewEntries_cons, skippedEntries_cons.
      rewrite Hres', Hpre', Hskip', Hres, Hpre, Hskip, <- !app_assoc. auto.
Qed.

(** A run of the planner that comes back has a ledger; the plan, the skipped
    list and the preview it writes are those of the ledger. *)
Lemma previewTransfers_ledger (cfg : Config) (rawLines : list string)
    (s s' : State World) (plan : list PlannedTransfer)
    (skippedLines : list ReportLine) :
  previewTransfers cfg rawLines s = (Ok (plan, skippedLines), s') ->
  exists outcomes s0,
    plannerRan cfg (nonBlankLines rawLines) s outcomes s0
    /\ plan = plannedEntries cfg outcomes
    /\ skippedLines = skippedEntries cfg 0 outcomes
    /\ s' = {| world := world s0;
               trace := trace s0
                        ++ [EvWritePreview (HeaderLine :: previewEntries cfg 0 outcomes)] |}.
Proof.
  unfold previewTransfers, bind. intros Hrun.
  destruct (planLoop cfg 0 (nonBlankLines rawLines) initialPlan s)
    as [[final | e] s0] eqn:Hloop; [|discriminate].
  cbn [emit ret] in Hrun. injection Hrun as <- <- <-.
  destruct (planLoop_ledger cfg _ _ _ _ _ _ Hloop)
    as (outcomes & Hledger & Hres & Hpre & Hskip).
  exists outcomes, s0. cbn [initialPlan result previewLines skipped app] in *.
  rewrite Hpre. auto.
Qed.

(** The loop records the failed balance queries of its ledger, and nothing
    else. *)
Lemma plannerRun_trace (cfg : Config) (lines : list string) :
  forall (s s' : State World) (outcomes : list EntryOutcome),
    plannerRan cfg lines s outcomes s' ->
    trace s' = trace s ++ failedQueries outcomes.
Proof.
  induction lines as [|line rest IH]; intros s s' [|o others] Hrun;
    cbn [plannerRun] in Hrun; try contradiction.
  - subst s'. cbn. rewrite app_nil_r. reflexivity.
  - destruct Hrun as (s1 & Hentry & Hrest).
    rewrite (IH _ _ _ Hrest).
    destruct o as [fromAddr | key fromAddr balanceRaw toText amount];
      cbn [entryRun failedQueries] in *.
    + destruct Hentry as (_ & e & s0 & Hquery & ->). cbn [trace].
      pose proof (queryBalance_trace World getBalance balanceOf cfg fromAddr s) as Hq.
      rewrite Hquery in Hq. cbn [snd] in Hq. rewrite Hq, <- app_assoc. reflexivity.
    + destruct Hentry as (_ & _ & _ & s0 & Hquery & Hamount).
      pose proof (queryBalance_trace World getBalance balanceOf cfg fromAddr s) as Hq.
      rewrite Hquery in Hq. cbn [snd] in Hq.
      pose proof (computeAmount_trace World mathRandom cfg
                    (balanceOfEntry cfg balanceRaw) s0) as Ha.
      rewrite Hamount in Ha. cbn [snd] in Ha. congruence.
Qed.

(** The preview has one line per planned transfer, in the order of the plan,
    each with the addresses and the amount of its transfer. *)
Lemma previewEntries_plan (cfg : Config) (outcomes : list EntryOutcome) :
  forall i,
    Forall2 (fun p line => exists b, previewOf p b line)
      (plannedEntries cfg outcomes) (previewEntries cfg i outcomes).
Proof.
  induction outcomes as [|o rest IH]; intros i; [constructor|].
  destruct o as [fromAddr | key fromAddr balanceRaw toText amount];
    cbn [plannedEntries previewEntries]; [apply IH|].
  destruct (validate _ _); [apply IH|].
  constructor; [|apply IH].
  eexists. unfold previewOf, entryLine. eexists _, _, _. split; reflexivity.
Qed.

(** The skipped list holds skip lines only. *)
Lemma skippedEntries_reasons (cfg : Config) (outcomes : list EntryOutcome) :
  forall i, Forall isSkipLine (skippedEntries cfg i outcomes).
Proof.
  induction outcomes as [|o rest IH]; intros i; [constructor|].
  destruct o as [fromAddr | key fromAddr balanceRaw toText amount];
    cbn [skippedEntries]; [apply IH|].
  destruct (validate _ _); [|apply IH].
  constructor; [exact I | apply IH].
Qed.

End LedgerFacts.

Section RunnerEvents.

Variable World : Type.
Variable mathRandom : World -> Js.num * World.
Variable newWallet : string -> Res Address.
Variable parseUnits : Js.NumStr -> nat -> Res Z.
Variable submit : TxRequest -> World -> Res string * World.

Local Abbreviation executeEntry :=
  (executeEntry World mathRandom newWallet parseUnits submit).
Local Abbreviation executeTransfers :=
  (executeTransfers World mathRandom newWallet parseUnits submit).

Lemma attempts_not_skipped (attempts : list Event) :
  Forall isAttemptEvent attempts -> Forall (fun ev => ~ isWriteSkipped ev) attempts.
Proof.
  intros H. eapply Forall_impl; [|exact H].
  intros ev Hev Hw. destruct ev; cbn in Hev, Hw; contradiction.
Qed.

(** Whatever an iteration of the runner does, it does not write the skipped
    list. *)
Lemma executeEntry_events (cfg : Config) (p : PlannedTransfer) (s : State World) :
  exists evs,
    trace (snd (executeEntry cfg p s)) = trace s ++ evs
    /\ Forall (fun ev => ~ isWriteSkipped ev) evs.
Proof.
  unfold executeEntry, bind, lift, tryCatch.
  destruct (newWallet (privateKey p)) as [a | e];
    [| exists []; rewrite app_nil_r; split; [reflexivity | constructor]].
  destruct (formatAmount parseUnits (amount p) (decimals cfg)) as [value | e];
    [| exists []; rewrite app_nil_r; split; [reflexivity | constructor]].
  destruct (buildOverrides parseUnits cfg) as [ov | e];
    [| exists []; rewrite app_nil_r; split; [reflexivity | constructor]].
  match goal with
  | |- context [withRetry ?fn _ _ s] =>
      destruct (withRetry_default_run World string fn s)
        as (attempts & r & w & -> & Hatt & _)
  end.
  destruct r as [[hash|]|e]; cbn [hashOf bind ret throw emit world trace].
  all: match goal with
       | |- context [randomDelay _ _ _ ?st] =>
           destruct (randomDelay_run World mathRandom cfg st) as (ms & w' & ->)
       end.
  all: cbn [snd world trace]; rewrite <- !app_assoc; cbn [app].
  all: eexists; (split; [reflexivity|]).
  all: apply Forall_app; split; [apply attempts_not_skipped, Hatt|].
  all: repeat constructor; intros Hw; exact Hw.
Qed.

Lemma executeTransfers_events (cfg : Config) (plan : list PlannedTransfer) :
  forall s : State World,
  exists evs,
    trace (snd (executeTransfers cfg plan s)) = trace s ++ evs
    /\ Forall (fun ev => ~ isWriteSkipped ev) evs.
Proof.
  induction plan as [|p rest IH]; intros s.
  - exists []. cbn. rewrite app_nil_r. split; [reflexivity | constructor].
  - cbn [executeTransfers]. unfold bind.
    destruct (executeEntry_events cfg p s) as (evs1 & Htr1 & Hall1).
    destruct (executeEntry cfg p s) as [[[] | e] s1]; cbn [snd] in Htr1.
    + destruct (IH s1) as (evs2 & Htr2 & Hall2).
      exists (evs1 ++ evs2). rewrite Htr2, Htr1, <- app_assoc.
      split; [reflexivity | apply Forall_app; split; assumption].
    + exists evs1. split; [exact Htr1 | exact Hall1].
Qed.

End RunnerEvents.

Section PreviewClaims.

Variable World : Type.
Variable mathRandom : World -> Js.num * World.
Variable newWallet : string -> Res Address.
Variable getBalance : Address -> World -> Res Z * World.
Variable balanceOf : string -> Address -> World -> Res Z * World.
Variable parseUnits : Js.NumStr -> nat -> Res Z.
Variable submit : TxRequest -> World -> Res string * World.

Local Abbreviation previewTransfers :=
  (previewTransfers World mathRandom newWallet getBalance balanceOf).
Local Abbreviation executeTransfers :=
  (executeTransfers World mathRandom newWallet parseUnits submit).
Local Abbreviation main :=
  (main World mathRandom newWallet getBalance balanceOf parseUnits submit).
Local Abbreviation plannerRan :=
  (plannerRun World mathRandom newWallet getBalance balanceOf).

(** C6, as the code has it.  A run of the planner that comes back has dealt
    with every non-blank line in one of three ways, which its ledger records
    with the balance read and the amount computed for the line.  The preview
    report is the header followed by one line for each entry accepted into
    the plan, in the order of the plan, with the addresses and the amount of
    the entry.  A skipped entry gets its line, with its computed amount and
    its reason, on the skipped list only, and an entry whose balance query
    failed gets no line.  The skipped list is written to its file only when
    the plan is empty: with a plan that is not empty the main flow, whatever
    the answer at the prompt, never writes it. *)
Theorem preview_lists_accepted (cfg : Config) (rawLines : list string)
    (answer : string) (s s1 : State World) (plan : list PlannedTransfer)
    (skippedLines : list ReportLine) :
  previewTransfers cfg rawLines s = (Ok (plan, skippedLines), s1) ->
  exists outcomes s0 rest,
    plannerRan cfg (nonBlankLines rawLines) s outcomes s0
    /\ plan = plannedEntries cfg outcomes
    /\ skippedLines = skippedEntries cfg 0 outcomes
    /\ trace s1
       = trace s ++ failedQueries outcomes
         ++ [EvWritePreview (HeaderLine :: previewEntries cfg 0 outcomes)]
    /\ Forall2 (fun p line => exists b, previewOf p b line)
         plan (previewEntries cfg 0 outcomes)
    /\ Forall isSkipLine skippedLines
    /\ trace (snd (main cfg rawLines answer s)) = trace s1 ++ rest
    /\ (plan = [] -> rest = [EvWriteSkipped skippedLines])
    /\ (plan <> [] -> Forall (fun ev => ~ isWriteSkipped ev) rest).
Proof.
  intros Hrun.
  destruct (previewTransfers_ledger World mathRandom newWallet getBalance balanceOf
              cfg rawLines s s1 plan skippedLines Hrun)
    as (outcomes & s0 & Hledger & Hplan & Hskip & Hs1).
  pose proof (plannerRun_trace World mathRandom newWallet getBalance balanceOf
                cfg _ _ _ _ Hledger) as Htr.
  assert (Hrest : exists rest,
             trace (snd (main cfg rawLines answer s)) = trace s1 ++ rest
             /\ (plan = [] -> rest = [EvWriteSkipped skippedLines])
             /\ (plan <> [] -> Forall (fun ev => ~ isWriteSkipped ev) rest)).
  { unfold main. unfold bind at 1. rewrite Hrun.
    destruct plan as [|p plan'].
    - exists [EvWriteSkipped skippedLines]. cbn. split; [reflexivity|].
      split; [reflexivity | congruence].
    - destruct (confirmed answer).
      + destruct (executeTransfers_events World mathRandom newWallet parseUnits submit
                    cfg (p :: plan') s1) as (evs & Hevs & Hall).
        exists evs. unfold bind.
        destruct (executeTransfers cfg (p :: plan') s1) as [[[] | e] s2];
          cbn [snd ret] in *; (split; [exact Hevs|]);
          (split; [discriminate | intros _; exact Hall]).
      + exists []. cbn. rewrite app_nil_r. split; [reflexivity|].
        split; [discriminate | constructor]. }
  destruct Hrest as (rest & Hmain & Hempty & Hfull).
  exists outcomes, s0, rest.
  split; [exact Hledger|]. split; [exact Hplan|]. split; [exact Hskip|].
  split; [rewrite Hs1; cbn [trace]; rewrite Htr, <- app_assoc; reflexivity|].
  split; [rewrite Hplan; apply previewEntries_plan|].
  split; [rewrite Hskip; apply skippedEntries_reasons|].
  split; [exact Hmain|]. split; assumption.
Qed.

End PreviewClaims.

(** An instance: of three lines, the first is planned, the second is
    skipped and the balance query of the third fails; the answer is yes. *)
Lemma preview_lists_accepted_witness :
  exists outcomes s0 rest,
    plannerRun Sim.World Sim.mathRandom Sim.newWallet Sim.getBalance Sim.balanceOf
      Sim.fixedOne (nonBlankLines ["k1:d1"; "k2:d2"; "k3:d3"])
      (Sim.start (Sim.chain [] [Ok "0xh1"])) outcomes s0
    /\ [{| privateKey := "k1"; from := "0xk1"; to := "d1"; amount := 1%float |}]
       = plannedEntries Sim.fixedOne outcomes
    /\ [EntryLine 2 "0xk2" (Js.StrFixed false 500000 6) "d2" "Native"
                  (Js.StrFixed false 1000000 6) (Some insufficient_balance)]
       = skippedEntries Sim.fixedOne 0 outcomes
    /\ trace {| world := Sim.chain [] [Ok "0xh1"];
                trace := [EvQueryFailed "0xk3";
                          EvWritePreview
                            [HeaderLine;
                             EntryLine 1 "0xk1" (Js.StrFixed false 5000000 6) "d1"
                                       "Native" (Js.StrFixed false 1000000 6) None]] |}
       = trace (Sim.start (Sim.chain [] [Ok "0xh1"])) ++ failedQueries outcomes
         ++ [EvWritePreview (HeaderLine :: previewEntries Sim.fixedOne 0 outcomes)]
    /\ Forall2 (fun p line => exists b, previewOf p b line)
         [{| privateKey := "k1"; from := "0xk1"; to := "d1"; amount := 1%float |}]
         (previewEntries Sim.fixedOne 0 outcomes)
    /\ Forall isSkipLine
         [EntryLine 2 "0xk2" (Js.StrFixed false 500000 6) "d2" "Native"
                    (Js.StrFixed false 1000000 6) (Some insufficient_balance)]
    /\ trace (snd (Sim.main Sim.fixedOne ["k1:d1"; "k2:d2"; "k3:d3"] "yes"
                     (Sim.start (Sim.chain [] [Ok "0xh1"]))))
       = trace {| world := Sim.chain [] [Ok "0xh1"];
                  trace := [EvQueryFailed "0xk3";
                            EvWritePreview
                              [HeaderLine;
                               EntryLine 1 "0xk1" (Js.StrFixed false 5000000 6) "d1"
                                         "Native" (Js.StrFixed false 1000000 6) None]] |}
         ++ rest
    /\ ([{| privateKey := "k1"; from := "0xk1"; to := "d1"; amount := 1%float |}] = []
        -> rest
           = [EvWriteSkipped
                [EntryLine 2 "0xk2" (Js.StrFixed false 500000 6) "d2" "Native"
                           (Js.StrFixed false 1000000 6) (Some insufficient_balance)]])
    /\ ([{| privateKey := "k1"; from := "0xk1"; to := "d1"; amount := 1%float |}] <> []
        -> Forall (fun ev => ~ isWriteSkipped ev) rest).
Proof.
  apply (preview_lists_accepted Sim.World Sim.mathRandom Sim.newWallet
           Sim.getBalance Sim.balanceOf Sim.parseUnits Sim.submit Sim.fixedOne
           ["k1:d1"; "k2:d2"; "k3:d3"] "yes" (Sim.start (Sim.chain [] [Ok "0xh1"]))).
  vm_compute. reflexivity.
Defined.

(** C10 as it is written fails where the amount is no number.  The
    validation skips an entry when [amount <= 0] or [amount > b], and both
    comparisons are false of NaN.  With [TRANSFER_FIXED] set to a text that
    [parseFloat] reads as NaN, the entry of an address that holds 5 coins is
    planned with the amount NaN and listed in the preview, although neither
    [0 < amount] nor [amount <= b] holds of it; on a confirmed run the
    runner then throws on that amount before anything is submitted. *)
Lemma planned_amounts_within_queried_balance_counterexample :
  Sim.previewTransfers (Sim.config "fixed" nan 0%float) ["k1:d1"]
    (Sim.start (Sim.chain [] [Ok "0xh1"]))
  = (Ok ([{| privateKey := "k1"; from := "0xk1"; to := "d1"; amount := nan |}], []),
     {| world := Sim.chain [] [Ok "0xh1"];
        trace := [EvWritePreview
                    [HeaderLine;
                     EntryLine 1 "0xk1" (Js.StrFixed false 5000000 6) "d1" "Native"
                               Js.StrNaN None]] |})
  /\ balanceOfEntry (Sim.config "fixed" nan 0%float) (5 * Sim.coin) = 5%float
  /\ validate 5%float nan = Accept
  /\ (0 <? nan)%float = false
  /\ (nan <=? 5)%float = false
  /\ Sim.main (Sim.config "fixed" nan 0%float) ["k1:d1"] "yes"
       (Sim.start (Sim.chain [] [Ok "0xh1"]))
     = (Throw {| code := StrCode "INVALID_ARGUMENT";
                 message := Some "invalid decimal value" |},
        {| world := Sim.chain [] [Ok "0xh1"];
           trace := [EvWritePreview
                       [HeaderLine;
                        EntryLine 1 "0xk1" (Js.StrFixed false 5000000 6) "d1" "Native"
                                  Js.StrNaN None]] |}).
Proof. repeat split; vm_compute; reflexivity. Qed.

(** ** Numbers: rounding

    The operations of [float] are specified by those of [SpecFloat]; the
    lemmas below follow the rounding of an exact positive value
    [x * 2^ex] to binary64 and show that it crosses no binary64 number. *)

Lemma digits2_pos_bounds (p : positive) :
  2 ^ (Zpos (digits2_pos p) - 1) <= Zpos p < 2 ^ Zpos (digits2_pos p).
Proof.
  induction p as [p IH | p IH |]; cbn [digits2_pos].
  - rewrite Pos2Z.inj_succ.
    replace (Z.succ (Zpos (digits2_pos p)) - 1) with (Z.succ (Zpos (digits2_pos p) - 1)) by lia.
    rewrite !Z.pow_succ_r by lia. lia.
  - rewrite Pos2Z.inj_succ.
    replace (Z.succ (Zpos (digits2_pos p)) - 1) with (Z.succ (Zpos (digits2_pos p) - 1)) by lia.
    rewrite !Z.pow_succ_r by lia. lia.
  - cbn. lia.
Qed.

Lemma iter_pos_iter {A} (f : A -> A) (n : positive) :
  forall x, iter_pos f n x = Pos.iter f x n.
Proof.
  induction n as [n IH | n IH |]; intros x; cbn [iter_pos Pos.iter].
  - rewrite !IH, <- !Pos.iter_swap. reflexivity.
  - rewrite !IH. reflexivity.
  - reflexivity.
Qed.

Lemma shr_1_nonneg (m : Z) (r s : bool) :
  0 <= m ->
  shr_1 (Build_shr_record m r s) = Build_shr_record (m / 2) (Z.odd m) (r || s).
Proof.
  intros Hm. rewrite <- Z.div2_div.
  destruct m as [|[p|p|]|p]; try lia; reflexivity.
Qed.

(** After [n] shifts of a record that starts exact. *)
Lemma shr_iter (m : Z) (n : positive) :
  0 <= m ->
  exists r s,
    Pos.iter shr_1 (Build_shr_record m false false) n
    = Build_shr_record (m / 2 ^ Zpos n) r s
    /\ (r || s = true -> m mod 2 ^ Zpos n <> 0).
Proof.
  intros Hm. induction n as [|n (r & s & Hn & Hflag)] using Pos.peano_ind.
  - exists (Z.odd m), false. cbn [Pos.iter]. rewrite shr_1_nonneg by exact Hm.
    split; [reflexivity|]. rewrite orb_false_r. intros Hodd.
    change (2 ^ 1) with 2. rewrite Zmod_odd, Hodd. discriminate.
  - exists (Z.odd (m / 2 ^ Zpos n)), (r || s).
    rewrite Pos.iter_succ, Hn, shr_1_nonneg by (apply Z.div_pos; lia).
    rewrite Pos2Z.inj_succ, Z.pow_succ_r, Z.div_div by lia.
    replace (2 ^ Zpos n * 2) with (2 * 2 ^ Zpos n) by lia.
    split; [reflexivity|].
    intros Hor Hmod. apply orb_true_iff in Hor.
    assert (Hp : 0 < 2 ^ Zpos n) by lia.
    apply Z.mod_divide in Hmod; [|lia]. destruct Hmod as [q Hq].
    destruct Hor as [Hodd | Hrs].
    + rewrite Hq in Hodd.
      replace (q * (2 * 2 ^ Zpos n)) with ((2 * q) * 2 ^ Zpos n) in Hodd by lia.
      rewrite Z.div_mul in Hodd by lia.
      rewrite Z.odd_mul in Hodd. discriminate.
    + apply Hflag; [exact Hrs|]. rewrite Hq.
      replace (q * (2 * 2 ^ Zpos n)) with ((2 * q) * 2 ^ Zpos n) by lia.
      apply Z.mod_mul. lia.
Qed.

Lemma fexp64 (e : Z) : fexp prec emax e = Z.max (e - 53) (-1074).
Proof. reflexivity. Qed.

Lemma Zdigits2_pos (m : Z) : 0 < m -> 2 ^ (Zdigits2 m - 1) <= m < 2 ^ Zdigits2 m.
Proof.
  destruct m as [|p|p]; try lia. intros _. apply digits2_pos_bounds.
Qed.

Lemma Zdigits2_le (m : Z) (k : Z) : 0 < m -> m < 2 ^ k -> 0 <= k -> Zdigits2 m <= k.
Proof.
  intros Hm Hlt Hk. destruct (Zdigits2_pos m Hm) as [Hlo _].
  destruct (Z_le_gt_dec (Zdigits2 m) k) as [|Hgt]; [assumption|].
  exfalso. assert (2 ^ k <= 2 ^ (Zdigits2 m - 1)) by (apply Z.pow_le_mono_r; lia). lia.
Qed.

Lemma Zdigits2_ge (m : Z) (k : Z) : 0 < m -> 2 ^ k <= m -> 0 <= k -> k + 1 <= Zdigits2 m.
Proof.
  intros Hm Hle Hk. destruct (Zdigits2_pos m Hm) as [_ Hhi].
  destruct (Z_le_gt_dec (k + 1) (Zdigits2 m)) as [|Hgt]; [assumption|].
  exfalso. assert (2 ^ Zdigits2 m <= 2 ^ k).
  { apply Z.pow_le_mono_r; try lia. }
  lia.
Qed.

Lemma Zdigits2_nonneg (m : Z) : 0 <= Zdigits2 m.
Proof. destruct m; cbn; lia. Qed.

Lemma finish_spec (m2 e1 : Z) :
  0 <= m2 <= 2 ^ 53 -> -1074 <= e1 ->
  (let '(mrs, e) := shr_fexp prec emax m2 e1 loc_Exact in
   match shr_m mrs with
   | Z0 => S754_zero false
   | Zpos m => if e <=? emax - prec then S754_finite false m e else S754_infinity false
   | Zneg _ => S754_nan
   end) = finish m2 e1.
Proof.
  intros Hm He. unfold finish, shr_fexp, shr_record_of_loc.
  destruct (Z.eqb_spec m2 0) as [-> | Hnz].
  { cbn [Zdigits2]. rewrite fexp64. unfold shr.
    destruct (Z.max (0 + e1 - 53) (-1074) - e1) eqn:E; try lia; reflexivity. }
  destruct (Z.eqb_spec m2 (2 ^ 53)) as [-> | Hne].
  { change (Zdigits2 (2 ^ 53)) with 54. rewrite fexp64.
    replace (Z.max (54 + e1 - 53) (-1074) - e1) with 1 by lia.
    cbn [shr iter_pos shr_1 shr_m]. change (emax - prec) with 971.
    cbn. reflexivity. }
  assert (Hd : Zdigits2 m2 <= 53) by (apply Zdigits2_le; lia).
  rewrite fexp64. unfold shr.
  destruct (Z.max (Zdigits2 m2 + e1 - 53) (-1074) - e1) eqn:E; try lia.
  - cbn [shr_m]. destruct m2; try lia. reflexivity.
  - cbn [shr_m]. destruct m2; try lia. reflexivity.
Qed.

(** Rounding an exact positive value [x * 2^ex]: the mantissa is shifted
    right by [n] places, rounded up or not, and normalised. *)
Lemma round_exact (x : positive) (ex : Z) :
  let n := Z.max (fexp prec emax (Zpos (digits2_pos x) + ex) - ex) 0 in
  exists m2,
    Zpos x / 2 ^ n <= m2 <= Zpos x / 2 ^ n + 1
    /\ (m2 = Zpos x / 2 ^ n + 1 -> Zpos x mod 2 ^ n <> 0)
    /\ Zpos x / 2 ^ n < 2 ^ 53
    /\ -1074 <= ex + n
    /\ binary_round_aux prec emax false (Zpos x) ex loc_Exact = finish m2 (ex + n).
Proof.
  intros n.
  pose proof (digits2_pos_bounds x) as [Hlo Hhi].
  set (d := Zpos (digits2_pos x)) in *.
  assert (Hdef : n = Z.max (Z.max (d + ex - 53) (-1074) - ex) 0) by reflexivity.
  clearbody n.
  assert (Hn : d - 53 <= n) by lia.
  assert (Hm1 : Zpos x / 2 ^ n < 2 ^ 53).
  { apply Z.div_lt_upper_bound; [lia|].
    rewrite <- Z.pow_add_r by lia.
    eapply Z.lt_le_trans; [exact Hhi|]. apply Z.pow_le_mono_r; lia. }
  assert (Hm0 : 0 <= Zpos x / 2 ^ n) by (apply Z.div_pos; lia).
  unfold binary_round_aux, shr_fexp at 1. cbn [shr_record_of_loc Zdigits2].
  rewrite fexp64. fold d. unfold shr at 1.
  destruct (Z.max (d + ex - 53) (-1074) - ex) as [|p|p] eqn:E.
  - (* no shift *)
    exists (Zpos x). replace n with 0 in * by lia.
    change (2 ^ 0) with 1 in *. rewrite Z.div_1_r in *. rewrite Z.add_0_r.
    cbn [shr_m loc_of_shr_record round_nearest_even].
    rewrite (finish_spec (Zpos x) ex) by lia.
    repeat split; try lia.
  - (* a shift by [p] places *)
    replace n with (Zpos p) in * by lia.
    rewrite iter_pos_iter.
    destruct (shr_iter (Zpos x) p ltac:(lia)) as (r & s & -> & Hflag).
    set (m1 := Zpos x / 2 ^ Zpos p) in *.
    remember (round_nearest_even (shr_m (Build_shr_record m1 r s))
                (loc_of_shr_record (Build_shr_record m1 r s))) as m2 eqn:Hm2.
    assert (Hround : m1 <= m2 <= m1 + 1 /\ (m2 = m1 + 1 -> r || s = true)).
    { subst m2. destruct r, s; cbn [shr_m loc_of_shr_record round_nearest_even orb];
        try destruct (Z.even m1); split; try lia; auto; intros; lia. }
    destruct Hround as [Hbounds Hup].
    exists m2. rewrite (finish_spec m2 (ex + Zpos p)) by lia.
    repeat split; try lia. intros Heq. apply Hflag, Hup, Heq.
  - (* no shift *)
    exists (Zpos x). replace n with 0 in * by lia.
    change (2 ^ 0) with 1 in *. rewrite Z.div_1_r in *. rewrite Z.add_0_r.
    cbn [shr_m loc_of_shr_record round_nearest_even].
    rewrite (finish_spec (Zpos x) ex) by lia.
    repeat split; try lia.
Qed.

Lemma valid_finite (s : bool) (m : positive) (e : Z) :
  valid_binary (S754_finite s m e) = true ->
  Z.max (Zpos (digits2_pos m) + e - 53) (-1074) = e /\ e <= 971.
Proof.
  cbn [SpecFloat.valid_binary]. unfold bounded, canonical_mantissa.
  rewrite andb_true_iff, Z.eqb_eq, Z.leb_le, fexp64. change (emax - prec) with 971.
  tauto.
Qed.

Lemma SFleb_finite (m1 : positive) (e1 : Z) (m2 : positive) (e2 : Z) :
  e1 < e2 \/ (e1 = e2 /\ Zpos m1 <= Zpos m2) ->
  SFleb (S754_finite false m1 e1) (S754_finite false m2 e2) = true.
Proof.
  unfold SFleb. cbn [SFcompare]. intros [Hlt | [-> Hle]].
  - apply Z.compare_lt_iff in Hlt. rewrite Hlt. reflexivity.
  - rewrite Z.compare_refl.
    change (Pos.compare_cont Eq m1 m2) with (m1 ?= m2)%positive.
    destruct (m1 ?= m2)%positive eqn:E; try reflexivity.
    apply Pos.compare_gt_iff in E. lia.
Qed.

(** Rounding does not cross a binary64 number below the exact value. *)
Lemma round_exact_ge (x : positive) (ex : Z) (ml : positive) (el : Z) :
  valid_binary (S754_finite false ml el) = true ->
  ex <= el ->
  Zpos ml * 2 ^ (el - ex) <= Zpos x ->
  SFleb (S754_finite false ml el)
        (binary_round_aux prec emax false (Zpos x) ex loc_Exact) = true.
Proof.
  intros Hvalid Hex Hle.
  destruct (valid_finite _ _ _ Hvalid) as [Hcan _].
  destruct (round_exact x ex) as (m2 & Hm2 & Hup & Hm153 & He1 & ->).
  rewrite fexp64 in *.
  pose proof (digits2_pos_bounds x) as [Hxlo Hxhi].
  pose proof (digits2_pos_bounds ml) as [Hllo Hlhi].
  set (d := Zpos (digits2_pos x)) in *. set (dl := Zpos (digits2_pos ml)) in *.
  set (n := Z.max (Z.max (d + ex - 53) (-1074) - ex) 0) in *.
  assert (Hn0 : 0 <= n) by lia.
  assert (Hpn : 0 < 2 ^ n) by lia.
  assert (Hel : el <= ex + n).
  { destruct (Z_le_gt_dec el (ex + n)) as [|Hgt]; [assumption|]. exfalso.
    assert (Hml : 2 ^ 52 <= Zpos ml).
    { eapply Z.le_trans; [|exact Hllo]. apply Z.pow_le_mono_r; lia. }
    assert (Hsplit : Zpos ml * 2 ^ (el - ex) = Zpos ml * 2 ^ (el - (ex + n)) * 2 ^ n).
    { rewrite <- Z.mul_assoc, <- Z.pow_add_r by lia. f_equal. f_equal. lia. }
    rewrite Hsplit in Hle.
    assert (Hdiv : Zpos ml * 2 ^ (el - (ex + n)) <= Zpos x / 2 ^ n).
    { apply Z.div_le_lower_bound; lia. }
    assert (2 ^ 1 <= 2 ^ (el - (ex + n))) by (apply Z.pow_le_mono_r; lia).
    change (2 ^ 1) with 2 in *. change (2 ^ 53) with (2 ^ 52 * 2) in Hm153. nia. }
  assert (Hm1 : el = ex + n -> Zpos ml <= Zpos x / 2 ^ n).
  { intros Heq. apply Z.div_le_lower_bound; [lia|].
    replace (el - ex) with n in Hle by lia. lia. }
  assert (Hpos : 1 <= Zpos x / 2 ^ n).
  { apply Z.div_le_lower_bound; [lia|]. rewrite Z.mul_1_r.
    destruct (Z.eq_dec n 0) as [-> | Hnz]; [change (2 ^ 0) with 1; lia|].
    destruct (Z.eq_dec n (d - 53)) as [-> | Hsub].
    - eapply Z.le_trans; [|exact Hxlo]. apply Z.pow_le_mono_r; lia.
    - assert (2 ^ n <= 2 ^ (el - ex)) by (apply Z.pow_le_mono_r; lia). nia. }
  unfold finish.
  destruct (Z.eqb_spec m2 0) as [Hz | Hnz]; [lia|].
  destruct (Z.eqb_spec m2 (2 ^ 53)) as [H53 | Hn53].
  - destruct (ex + n + 1 <=? 971); [|reflexivity].
    apply SFleb_finite. left. lia.
  - destruct (ex + n <=? 971); [|reflexivity].
    apply SFleb_finite.
    destruct (Z.eq_dec el (ex + n)) as [Heq | Hne]; [right | left; lia].
    split; [exact Heq|]. rewrite Z2Pos.id by lia. specialize (Hm1 Heq). lia.
Qed.

(** ** Numbers: finite numbers and their comparisons *)

Lemma zero_le_finish (m2 e1 : Z) :
  SFleb (S754_zero false) (finish m2 e1) = true.
Proof.
  unfold finish.
  destruct (m2 =? 0), (m2 =? 2 ^ 53), (e1 + 1 <=? 971), (e1 <=? 971); reflexivity.
Qed.

Lemma pos_iter_xO (m d : positive) :
  Zpos (Pos.iter xO m d) = Zpos m * 2 ^ Zpos d.
Proof.
  induction d as [|d IH] using Pos.peano_ind.
  - cbn [Pos.iter]. change (2 ^ 1) with 2. lia.
  - rewrite Pos.iter_succ, Pos2Z.inj_succ, Z.pow_succ_r by lia.
    rewrite Pos2Z.inj_xO, IH. lia.
Qed.

Lemma shl_align_spec (m : positive) (e e' : Z) :
  snd (shl_align m e e') = Z.min e e'
  /\ Zpos (fst (shl_align m e e')) = Zpos m * 2 ^ (e - Z.min e e').
Proof.
  unfold shl_align. destruct (e' - e) as [|d|d] eqn:E; cbn [fst snd].
  - replace (Z.min e e') with e by lia. rewrite Z.sub_diag. change (2 ^ 0) with 1. lia.
  - replace (Z.min e e') with e by lia. rewrite Z.sub_diag. change (2 ^ 0) with 1. lia.
  - replace (Z.min e e') with e' by lia. rewrite pos_iter_xO.
    replace (e - e') with (Zpos d) by lia. split; reflexivity.
Qed.

Lemma nonneg_shape (x : float) :
  (0 <=? x)%float = true ->
  match Prim2SF x with
  | S754_zero _ => True
  | S754_infinity sx => sx = false
  | S754_nan => False
  | S754_finite sx _ _ => sx = false
  end.
Proof.
  rewrite leb_spec. change (Prim2SF 0) with (S754_zero false). unfold SFleb.
  destruct (Prim2SF x) as [sx | [|] | | [|] mx ex]; cbn [SFcompare];
    try discriminate; auto.
Qed.

Lemma Prim2SF_0 : Prim2SF 0 = S754_zero false. Proof. reflexivity. Qed.
Lemma Prim2SF_1 : Prim2SF 1 = S754_finite false 4503599627370496 (-52). Proof. reflexivity. Qed.

Lemma SFltb_finite_inv (m1 : positive) (e1 : Z) (m2 : positive) (e2 : Z) :
  SFltb (S754_finite false m1 e1) (S754_finite false m2 e2) = true ->
  e1 < e2 \/ (e1 = e2 /\ Zpos m1 < Zpos m2).
Proof.
  unfold SFltb. cbn [SFcompare].
  change (Pos.compare_cont Eq m1 m2) with (m1 ?= m2)%positive.
  destruct (e1 ?= e2) eqn:E.
  - apply Z.compare_eq in E. destruct (m1 ?= m2)%positive eqn:Em; try discriminate.
    change (m1 < m2)%positive in Em. intros _. right. split; [exact E | lia].
  - apply Z.compare_lt_iff in E. intros _. left. exact E.
  - discriminate.
Qed.

Lemma SFleb_finite_inv (m1 : positive) (e1 : Z) (m2 : positive) (e2 : Z) :
  SFleb (S754_finite false m1 e1) (S754_finite false m2 e2) = true ->
  e1 < e2 \/ (e1 = e2 /\ Zpos m1 <= Zpos m2).
Proof.
  unfold SFleb. cbn [SFcompare].
  change (Pos.compare_cont Eq m1 m2) with (m1 ?= m2)%positive.
  destruct (e1 ?= e2) eqn:E.
  - apply Z.compare_eq in E. destruct (m1 ?= m2)%positive eqn:Em; try discriminate.
    + apply Pos.compare_eq in Em. intros _. right. split; [exact E | lia].
    + change (m1 < m2)%positive in Em. intros _. right. split; [exact E | lia].
  - apply Z.compare_lt_iff in E. intros _. left. exact E.
  - discriminate.
Qed.

Lemma SFleb_finite_sign (m1 : positive) (e1 : Z) (s2 : bool) (m2 : positive) (e2 : Z) :
  SFleb (S754_finite false m1 e1) (S754_finite s2 m2 e2) = true -> s2 = false.
Proof. destruct s2; [discriminate | reflexivity]. Qed.

Lemma ofZ_small (z : Z) :
  0 <= z < 2 ^ 63 -> Js.ofZ z = of_uint63 (Uint63.of_Z z).
Proof.
  intros Hz. unfold Js.ofZ.
  rewrite <- (SF2Prim_Prim2SF (of_uint63 (Uint63.of_Z z))), of_uint63_spec.
  rewrite Uint63.of_Z_spec, Z.mod_small; [reflexivity|].
  exact Hz.
Qed.



(** * Further properties of the transfer script *)

(** ** The runner on a plan it can build *)

Section RunnerExtras.

Variable World : Type.
Variable mathRandom : World -> Js.num * World.
Variable newWallet : string -> Res Address.
Variable parseUnits : Js.NumStr -> nat -> Res Z.
Variable submit : TxRequest -> World -> Res string * World.

Local Abbreviation executeEntry :=
  (executeEntry World mathRandom newWallet parseUnits submit).
Local Abbreviation executeTransfers :=
  (executeTransfers World mathRandom newWallet parseUnits submit).



End RunnerExtras.


(** ** The retry executor when every attempt fails *)

Lemma doubling_sum (delay : Z) (n : nat) :
  totalWait (map (fun k => delay * 2 ^ Z.of_nat k) (seq 1 n))
  = delay * (2 ^ (Z.of_nat n + 1) - 2).
Proof.
  induction n as [|n IH]; [cbn; lia|].
  rewrite seq_S, map_app. unfold totalWait in *. rewrite fold_right_app.
  cbn [map fold_right Nat.add].
  assert (Hshift : forall (l : list Z) (a : Z),
             fold_right Z.add a l = fold_right Z.add 0 l + a).
  { induction l as [|x l IHl]; intros a; cbn [fold_right]; [lia|]. rewrite IHl. lia. }
  rewrite Hshift, IH.
  replace (Z.of_nat (S n) + 1) with (Z.succ (Z.of_nat n + 1)) by lia.
  rewrite Z.pow_succ_r by lia.
  replace (Z.of_nat (1 + n)) with (Z.of_nat n + 1) by lia. lia.
Qed.

Section RetryExtras.

Variable World : Type.
Variable A : Type.
Variable fn : World -> Res A * World.
Variable maxRetries delay : Z.

Hypothesis fn_fails :
  forall w, exists e w', fn w = (Throw e, w') /\ retriable e = true.

Lemma retryLoop_exhausts (k : nat) :
  forall (attempt : Z) (s : State World),
    attempt + Z.of_nat k = maxRetries ->
    0 <= attempt ->
    exists e w wlast,
      retryLoop fn maxRetries delay (S k) attempt s
      = (Throw e, {| world := w;
                     trace := trace s ++ attemptEvents delay attempt (S k) |})
      /\ fn wlast = (Throw e, w).
Proof.
  induction k as [|k IH]; intros attempt s Hk Hatt.
  - destruct (fn_fails (world s)) as (e & w' & Hfn & Hretry).
    exists e, w', (world s). split; [|exact Hfn].
    rewrite (retryLoop_fatal World A fn maxRetries delay 0 attempt s e w')
      by first [lia | assumption | right; lia].
    reflexivity.
  - destruct (fn_fails (world s)) as (e & w' & Hfn & Hretry).
    rewrite (retryLoop_again World A fn maxRetries delay (S k) attempt s e w')
      by first [lia | assumption].
    destruct (IH (attempt + 1)
                {| world := w';
                   trace := trace s ++ [EvInvoke; EvBackoff (delay * 2 ^ (attempt + 1))] |})
      as (e' & w & wlast & -> & Hlast); [lia | lia |].
    exists e', w, wlast. split; [|exact Hlast].
    cbn [trace]. rewrite attemptEvents_more, <- app_assoc. reflexivity.
Qed.

End RetryExtras.

(** X2.  When every call of the wrapped operation fails with a retriable
    error, [withRetry] with a retry count [maxRetries >= 0] calls it exactly
    [maxRetries + 1] times, waits [delay * 2^k] before the [k]-th retry, that
    is [delay * (2^(maxRetries + 1) - 2)] in all, and then throws the error of
    the last call. *)
Theorem withRetry_exhausts
    (World A : Type) (fn : World -> Res A * World) (maxRetries delay : Z)
    (s : State World) :
  0 <= maxRetries ->
  (forall w, exists e w', fn w = (Throw e, w') /\ retriable e = true) ->
  exists e w wlast evs,
    withRetry fn maxRetries delay s
    = (Throw e, {| world := w; trace := trace s ++ evs |})
    /\ fn wlast = (Throw e, w)
    /\ Z.of_nat (invocations evs) = maxRetries + 1
    /\ backoffs evs
       = map (fun k => delay * 2 ^ Z.of_nat k) (seq 1 (Z.to_nat maxRetries))
    /\ totalWait (backoffs evs) = delay * (2 ^ (maxRetries + 1) - 2).
Proof.
  intros Hretries Hfails.
  assert (Hk : 0 + Z.of_nat (Z.to_nat maxRetries) = maxRetries) by lia.
  destruct (retryLoop_exhausts World A fn maxRetries delay Hfails
              (Z.to_nat maxRetries) 0 s Hk (Z.le_refl 0))
    as (e & w & wlast & Hrun & Hlast).
  exists e, w, wlast, (attemptEvents delay 0 (S (Z.to_nat maxRetries))).
  unfold withRetry.
  replace (Z.to_nat (maxRetries + 1)) with (S (Z.to_nat maxRetries)) by lia.
  split; [exact Hrun|]. split; [exact Hlast|].
  rewrite attemptEvents_invocations, attemptEvents_backoffs.
  replace (S (Z.to_nat maxRetries) - 1)%nat with (Z.to_nat maxRetries) by lia.
  split; [lia|].
  assert (Hmap : map (fun k : nat => delay * 2 ^ (0 + Z.of_nat k))
                     (seq 1 (Z.to_nat maxRetries))
                 = map (fun k : nat => delay * 2 ^ Z.of_nat k)
                       (seq 1 (Z.to_nat maxRetries))).
  { apply map_ext. intros k. reflexivity. }
  rewrite Hmap. split; [reflexivity|].
  rewrite doubling_sum. rewrite Z2Nat.id by lia. reflexivity.
Qed.

(** An instance: under the defaults, an endpoint that always answers with a
    server error is called four times, over fourteen seconds of waiting. *)
Lemma withRetry_exhausts_witness :
  exists e w wlast evs,
    withRetry (fun w : unit => (@Throw string Sim.serverError, w)) 3 1000
      (mkState tt [])
    = (Throw e, {| world := w; trace := [] ++ evs |})
    /\ (fun w : unit => (@Throw string Sim.serverError, w)) wlast = (Throw e, w)
    /\ Z.of_nat (invocations evs) = 3 + 1
    /\ backoffs evs = map (fun k => 1000 * 2 ^ Z.of_nat k) (seq 1 (Z.to_nat 3))
    /\ totalWait (backoffs evs) = 1000 * (2 ^ (3 + 1) - 2).
Proof.
  apply (withRetry_exhausts unit string
           (fun w : unit => (@Throw string Sim.serverError, w)) 3 1000 (mkState tt [])).
  - lia.
  - intros w. exists Sim.serverError, w. split; reflexivity.
Defined.

(** ** The planner: what it plans and where it stops *)

Lemma queryFailed_silent (evs : list Event) :
  Forall isQueryFailed evs ->
  invocations evs = 0%nat /\ outcomes evs = [] /\ writtenPreview evs = None.
Proof.
  induction 1 as [|ev evs Hev _ (Hi & Ho & Hw)]; [repeat split|].
  destruct ev; cbn in Hev; try contradiction.
  unfold invocations in *. cbn [filter isInvoke outcomes writtenPreview]. auto.
Qed.

Section PlannerExtras.

Variable World : Type.
Variable mathRandom : World -> Js.num * World.
Variable newWallet : string -> Res Address.
Variable getBalance : Address -> World -> Res Z * World.
Variable balanceOf : string -> Address -> World -> Res Z * World.

Local Abbreviation computeAmount := (computeAmount World mathRandom).
Local Abbreviation queryBalance := (queryBalance World getBalance balanceOf).
Local Abbreviation planEntry :=
  (planEntry World mathRandom newWallet getBalance balanceOf).
Local Abbreviation planLoop :=
  (planLoop World mathRandom newWallet getBalance balanceOf).
Local Abbreviation previewTransfers :=
  (previewTransfers World mathRandom newWallet getBalance balanceOf).

(** A mode outside the five cases leaves the amount at its initial zero. *)
Lemma computeAmount_unknown (cfg : Config) (b : Js.num) (s : State World) :
  knownMode (transferMode cfg) = false ->
  computeAmount cfg b s = (Ok 0%float, s).
Proof.
  unfold knownMode, computeAmount. intros H.
  repeat (apply orb_false_iff in H; destruct H as [H ?]).
  repeat match goal with
         | Heq : String.eqb _ _ = false |- _ => rewrite Heq; clear Heq
         end.
  reflexivity.
Qed.

Lemma planEntry_unknown (cfg : Config) (i : Z) (line : string)
    (acc acc' : PlanState) (s s' : State World) :
  knownMode (transferMode cfg) = false ->
  planEntry cfg i line acc s = (Ok acc', s') ->
  result acc' = result acc.
Proof.
  intros Hmode. unfold planEntry, bind, lift, tryCatch.
  destruct (newWallet _) as [fromAddr | e]; [|discriminate].
  destruct (queryBalance cfg fromAddr s) as [[balanceRaw | e] s1].
  - cbn [ret]. rewrite (computeAmount_unknown cfg _ s1 Hmode).
    destruct (_ <=? 0)%float.
    + destruct (nth_error (Js.split ":" line) 1);
        cbn [trimTo bind ret throw]; intros H; [|discriminate].
      injection H as <- _. reflexivity.
    + change (0 <=? 0)%float with true. cbn [orb].
      destruct (nth_error (Js.split ":" line) 1);
        cbn [trimTo bind ret throw]; intros H; [|discriminate].
      injection H as <- _. reflexivity.
  - cbn [emit bind ret]. intros H. injection H as <- _. reflexivity.
Qed.

Lemma planLoop_unknown (cfg : Config) (lines : list string) :
  knownMode (transferMode cfg) = false ->
  forall (i : Z) (acc acc' : PlanState) (s s' : State World),
    planLoop cfg i lines acc s = (Ok acc', s') ->
    result acc' = result acc.
Proof.
  intros Hmode. induction lines as [|line rest IH]; intros i acc acc' s s' Hrun.
  - cbn in Hrun. injection Hrun as <- _. reflexivity.
  - cbn [planLoop] in Hrun. unfold bind in Hrun.
    destruct (planEntry cfg i line acc s) as [[acc1 | e] s1] eqn:Hentry;
      [|discriminate].
    rewrite (IH _ _ _ _ _ Hrun). eapply planEntry_unknown; eassumption.
Qed.

(** X3.  When [TRANSFER_MODE] is none of fixed, range, all, percent and remain
    (the comparison is exact, so Fixed is none of them), every amount is
    zero and the planner plans nothing: a run of the planner that comes back
    returns an empty plan, the preview it wrote holds the header alone, and
    every non-blank line is on the skipped list or had its balance query
    fail. *)
Theorem unknown_mode_plans_nothing (cfg : Config) (rawLines : list string)
    (s s' : State World) (plan : list PlannedTransfer)
    (skippedLines : list ReportLine) :
  knownMode (transferMode cfg) = false ->
  previewTransfers cfg rawLines s = (Ok (plan, skippedLines), s') ->
  plan = []
  /\ exists evs,
       trace s' = trace s ++ evs ++ [EvWritePreview [HeaderLine]]
       /\ (List.length skippedLines + queryFailures evs
           = List.length (nonBlankLines rawLines))%nat.
Proof.
  intros Hmode Hrun.
  destruct (previewTransfers_run World mathRandom newWallet getBalance balanceOf
              cfg rawLines s s' plan skippedLines Hrun)
    as (evs & entryLines & Htr & (lines' & Hpre & Hall & _) & Hcount).
  cbn [previewLines result skipped] in *.
  assert (Hplan : plan = []).
  { unfold previewTransfers, bind in Hrun.
    destruct (planLoop cfg 0 (nonBlankLines rawLines) initialPlan s)
      as [[final | e] s1] eqn:Hloop; [|discriminate].
    cbn [emit ret] in Hrun. injection Hrun as <- _ _.
    apply (planLoop_unknown cfg _ Hmode _ _ _ _ _ Hloop). }
  subst plan. split; [reflexivity|].
  injection Hpre as <-. inversion Hall; subst.
  exists evs. split; [exact Htr|]. cbn [List.length] in Hcount. lia.
Qed.

(** The events of one iteration of the planner, however it ends: none, or
    one failed balance query. *)
Lemma planEntry_events (cfg : Config) (i : Z) (line : string) (acc : PlanState)
    (s : State World) :
  exists evs,
    trace (snd (planEntry cfg i line acc s)) = trace s ++ evs
    /\ Forall isQueryFailed evs.
Proof.
  unfold planEntry, bind, lift, tryCatch.
  destruct (newWallet _) as [fromAddr | e];
    [| exists []; rewrite app_nil_r; split; [reflexivity | constructor]].
  pose proof (queryBalance_trace World getBalance balanceOf cfg fromAddr s) as Hq.
  destruct (queryBalance cfg fromAddr s) as [[balanceRaw | e] s1]; cbn [snd] in Hq.
  - cbn [ret].
    pose proof (computeAmount_trace World mathRandom cfg
                  (Js.parseFloat (toReadable balanceRaw (decimals cfg))) s1) as Ha.
    destruct (computeAmount cfg _ s1) as [[amount | e] s2]; cbn [snd] in Ha.
    + exists []. rewrite app_nil_r. split; [|constructor].
      destruct (_ <=? 0)%float;
        [| destruct ((amount <=? 0)%float || (_ <? amount)%float)];
        destruct (nth_error (Js.split ":" line) 1);
        cbn [trimTo bind ret throw snd]; congruence.
    + exists []. rewrite app_nil_r. split; [cbn [snd]; congruence | constructor].
  - cbn [emit bind ret snd trace]. exists [EvQueryFailed fromAddr].
    rewrite Hq. split; [reflexivity | repeat constructor].
Qed.

Lemma planLoop_events (cfg : Config) (lines : list string) :
  forall (i : Z) (acc : PlanState) (s : State World),
  exists evs,
    trace (snd (planLoop cfg i lines acc s)) = trace s ++ evs
    /\ Forall isQueryFailed evs.
Proof.
  induction lines as [|line rest IH]; intros i acc s.
  - exists []. rewrite app_nil_r. split; [reflexivity | constructor].
  - cbn [planLoop]. unfold bind.
    destruct (planEntry_events cfg i line acc s) as (evs1 & Htr1 & Hall1).
    destruct (planEntry cfg i line acc s) as [[acc1 | e] s1]; cbn [snd] in Htr1.
    + destruct (IH (i + 1) acc1 s1) as (evs2 & Htr2 & Hall2).
      exists (evs1 ++ evs2). rewrite Htr2, Htr1, <- app_assoc.
      split; [reflexivity | apply Forall_app; split; assumption].
    + exists evs1. split; [exact Htr1 | exact Hall1].
Qed.

(** The loop on two runs of lines is the loop on the first, then on the
    second. *)
Lemma planLoop_app (cfg : Config) (before after : list string) :
  forall (i : Z) (acc : PlanState) (s : State World),
    planLoop cfg i (before ++ after) acc s
    = (acc1 <- planLoop cfg i before acc ;;
       planLoop cfg (i + Z.of_nat (List.length before)) after acc1) s.
Proof.
  induction before as [|line rest IH]; intros i acc s.
  - cbn [app planLoop List.length]. unfold bind, ret. rewrite Z.add_0_r. reflexivity.
  - cbn [app planLoop List.length]. unfold bind.
    destruct (planEntry cfg i line acc s) as [[acc1 | e] s1]; [|reflexivity].
    rewrite IH. unfold bind.
    replace (i + 1 + Z.of_nat (List.length rest))
      with (i + Z.of_nat (S (List.length rest))) by lia.
    reflexivity.
Qed.

(** The planner keeps what it has planned: the plan only grows at its end. *)
Lemma planLoop_grows (cfg : Config) (lines : list string) :
  forall (i : Z) (acc acc' : PlanState) (s s' : State World),
    planLoop cfg i lines acc s = (Ok acc', s') ->
    exists more, result acc' = result acc ++ more.
Proof.
  induction lines as [|line rest IH]; intros i acc acc' s s' Hrun.
  - cbn in Hrun. injection Hrun as <- _. exists []. rewrite app_nil_r. reflexivity.
  - cbn [planLoop] in Hrun. unfold bind in Hrun.
    destruct (planEntry cfg i line acc s) as [[acc1 | e] s1] eqn:Hentry;
      [|discriminate].
    destruct (IH _ _ _ _ _ Hrun) as (more & ->).
    destruct (planEntry_cases World mathRandom newWallet getBalance balanceOf
                cfg i line acc acc1 s s1 Hentry)
      as [[-> _] | (fromAddr & raw & toText & amount & _ & _ & ->)].
    + exists more. reflexivity.
    + destruct (validate _ _); cbn [recordVerdict result].
      * exists more. reflexivity.
      * eexists. rewrite <- app_assoc. reflexivity.
Qed.

(** X5.  The wallet of a line is built outside any [try] (line 90): when the
    key of a line, wherever the line stands in the file, is one the wallet
    library refuses, the planner throws that error at this line.  The lines
    before it were processed, the lines after it are not, and no preview is
    written: up to there the planner has recorded failed balance queries
    only. *)
Theorem planner_stops_at_bad_key (cfg : Config) (rawLines before after : list string)
    (line : string) (acc1 : PlanState) (s s1 : State World) (e : JsError) :
  nonBlankLines rawLines = before ++ line :: after ->
  planLoop cfg 0 before initialPlan s = (Ok acc1, s1) ->
  newWallet (Js.trim (nth 0 (Js.split ":" line) "")) = Throw e ->
  previewTransfers cfg rawLines s = (Throw e, s1)
  /\ exists evs,
       trace s1 = trace s ++ evs
       /\ Forall isQueryFailed evs
       /\ writtenPreview evs = None.
Proof.
  intros Hlines Hbefore Hwallet. split.
  - unfold previewTransfers. rewrite Hlines. unfold bind at 1.
    rewrite planLoop_app. unfold bind at 1. rewrite Hbefore.
    cbn [planLoop]. unfold bind, planEntry, lift. rewrite Hwallet. reflexivity.
  - destruct (planLoop_events cfg before 0 initialPlan s) as (evs & Htr & Hall).
    rewrite Hbefore in Htr. cbn [snd] in Htr.
    exists evs. split; [exact Htr|]. split; [exact Hall|].
    apply queryFailed_silent, Hall.
Qed.

(** X6.  A line without a colon has no second field: when its wallet is
    built, its balance is read and its amount is computed, [to.trim()] throws
    a TypeError whatever the verdict on the amounts is (lines 119, 124, 128).
    The planner throws it at this line, wherever the line stands in the file;
    the lines after it are not processed and no preview is written. *)
Theorem planner_stops_at_missing_field (cfg : Config)
    (rawLines before after : list string) (line : string) (acc1 : PlanState)
    (s s1 s2 s3 : State World) (fromAddr : Address) (balanceRaw : Z) (a : Js.num) :
  nonBlankLines rawLines = before ++ line :: after ->
  planLoop cfg 0 before initialPlan s = (Ok acc1, s1) ->
  nth_error (Js.split ":" line) 1 = None ->
  newWallet (Js.trim (nth 0 (Js.split ":" line) "")) = Ok fromAddr ->
  queryBalance cfg fromAddr s1 = (Ok balanceRaw, s2) ->
  computeAmount cfg (balanceOfEntry cfg balanceRaw) s2 = (Ok a, s3) ->
  previewTransfers cfg rawLines s
  = (Throw (typeError "Cannot read properties of undefined (reading 'trim')"), s3)
  /\ exists evs,
       trace s3 = trace s ++ evs
       /\ Forall isQueryFailed evs
       /\ writtenPreview evs = None.
Proof.
  intros Hlines Hbefore Hto Hwallet Hquery Hamount. split.
  - unfold previewTransfers. rewrite Hlines. unfold bind at 1.
    rewrite planLoop_app. unfold bind at 1. rewrite Hbefore.
    cbn [planLoop]. unfold bind, planEntry, lift, tryCatch, bind.
    rewrite Hwallet, Hquery. cbn [ret].
    unfold balanceOfEntry in Hamount. rewrite Hamount, Hto.
    destruct (_ <=? 0)%float;
      [| destruct ((a <=? 0)%float || (_ <? a)%float)]; reflexivity.
  - destruct (planLoop_events cfg before 0 initialPlan s) as (evs & Htr & Hall).
    rewrite Hbefore in Htr. cbn [snd] in Htr.
    pose proof (computeAmount_trace World mathRandom cfg
                  (balanceOfEntry cfg balanceRaw) s2) as Ha.
    pose proof (queryBalance_trace World getBalance balanceOf cfg fromAddr s1) as Hq.
    rewrite Hamount in Ha. rewrite Hquery in Hq. cbn [snd] in Ha, Hq.
    exists evs. split; [congruence|]. split; [exact Hall|].
    apply queryFailed_silent, Hall.
Qed.

End PlannerExtras.

(** An instance: the mode is written Fixed; the funded first line is skipped
    and the balance query of the second fails. *)
Lemma unknown_mode_plans_nothing_witness :
  [] = @nil PlannedTransfer
  /\ exists evs,
       [EvQueryFailed "0xk3"; EvWritePreview [HeaderLine]]
       = [] ++ evs ++ [EvWritePreview [HeaderLine]]
       /\ (List.length
             [EntryLine 1 "0xk1" (Js.StrFixed false 5000000 6) "d1" "Native"
                        (Js.StrFixed false 0 6) (Some insufficient_balance)]
           + queryFailures evs
           = List.length (nonBlankLines ["k1:d1"; "k3:d3"]))%nat.
Proof.
  apply (unknown_mode_plans_nothing Sim.World Sim.mathRandom Sim.newWallet
           Sim.getBalance Sim.balanceOf (Sim.config "Fixed" 1%float 0%float)
           ["k1:d1"; "k3:d3"] (Sim.start (Sim.chain [] []))
           {| world := Sim.chain [] [];
              trace := [EvQueryFailed "0xk3"; EvWritePreview [HeaderLine]] |}
           []
           [EntryLine 1 "0xk1" (Js.StrFixed false 5000000 6) "d1" "Native"
                      (Js.StrFixed false 0 6) (Some insufficient_balance)]);
    vm_compute; reflexivity.
Defined.

(** An instance: the third non-blank line has an empty key. *)
Lemma planner_stops_at_bad_key_witness :
  Sim.previewTransfers Sim.fixedOne ["k1:d1"; ""; ":d2"; "k2:d2"]
    (Sim.start (Sim.chain [] []))
  = (Throw {| code := StrCode "INVALID_ARGUMENT"; message := Some "invalid private key" |},
     Sim.start (Sim.chain [] []))
  /\ exists evs,
       trace (Sim.start (Sim.chain [] [])) = trace (Sim.start (Sim.chain [] [])) ++ evs
       /\ Forall isQueryFailed evs
       /\ writtenPreview evs = None.
Proof.
  apply (planner_stops_at_bad_key Sim.World Sim.mathRandom Sim.newWallet
           Sim.getBalance Sim.balanceOf Sim.fixedOne
           ["k1:d1"; ""; ":d2"; "k2:d2"] ["k1:d1"] ["k2:d2"] ":d2"
           (recordVerdict Sim.fixedOne 0 "k1" "0xk1" (Js.StrFixed false 5000000 6)
              "d1" 1%float Accept initialPlan)
           (Sim.start (Sim.chain [] [])) (Sim.start (Sim.chain [] [])));
    vm_compute; reflexivity.
Defined.

(** An instance: the second line is a key alone. *)
Lemma planner_stops_at_missing_field_witness :
  Sim.previewTransfers Sim.fixedOne ["k3:d3"; "k1"; "k2:d2"]
    (Sim.start (Sim.chain [] []))
  = (Throw (typeError "Cannot read properties of undefined (reading 'trim')"),
     {| world := Sim.chain [] []; trace := [EvQueryFailed "0xk3"] |})
  /\ exists evs,
       [EvQueryFailed "0xk3"] = trace (Sim.start (Sim.chain [] [])) ++ evs
       /\ Forall isQueryFailed evs
       /\ writtenPreview evs = None.
Proof.
  apply (planner_stops_at_missing_field Sim.World Sim.mathRandom Sim.newWallet
           Sim.getBalance Sim.balanceOf Sim.fixedOne
           ["k3:d3"; "k1"; "k2:d2"] ["k3:d3"] ["k2:d2"] "k1" initialPlan
           (Sim.start (Sim.chain [] []))
           {| world := Sim.chain [] []; trace := [EvQueryFailed "0xk3"] |}
           {| world := Sim.chain [] []; trace := [EvQueryFailed "0xk3"] |}
           {| world := Sim.chain [] []; trace := [EvQueryFailed "0xk3"] |}
           "0xk1" (5 * Sim.coin) 1%float);
    vm_compute; reflexivity.
Defined.

(** ** The main flow: an empty plan, and the key the runner gets *)

Section MainExtras.

Variable World : Type.
Variable mathRandom : World -> Js.num * World.
Variable newWallet : string -> Res Address.
Variable getBalance : Address -> World -> Res Z * World.
Variable balanceOf : string -> Address -> World -> Res Z * World.
Variable parseUnits : Js.NumStr -> nat -> Res Z.
Variable submit : TxRequest -> World -> Res string * World.

Local Abbreviation computeAmount := (computeAmount World mathRandom).
Local Abbreviation queryBalance := (queryBalance World getBalance balanceOf).
Local Abbreviation planLoop :=
  (planLoop World mathRandom newWallet getBalance balanceOf).
Local Abbreviation previewTransfers :=
  (previewTransfers World mathRandom newWallet getBalance balanceOf).
Local Abbreviation executeTransfers :=
  (executeTransfers World mathRandom newWallet parseUnits submit).
Local Abbreviation main :=
  (main World mathRandom newWallet getBalance balanceOf parseUnits submit).

(** X4.  When the planner accepts no entry, the main flow ends without asking
    for the confirmation: whatever the answer would be, it writes the skipped
    list to its report and stops.  Before that it has recorded failed balance
    queries only and written a preview that holds the header alone; every
    line of the skipped report carries a reason, and every non-blank line of
    the address file is on that report or had its balance query fail. *)
Theorem empty_plan_ends_run (cfg : Config) (rawLines : list string)
    (answer : string) (s s1 : State World) (skippedLines : list ReportLine) :
  previewTransfers cfg rawLines s = (Ok ([], skippedLines), s1) ->
  exists evs,
    main cfg rawLines answer s
    = (Ok EmptyPlan,
       {| world := world s1;
          trace := trace s ++ evs ++ [EvWritePreview [HeaderLine];
                                      EvWriteSkipped skippedLines] |})
    /\ Forall isQueryFailed evs
    /\ Forall isSkipLine skippedLines
    /\ (List.length skippedLines + queryFailures evs
        = List.length (nonBlankLines rawLines))%nat.
Proof.
  intros Hrun.
  destruct (previewTransfers_run World mathRandom newWallet getBalance balanceOf
              cfg rawLines s s1 [] skippedLines Hrun)
    as (evs & entryLines & Htr & (lines' & Hpre & Hall & Hskip) & Hcount).
  cbn [previewLines result skipped] in *.
  injection Hpre as <-. inversion Hall; subst.
  exists evs. unfold main, bind. rewrite Hrun. cbn [emit ret world trace].
  rewrite Htr, <- !app_assoc. cbn [app].
  split; [reflexivity|]. split; [|split; [exact Hskip | exact Hcount]].
  pose proof Hrun as Hrun'. unfold previewTransfers, bind in Hrun'.
  destruct (planLoop_events World mathRandom newWallet getBalance balanceOf
              cfg (nonBlankLines rawLines) 0 initialPlan s) as (evs' & Htr' & Hall').
  destruct (planLoop cfg 0 (nonBlankLines rawLines) initialPlan s)
    as [[final | e] s0]; [|discriminate].
  cbn [emit ret snd] in *. injection Hrun' as _ _ Hs1.
  rewrite <- Hs1 in Htr. cbn [trace] in Htr. rewrite Htr' in Htr.
  rewrite app_assoc in Htr. apply app_inj_tail in Htr. destruct Htr as [Htr _].
  apply app_inv_head in Htr. subst evs'. exact Hall'.
Qed.

(** X7.  The planner builds the wallet of a line from the trimmed key (line
    90) but stores the key as it is written (line 129), and the runner builds
    its wallet from the stored key, outside its [try] (line 154).  So when
    the first line has a key that the wallet library takes once trimmed and
    refuses as written, and the amounts of that line are accepted, the entry
    is planned and listed in the preview, and on a confirmed run the runner
    throws at it: no transfer of the plan is submitted and no outcome is
    recorded. *)
Theorem runner_gets_key_as_written (cfg : Config) (rawLines rest : list string)
    (line answer : string) (s s1 s2 s3 : State World) (toText : string)
    (fromAddr : Address) (balanceRaw : Z) (a : Js.num) (final : PlanState)
    (e : JsError) :
  nonBlankLines rawLines = line :: rest ->
  nth_error (Js.split ":" line) 1 = Some toText ->
  newWallet (Js.trim (nth 0 (Js.split ":" line) "")) = Ok fromAddr ->
  newWallet (nth 0 (Js.split ":" line) "") = Throw e ->
  queryBalance cfg fromAddr s = (Ok balanceRaw, s1) ->
  computeAmount cfg (balanceOfEntry cfg balanceRaw) s1 = (Ok a, s2) ->
  validate (balanceOfEntry cfg balanceRaw) a = Accept ->
  planLoop cfg 1 rest
    (recordVerdict cfg 0 (nth 0 (Js.split ":" line) "") fromAddr
       (toReadable balanceRaw (decimals cfg)) (Js.trim toText) a Accept initialPlan)
    s2 = (Ok final, s3) ->
  confirmed answer = true ->
  exists others,
    result final
    = {| privateKey := nth 0 (Js.split ":" line) ""; from := fromAddr;
         to := Js.trim toText; amount := a |} :: others
    /\ main cfg rawLines answer s
       = (Throw e, {| world := world s3;
                      trace := trace s3 ++ [EvWritePreview (previewLines final)] |}).
Proof.
  intros Hlines Hto Hwallet Hraw Hquery Hamount Hvalid Hrest Hyes.
  destruct (planLoop_grows World mathRandom newWallet getBalance balanceOf
              cfg rest 1 _ final s2 s3 Hrest) as (others & Hres).
  cbn [recordVerdict result] in Hres.
  change (result initialPlan) with (@nil PlannedTransfer) in Hres. cbn [app] in Hres.
  exists others. split; [exact Hres|].
  unfold main, previewTransfers. rewrite Hlines. unfold bind at 1 2.
  cbn [planLoop]. unfold bind at 1.
  rewrite (planEntry_recorded World mathRandom newWallet getBalance balanceOf
             cfg 0 line initialPlan s s1 s2 toText fromAddr balanceRaw a
             Hto Hwallet Hquery Hamount).
  rewrite Hvalid. change (0 + 1) with 1. rewrite Hrest.
  cbn [emit ret world trace bind]. unfold bind. cbn [emit ret world trace].
  rewrite Hres, Hyes. cbn [executeTransfers].
  unfold bind, executeEntry, bind, lift. cbn [privateKey].
  rewrite Hraw. reflexivity.
Qed.

End MainExtras.

(** An instance: of three lines, one balance query fails and the two other
    entries are skipped. *)
Lemma empty_plan_ends_run_witness :
  exists evs,
    Sim.main Sim.fixedOne ["k3:d3"; "k2:d2"; "k4:d4"] "yes" (Sim.start (Sim.chain [] []))
    = (Ok EmptyPlan,
       {| world := Sim.chain [] [];
          trace := [] ++ evs ++
            [EvWritePreview [HeaderLine];
             EvWriteSkipped
               [EntryLine 2 "0xk2" (Js.StrFixed false 500000 6) "d2" "Native"
                          (Js.StrFixed false 1000000 6) (Some insufficient_balance);
                EntryLine 3 "0xk4" (Js.StrFixed false 0 6) "d4" "Native"
                          (Js.StrFixed false 1000000 6) (Some zero_balance)]] |})
    /\ Forall isQueryFailed evs
    /\ Forall isSkipLine
         [EntryLine 2 "0xk2" (Js.StrFixed false 500000 6) "d2" "Native"
                    (Js.StrFixed false 1000000 6) (Some insufficient_balance);
          EntryLine 3 "0xk4" (Js.StrFixed false 0 6) "d4" "Native"
                    (Js.StrFixed false 1000000 6) (Some zero_balance)]
    /\ (2 + queryFailures evs = 3)%nat.
Proof.
  apply (empty_plan_ends_run Sim.World Sim.mathRandom Sim.newWallet Sim.getBalance
           Sim.balanceOf Sim.parseUnits Sim.submit Sim.fixedOne
           ["k3:d3"; "k2:d2"; "k4:d4"] "yes" (Sim.start (Sim.chain [] []))
           {| world := Sim.chain [] [];
              trace := [EvQueryFailed "0xk3"; EvWritePreview [HeaderLine]] |}).
  vm_compute. reflexivity.
Defined.

(** An instance: the key of the one line has a space on each side. *)
Lemma runner_gets_key_as_written_witness :
  let key := (" " ++ Strict.sampleKey ++ " ")%string in
  let address := ("0x" ++ Strict.sampleKey)%string in
  let line := (key ++ ":d1")%string in
  let chain := {| Sim.draws := []; Sim.answers := [Ok "0xh1"];
                  Sim.funds := [(address, Ok (5 * Sim.coin))] |} in
  exists others,
    [{| privateKey := key; from := address; to := "d1"; amount := 1%float |}]
    = {| privateKey := nth 0 (Js.split ":" line) ""; from := address;
         to := Js.trim "d1"; amount := 1%float |} :: others
    /\ main Sim.World Sim.mathRandom Strict.newWallet Sim.getBalance Sim.balanceOf
         Sim.parseUnits Sim.submit Sim.fixedOne [line] "yes" (Sim.start chain)
       = (Throw {| code := StrCode "INVALID_ARGUMENT";
                   message := Some "invalid hexlify value" |},
          {| world := chain;
             trace := [] ++
               [EvWritePreview
                  [HeaderLine;
                   EntryLine 1 address (Js.StrFixed false 5000000 6) "d1" "Native"
                             (Js.StrFixed false 1000000 6) None]] |}).
Proof.
  intros key address line chain.
  apply (runner_gets_key_as_written Sim.World Sim.mathRandom Strict.newWallet
           Sim.getBalance Sim.balanceOf Sim.parseUnits Sim.submit Sim.fixedOne
           [line] [] line "yes"
           (Sim.start chain) (Sim.start chain) (Sim.start chain) (Sim.start chain)
           "d1" address (5 * Sim.coin) 1%float
           {| result := [{| privateKey := key; from := address; to := "d1";
                            amount := 1%float |}];
              skipped := [];
              previewLines :=
                [HeaderLine;
                 EntryLine 1 address (Js.StrFixed false 5000000 6) "d1" "Native"
                           (Js.StrFixed false 1000000 6) None] |});
    vm_compute; reflexivity.
Defined.

(** ** Numbers: rounding a value known up to a location

    The quotient of a division reaches the rounding as a mantissa and the
    location of the exact value above it.  The lemmas below follow that
    rounding far enough to see that it gives a binary64 number that is not
    negative. *)

(** After [n] shifts of any record with a non-negative mantissa. *)
Lemma shr_iter_any (m : Z) (r s : bool) (n : positive) :
  0 <= m ->
  exists r' s',
    Pos.iter shr_1 (Build_shr_record m r s) n
    = Build_shr_record (m / 2 ^ Zpos n) r' s'.
Proof.
  intros Hm. induction n as [|n (r' & s' & Hn)] using Pos.peano_ind.
  - eexists _, _. cbn [Pos.iter]. rewrite shr_1_nonneg by exact Hm. reflexivity.
  - eexists _, _.
    rewrite Pos.iter_succ, Hn, shr_1_nonneg by (apply Z.div_pos; lia).
    rewrite Pos2Z.inj_succ, Z.pow_succ_r, Z.div_div by lia.
    replace (2 ^ Zpos n * 2) with (2 * 2 ^ Zpos n) by lia. reflexivity.
Qed.

Lemma round_nearest_even_bounds (m : Z) (l : location) :
  m <= round_nearest_even m l <= m + 1.
Proof.
  destruct l as [|[| |]]; cbn [round_nearest_even]; try lia.
  destruct (Z.even m); lia.
Qed.

(** Rounding a non-negative value [m * 2^e] known up to the location [l]:
    the mantissa is shifted right by [n] places, rounded up or not, and
    normalised. *)
Lemma round_any (m e : Z) (l : location) :
  0 <= m ->
  let n := Z.max (fexp prec emax (Zdigits2 m + e) - e) 0 in
  exists m2,
    m / 2 ^ n <= m2 <= m / 2 ^ n + 1
    /\ m / 2 ^ n < 2 ^ 53
    /\ -1074 <= e + n
    /\ binary_round_aux prec emax false m e l = finish m2 (e + n).
Proof.
  intros Hm n.
  set (d := Zdigits2 m) in *.
  assert (Hdef : n = Z.max (Z.max (d + e - 53) (-1074) - e) 0) by reflexivity.
  clearbody n.
  assert (Hn : d - 53 <= n) by lia.
  assert (Hd : m < 2 ^ d).
  { destruct (Z.eq_dec m 0) as [-> | Hnz]; [subst d; cbn; lia|].
    apply Zdigits2_pos. lia. }
  assert (Hd0 : 0 <= d) by apply Zdigits2_nonneg.
  assert (Hm1 : m / 2 ^ n < 2 ^ 53).
  { apply Z.div_lt_upper_bound; [lia|].
    rewrite <- Z.pow_add_r by lia.
    eapply Z.lt_le_trans; [exact Hd|]. apply Z.pow_le_mono_r; lia. }
  assert (Hm0 : 0 <= m / 2 ^ n) by (apply Z.div_pos; lia).
  unfold binary_round_aux, shr_fexp at 1.
  rewrite fexp64. fold d. unfold shr at 1.
  assert (Hrec : exists r s, shr_record_of_loc m l = Build_shr_record m r s).
  { destruct l as [|[| |]]; eexists _, _; reflexivity. }
  destruct Hrec as (r & s & ->).
  destruct (Z.max (d + e - 53) (-1074) - e) as [|p|p] eqn:E.
  - replace n with 0 in * by lia.
    change (2 ^ 0) with 1 in *. rewrite Z.div_1_r in *. rewrite Z.add_0_r.
    pose proof (round_nearest_even_bounds m
                  (loc_of_shr_record (Build_shr_record m r s))) as Hb.
    cbn [shr_m]. eexists. rewrite finish_spec by lia.
    repeat split; try reflexivity; lia.
  - replace n with (Zpos p) in * by lia.
    rewrite iter_pos_iter.
    destruct (shr_iter_any m r s p Hm) as (r' & s' & ->).
    pose proof (round_nearest_even_bounds (m / 2 ^ Zpos p)
                  (loc_of_shr_record (Build_shr_record (m / 2 ^ Zpos p) r' s'))) as Hb.
    cbn [shr_m]. eexists. rewrite finish_spec by lia.
    repeat split; try reflexivity; lia.
  - replace n with 0 in * by lia.
    change (2 ^ 0) with 1 in *. rewrite Z.div_1_r in *. rewrite Z.add_0_r.
    pose proof (round_nearest_even_bounds m
                  (loc_of_shr_record (Build_shr_record m r s))) as Hb.
    cbn [shr_m]. eexists. rewrite finish_spec by lia.
    repeat split; try reflexivity; lia.
Qed.

(** Rounding a non-negative value gives a zero, a positive number or
    [+Infinity]: never NaN, never a negative number. *)
Lemma round_nonneg (m e : Z) (l : location) :
  0 <= m ->
  SFleb (S754_zero false) (binary_round_aux prec emax false m e l) = true.
Proof.
  intros Hm. destruct (round_any m e l Hm) as (m2 & _ & _ & _ & ->).
  apply zero_le_finish.
Qed.

Lemma finish_valid (m2 e1 : Z) :
  0 <= m2 <= 2 ^ 53 -> -1074 <= e1 ->
  2 ^ 52 <= m2 \/ e1 = -1074 \/ m2 = 0 ->
  valid_binary (finish m2 e1) = true.
Proof.
  intros Hm He Hcan. unfold finish.
  destruct (Z.eqb_spec m2 0) as [_ | Hnz]; [reflexivity|].
  destruct (Z.eqb_spec m2 (2 ^ 53)) as [_ | Hne].
  { destruct (Z.leb_spec (e1 + 1) 971) as [Hle | _]; [|reflexivity].
    cbn [SpecFloat.valid_binary]. unfold bounded, canonical_mantissa.
    change (Zpos (digits2_pos (Z.to_pos (2 ^ 52)))) with 53.
    rewrite fexp64. change (emax - prec) with 971.
    apply andb_true_iff. split; [apply Z.eqb_eq | apply Z.leb_le]; lia. }
  destruct (Z.leb_spec e1 971) as [Hle | _]; [|reflexivity].
  cbn [SpecFloat.valid_binary]. unfold bounded, canonical_mantissa.
  rewrite fexp64. change (emax - prec) with 971.
  pose proof (digits2_pos_bounds (Z.to_pos m2)) as [Hlo Hhi].
  rewrite Z2Pos.id in Hlo, Hhi by lia.
  set (d := Zpos (digits2_pos (Z.to_pos m2))) in *.
  assert (Hd : d <= 53).
  { destruct (Z_le_gt_dec d 53) as [|Hgt]; [assumption|]. exfalso.
    assert (2 ^ 53 <= 2 ^ (d - 1)) by (apply Z.pow_le_mono_r; lia). lia. }
  apply andb_true_iff. split; [apply Z.eqb_eq | apply Z.leb_le; lia].
  destruct Hcan as [H52 | [-> | Hz]]; [| lia | lia].
  assert (53 <= d); [|lia].
  destruct (Z_le_gt_dec 53 d) as [|Hgt]; [assumption|]. exfalso.
  assert (2 ^ d <= 2 ^ 52) by (apply Z.pow_le_mono_r; lia). lia.
Qed.

(** Rounding a value whose mantissa has the digits rounding needs gives a
    binary64 number. *)
Lemma round_valid (m e : Z) (l : location) :
  0 <= m ->
  e <= fexp prec emax (Zdigits2 m + e) ->
  valid_binary (binary_round_aux prec emax false m e l) = true.
Proof.
  intros Hm He.
  destruct (round_any m e l Hm) as (m2 & Hm2 & H53 & Hlow & ->).
  rewrite fexp64 in *.
  set (d := Zdigits2 m) in *.
  set (n := Z.max (Z.max (d + e - 53) (-1074) - e) 0) in *.
  assert (Hm0 : 0 <= m / 2 ^ n) by (apply Z.div_pos; lia).
  apply finish_valid; try lia.
  destruct (Z.eq_dec (e + n) (-1074)) as [Heq | Hne]; [right; left; exact Heq|].
  left.
  assert (Hn : n = d - 53) by lia.
  assert (Hmpos : 0 < m).
  { destruct (Z.eq_dec m 0) as [Hz | Hnz]; [|lia].
    exfalso. subst m. subst d. cbn [Zdigits2] in *. lia. }
  destruct (Zdigits2_pos m Hmpos) as [Hlo _]. fold d in Hlo.
  assert (2 ^ 52 <= m / 2 ^ n); [|lia].
  apply Z.div_le_lower_bound; [lia|].
  rewrite <- Z.pow_add_r by lia. replace (n + 52) with (d - 1) by lia. exact Hlo.
Qed.

(** The quotient that [SFdiv_core_binary] hands to the rounding is
    non-negative and has the digits the rounding needs. *)
Lemma div_core_aligned (m1 e1 m2 e2 : Z) :
  0 < m1 -> 0 < m2 ->
  exists q e' l,
    SFdiv_core_binary prec emax m1 e1 m2 e2 = (q, e', l)
    /\ 0 <= q
    /\ e' <= fexp prec emax (Zdigits2 q + e').
Proof.
  intros H1 H2. unfold SFdiv_core_binary.
  change IntDef.Z.min with Z.min. change IntDef.Z.shiftl with Z.shiftl.
  destruct (Zdigits2_pos m1 H1) as [Hlo1 Hhi1].
  destruct (Zdigits2_pos m2 H2) as [_ Hhi2].
  pose proof (Zdigits2_nonneg m1) as Hd1n.
  pose proof (Zdigits2_nonneg m2) as Hd2.
  set (d1 := Zdigits2 m1) in *. set (d2 := Zdigits2 m2) in *.
  set (e' := Z.min (fexp prec emax (d1 + e1 - (d2 + e2))) (e1 - e2)).
  assert (Hmin : e' <= e1 - e2) by apply Z.le_min_r.
  assert (Hfe : e' <= fexp prec emax (d1 + e1 - (d2 + e2))) by apply Z.le_min_l.
  clearbody e' d1 d2.
  set (s := e1 - e2 - e').
  assert (Hsdef : s = e1 - e2 - e') by reflexivity.
  clearbody s.
  assert (Hs : 0 <= s) by (clear - Hmin Hsdef; lia).
  set (m' := match s with 0 => m1 | Zpos _ => Z.shiftl m1 s | Zneg _ => 0 end).
  assert (Hm' : m' = m1 * 2 ^ s).
  { subst m'. destruct s as [|p|p]; [| |lia].
    - rewrite Z.pow_0_r, Z.mul_1_r. reflexivity.
    - rewrite Z.shiftl_mul_pow2 by lia. reflexivity. }
  clearbody m'.
  change (IntDef.Z.div_eucl m' m2) with (Z.div_eucl m' m2).
  pose proof (Z.div_eucl_eq m' m2 ltac:(lia)) as Heq.
  pose proof (Z.mod_pos_bound m' m2 H2) as Hr.
  unfold Z.modulo in Hr.
  assert (Hq : fst (Z.div_eucl m' m2) = m' / m2) by reflexivity.
  destruct (Z.div_eucl m' m2) as [q r]. cbn [fst] in Hq.
  exists q, e', (new_location m2 r). split; [reflexivity|].
  assert (Hq0 : 0 <= q) by (rewrite Hq; apply Z.div_pos; nia).
  split; [exact Hq0|].
  assert (Hd1 : 1 <= d1).
  { destruct (Z_le_gt_dec 1 d1) as [|Hgt]; [assumption|]. exfalso.
    replace d1 with 0 in Hhi1 by lia. rewrite Z.pow_0_r in Hhi1. lia. }
  assert (Hdq : d1 - d2 + s <= Zdigits2 q).
  { destruct (Z_le_gt_dec 0 (d1 - 1 + s - d2)) as [Hk | Hk].
    - assert (2 ^ (d1 - 1 + s - d2) <= q).
      { rewrite Hq. apply Z.div_le_lower_bound; [lia|].
        rewrite Hm'.
        assert (Hpow : 2 ^ (d1 - 1) * 2 ^ s = 2 ^ (d1 - 1 + s - d2) * 2 ^ d2).
        { rewrite <- !Z.pow_add_r by lia. f_equal. lia. }
        assert (0 < 2 ^ (d1 - 1 + s - d2)) by (apply Z.pow_pos_nonneg; lia).
        assert (0 < 2 ^ s) by (apply Z.pow_pos_nonneg; lia).
        nia. }
      assert (0 < q).
      { assert (0 < 2 ^ (d1 - 1 + s - d2)) by (apply Z.pow_pos_nonneg; lia). lia. }
      pose proof (Zdigits2_ge q (d1 - 1 + s - d2) ltac:(lia) ltac:(lia) ltac:(lia)).
      lia.
    - pose proof (Zdigits2_nonneg q). lia. }
  rewrite fexp64 in *. lia.
Qed.

Lemma SF2Prim_nonneg (v : spec_float) :
  valid_binary v = true ->
  SFleb (S754_zero false) v = true ->
  (0 <=? SF2Prim v)%float = true.
Proof.
  intros Hvalid Hle. rewrite leb_spec, Prim2SF_SF2Prim by exact Hvalid. exact Hle.
Qed.

Lemma SFdiv_nonneg (x y : spec_float) (my : positive) (ey : Z) :
  SFleb (S754_zero false) x = true ->
  y = S754_finite false my ey ->
  SFleb (S754_zero false) (SFdiv prec emax x y) = true.
Proof.
  intros Hx ->.
  destruct x as [sx | sx | | sx mx ex]; try discriminate.
  - reflexivity.
  - destruct sx; [discriminate | reflexivity].
  - destruct sx; [discriminate|]. cbn [SFdiv xorb].
    destruct (div_core_aligned (Zpos mx) ex (Zpos my) ey ltac:(lia) ltac:(lia))
      as (q & e' & l & -> & Hq & _).
    apply round_nonneg, Hq.
Qed.

Lemma pow10_finite (f : nat) :
  (f <= 22)%nat -> exists m e, Prim2SF (Js.pow10 f) = S754_finite false m e.
Proof.
  intros Hf.
  do 23 (destruct f as [|f]; [eexists _, _; vm_compute; reflexivity|]).
  lia.
Qed.

Lemma ofZ_nonneg (n : Z) :
  0 <= n < 2 ^ 53 -> SFleb (S754_zero false) (Prim2SF (Js.ofZ n)) = true.
Proof.
  intros Hn. rewrite ofZ_small by lia. rewrite of_uint63_spec.
  rewrite Uint63.of_Z_spec, Z.mod_small by (change Uint63.wB with (2 ^ 63); lia).
  unfold binary_normalize. destruct n as [|p|p]; [reflexivity | | lia].
  unfold binary_round.
  destruct (shl_align p 0 (fexp prec emax (Zpos (digits2_pos p) + 0))) as [mz ez].
  apply round_nonneg. lia.
Qed.

(** Reading a numeral of a non-negative value gives a non-negative number:
    never NaN. *)
Lemma parseFloat_nonneg (n : Z) (f : nat) :
  0 <= n -> (0 <=? Js.parseFloat (Js.StrFixed false n f))%float = true.
Proof.
  intros Hn. unfold Js.parseFloat.
  destruct (Z.eqb_spec n 0) as [_ | Hnz]; [reflexivity|].
  rewrite Z.abs_eq by exact Hn.
  destruct ((n <? 2 ^ 53) && (f <=? 22)%nat) eqn:Efast.
  - apply andb_true_iff in Efast. destruct Efast as [Hsmall Hf].
    apply Z.ltb_lt in Hsmall. apply Nat.leb_le in Hf.
    destruct (pow10_finite f Hf) as (my & ey & Hy).
    rewrite leb_spec, div_spec. change (Prim2SF 0) with (S754_zero false).
    eapply SFdiv_nonneg; [apply ofZ_nonneg; lia | exact Hy].
  - assert (Hten : 0 < 10 ^ Z.of_nat f) by (apply Z.pow_pos_nonneg; lia).
    destruct (div_core_aligned n 0 (10 ^ Z.of_nat f) 0 ltac:(lia) Hten)
      as (q & e' & l & -> & Hq & Hal).
    apply SF2Prim_nonneg; [apply round_valid | apply round_nonneg]; assumption.
Qed.

Lemma nearestScaled_nonneg (m : positive) (e : Z) (f : nat) :
  0 <= Js.nearestScaled m e f.
Proof.
  unfold Js.nearestScaled.
  assert (0 < 10 ^ Z.of_nat f) by (apply Z.pow_pos_nonneg; lia).
  destruct (0 <=? e) eqn:E.
  - apply Z.leb_le in E. assert (0 < 2 ^ e) by (apply Z.pow_pos_nonneg; lia). nia.
  - apply Z.leb_gt in E. assert (0 < 2 ^ (- e)) by (apply Z.pow_pos_nonneg; lia).
    apply Z.div_pos; nia.
Qed.

(** The balance the planner compares is read from a numeral of a
    non-negative value. *)
Lemma balanceOfEntry_nonneg (cfg : Config) (balanceRaw : Z) :
  0 <= balanceRaw ->
  (0 <=? balanceOfEntry cfg balanceRaw)%float = true.
Proof.
  intros Hraw. unfold balanceOfEntry, toReadable.
  replace (balanceRaw <? 0) with false by (symmetry; apply Z.ltb_ge; exact Hraw).
  rewrite Z.abs_eq by exact Hraw.
  pose proof (parseFloat_nonneg balanceRaw (decimals cfg) Hraw) as Hx.
  set (x := Js.parseFloat (Js.StrFixed false balanceRaw (decimals cfg))) in *.
  pose proof (nonneg_shape x Hx) as Hshape.
  unfold Js.toFixedDigits.
  destruct (Prim2SF x) as [sx | sx | | sx mx ex] eqn:Ex; try contradiction.
  - reflexivity.
  - subst sx. reflexivity.
  - subst sx. destruct (1e21 <=? Js.abs x)%float.
    + exact Hx.
    + apply parseFloat_nonneg, nearestScaled_nonneg.
Qed.

(** ** The balance of an entry *)

(** On a non-negative number, being at most zero is being zero. *)
Lemma nonneg_leb_zero (b : float) :
  (0 <=? b)%float = true -> (b <=? 0)%float = (b =? 0)%float.
Proof.
  intros Hb. pose proof (nonneg_shape b Hb) as Hshape.
  rewrite leb_spec, eqb_spec. change (Prim2SF 0) with (S754_zero false).
  destruct (Prim2SF b) as [sb | sb | | sb mb eb]; try contradiction;
    try subst sb; reflexivity.
Qed.

Lemma toReadable_text (cfg : Config) (balanceRaw : Z) :
  0 <= balanceRaw ->
  toReadable balanceRaw (decimals cfg) <> Js.StrNaN.
Proof.
  intros Hraw. unfold toReadable.
  replace (balanceRaw <? 0) with false by (symmetry; apply Z.ltb_ge; exact Hraw).
  rewrite Z.abs_eq by exact Hraw.
  pose proof (parseFloat_nonneg balanceRaw (decimals cfg) Hraw) as Hx.
  set (x := Js.parseFloat (Js.StrFixed false balanceRaw (decimals cfg))) in *.
  pose proof (nonneg_shape x Hx) as Hshape.
  unfold Js.toFixedDigits.
  destruct (Prim2SF x) as [sx | sx | | sx mx ex]; try contradiction; try discriminate.
  destruct (1e21 <=? Js.abs x)%float; discriminate.
Qed.

(** X8.  The balance the planner compares, read back from the six-decimal
    text of an on-chain balance (a non-negative integer of base units, with
    any number of decimals), is always a number: it is never NaN and never
    negative, its text is never the text NaN, it is zero when the on-chain
    balance is zero, and the entry is skipped for a zero balance exactly when
    it is zero.  So the comparisons of the validation always compare
    numbers. *)
Theorem balance_is_a_number (cfg : Config) (balanceRaw : Z) :
  0 <= balanceRaw ->
  Js.isNaN (balanceOfEntry cfg balanceRaw) = false
  /\ (0 <=? balanceOfEntry cfg balanceRaw)%float = true
  /\ toReadable balanceRaw (decimals cfg) <> Js.StrNaN
  /\ (balanceRaw = 0 -> balanceOfEntry cfg balanceRaw = 0%float)
  /\ (forall a,
        validate (balanceOfEntry cfg balanceRaw) a = Skip zero_balance
        <-> (balanceOfEntry cfg balanceRaw =? 0)%float = true).
Proof.
  intros Hraw.
  pose proof (balanceOfEntry_nonneg cfg balanceRaw Hraw) as Hb.
  split; [apply (leb_numbers _ _ Hb)|]. split; [exact Hb|].
  split; [apply toReadable_text, Hraw|]. split.
  - intros ->. reflexivity.
  - intros a. rewrite validate_zero, nonneg_leb_zero by exact Hb. reflexivity.
Qed.

(** An instance: 1.234567 units of a token with six decimals. *)
Lemma balance_is_a_number_witness :
  Js.isNaN (balanceOfEntry Sim.halfOfToken 1234567) = false
  /\ (0 <=? balanceOfEntry Sim.halfOfToken 1234567)%float = true
  /\ toReadable 1234567 (decimals Sim.halfOfToken) <> Js.StrNaN
  /\ (1234567 = 0 -> balanceOfEntry Sim.halfOfToken 1234567 = 0%float)
  /\ (forall a,
        validate (balanceOfEntry Sim.halfOfToken 1234567) a = Skip zero_balance
        <-> (balanceOfEntry Sim.halfOfToken 1234567 =? 0)%float = true).
Proof.
  apply (balance_is_a_number Sim.halfOfToken 1234567). lia.
Defined.

Lemma ltb_irrefl (x : float) : (x <? x)%float = false.
Proof.
  rewrite ltb_spec. unfold SFltb.
  destruct (Prim2SF x) as [sx | [|] | | [|] mx ex]; cbn [SFcompare];
    try reflexivity; try (destruct sx; reflexivity).
  - rewrite Z.compare_refl.
    change (Pos.compare_cont Eq mx mx) with (mx ?= mx)%positive.
    rewrite Pos.compare_refl. reflexivity.
  - rewrite Z.compare_refl.
    change (Pos.compare_cont Eq mx mx) with (mx ?= mx)%positive.
    rewrite Pos.compare_refl. reflexivity.
Qed.

Section ModeExtras.

Variable World : Type.
Variable mathRandom : World -> Js.num * World.
Variable newWallet : string -> Res Address.
Variable getBalance : Address -> World -> Res Z * World.
Variable balanceOf : string -> Address -> World -> Res Z * World.

Local Abbreviation computeAmount := (computeAmount World mathRandom).
Local Abbreviation queryBalance := (queryBalance World getBalance balanceOf).
Local Abbreviation planEntry :=
  (planEntry World mathRandom newWallet getBalance balanceOf).

(** X9.  In mode all the amount is the balance itself: an entry whose
    on-chain balance is a non-negative integer is planned with the balance of
    its preview line as amount, unless that balance is zero, in which case it
    is skipped for a zero balance; in this mode no entry is skipped for an
    insufficient balance. *)
Theorem all_mode_sends_balance (cfg : Config) (i : Z) (line : string)
    (acc : PlanState) (s s1 : State World) (toText : string) (fromAddr : Address)
    (balanceRaw : Z) :
  transferMode cfg = "all" ->
  nth_error (Js.split ":" line) 1 = Some toText ->
  newWallet (Js.trim (nth 0 (Js.split ":" line) "")) = Ok fromAddr ->
  queryBalance cfg fromAddr s = (Ok balanceRaw, s1) ->
  0 <= balanceRaw ->
  planEntry cfg i line acc s
  = (Ok (recordVerdict cfg i (nth 0 (Js.split ":" line) "") fromAddr
           (toReadable balanceRaw (decimals cfg)) (Js.trim toText)
           (balanceOfEntry cfg balanceRaw)
           (if (balanceOfEntry cfg balanceRaw =? 0)%float
            then Skip zero_balance else Accept) acc), s1).
Proof.
  intros Hmode Hto Hwallet Hquery Hraw.
  assert (Hamount : computeAmount cfg (balanceOfEntry cfg balanceRaw) s1
                    = (Ok (balanceOfEntry cfg balanceRaw), s1)).
  { unfold computeAmount. rewrite Hmode. reflexivity. }
  rewrite (planEntry_recorded World mathRandom newWallet getBalance balanceOf
             cfg i line acc s s1 s1 toText fromAddr balanceRaw _
             Hto Hwallet Hquery Hamount).
  f_equal. f_equal. f_equal.
  pose proof (balanceOfEntry_nonneg cfg balanceRaw Hraw) as Hb.
  unfold validate. rewrite (nonneg_leb_zero _ Hb), ltb_irrefl.
  destruct (_ =? 0)%float; reflexivity.
Qed.

End ModeExtras.

(** An instance: half a coin. *)
Lemma all_mode_sends_balance_witness :
  planEntry Sim.World Sim.mathRandom Sim.newWallet Sim.getBalance Sim.balanceOf
    (Sim.config "all" 0%float 0%float) 0 "k2:d2" initialPlan
    (Sim.start (Sim.chain [] []))
  = (Ok (recordVerdict (Sim.config "all" 0%float 0%float) 0
           (nth 0 (Js.split ":" "k2:d2") "") "0xk2"
           (toReadable (Sim.coin / 2) (decimals (Sim.config "all" 0%float 0%float)))
           (Js.trim "d2")
           (balanceOfEntry (Sim.config "all" 0%float 0%float) (Sim.coin / 2))
           (if (balanceOfEntry (Sim.config "all" 0%float 0%float) (Sim.coin / 2) =? 0)%float
            then Skip zero_balance else Accept) initialPlan),
     Sim.start (Sim.chain [] [])).
Proof.
  apply (all_mode_sends_balance Sim.World Sim.mathRandom Sim.newWallet
           Sim.getBalance Sim.balanceOf (Sim.config "all" 0%float 0%float)
           0 "k2:d2" initialPlan (Sim.start (Sim.chain [] []))
           (Sim.start (Sim.chain [] [])) "d2" "0xk2" (Sim.coin / 2));
    vm_compute; solve [reflexivity | discriminate].
Defined.

(** ** The planned amounts and the balances read *)

Section LedgerExtras.

Variable World : Type.
Variable mathRandom : World -> Js.num * World.
Variable newWallet : string -> Res Address.
Variable getBalance : Address -> World -> Res Z * World.
Variable balanceOf : string -> Address -> World -> Res Z * World.

Local Abbreviation previewTransfers :=
  (previewTransfers World mathRandom newWallet getBalance balanceOf).
Local Abbreviation plannerRan :=
  (plannerRun World mathRandom newWallet getBalance balanceOf).

(** C10, as the code has it.  Every planned transfer comes from an entry of
    the ledger that the validation accepted: its amount was computed from
    the balance that the query made for its address returned in that run,
    rounded to six decimals, and against that balance [b] it passed both
    tests, neither [b <= 0], nor [amount <= 0], nor [amount > b].  So a
    planned amount that is a number satisfies [0 < amount <= b], the balance
    read being, as on the chain, not negative; no entry with an amount that
    is not positive or exceeds the balance enters the plan. *)
Theorem planned_amounts_within_queried_balance (cfg : Config)
    (rawLines : list string) (s s1 : State World) (plan : list PlannedTransfer)
    (skippedLines : list ReportLine) :
  previewTransfers cfg rawLines s = (Ok (plan, skippedLines), s1) ->
  exists outcomes s0,
    plannerRan cfg (nonBlankLines rawLines) s outcomes s0
    /\ Forall2
         (fun p o =>
            exists balanceRaw,
              o = Recorded (privateKey p) (from p) balanceRaw (to p) (amount p)
              /\ (balanceOfEntry cfg balanceRaw <=? 0)%float = false
              /\ (amount p <=? 0)%float = false
              /\ (balanceOfEntry cfg balanceRaw <? amount p)%float = false
              /\ (Js.isNaN (amount p) = false ->
                  0 <= balanceRaw ->
                  (0 <? amount p)%float = true
                  /\ (amount p <=? balanceOfEntry cfg balanceRaw)%float = true))
         plan (filter (isAccepted cfg) outcomes).
Proof.
  intros Hrun.
  destruct (previewTransfers_ledger World mathRandom newWallet getBalance balanceOf
              cfg rawLines s s1 plan skippedLines Hrun)
    as (outcomes & s0 & Hledger & -> & _ & _).
  exists outcomes, s0. split; [exact Hledger|].
  clear. induction outcomes as [|o rest IH]; [constructor|].
  destruct o as [fromAddr | key fromAddr balanceRaw toText a];
    cbn [plannedEntries filter isAccepted]; [exact IH|].
  destruct (validate (balanceOfEntry cfg balanceRaw) a) eqn:Hv; [exact IH|].
  constructor; [|exact IH].
  exists balanceRaw. cbn [privateKey from to amount]. split; [reflexivity|].
  apply validate_accept in Hv. destruct Hv as (Hb & Ha & Hab).
  split; [exact Hb|]. split; [exact Ha|]. split; [exact Hab|].
  intros Hna Hraw.
  assert (Hnb : Js.isNaN (balanceOfEntry cfg balanceRaw) = false).
  { apply (leb_numbers 0 _). apply balanceOfEntry_nonneg. exact Hraw. }
  split.
  - rewrite (leb_ltb a 0 Hna isNaN_zero) in Ha.
    destruct (0 <? a)%float; [reflexivity | discriminate].
  - rewrite (leb_ltb a _ Hna Hnb), Hab. reflexivity.
Qed.

End LedgerExtras.

(** An instance: of two lines, the first is planned and the second is
    skipped. *)
Lemma planned_amounts_within_queried_balance_witness :
  exists outcomes s0,
    plannerRun Sim.World Sim.mathRandom Sim.newWallet Sim.getBalance Sim.balanceOf
      Sim.fixedOne (nonBlankLines ["k1:d1"; "k2:d2"])
      (Sim.start (Sim.chain [] [])) outcomes s0
    /\ Forall2
         (fun p o =>
            exists balanceRaw,
              o = Recorded (privateKey p) (from p) balanceRaw (to p) (amount p)
              /\ (balanceOfEntry Sim.fixedOne balanceRaw <=? 0)%float = false
              /\ (amount p <=? 0)%float = false
              /\ (balanceOfEntry Sim.fixedOne balanceRaw <? amount p)%float = false
              /\ (Js.isNaN (amount p) = false ->
                  0 <= balanceRaw ->
                  (0 <? amount p)%float = true
                  /\ (amount p <=? balanceOfEntry Sim.fixedOne balanceRaw)%float = true))
         [{| privateKey := "k1"; from := "0xk1"; to := "d1"; amount := 1%float |}]
         (filter (isAccepted Sim.fixedOne) outcomes).
Proof.
  apply (planned_amounts_within_queried_balance Sim.World Sim.mathRandom Sim.newWallet
           Sim.getBalance Sim.balanceOf Sim.fixedOne
           ["k1:d1"; "k2:d2"] (Sim.start (Sim.chain [] []))
           {| world := Sim.chain [] [];
              trace := [EvWritePreview
                          [HeaderLine;
                           EntryLine 1 "0xk1" (Js.StrFixed false 5000000 6) "d1"
                                     "Native" (Js.StrFixed false 1000000 6) None]] |}
           _ [EntryLine 2 "0xk2" (Js.StrFixed false 500000 6) "d2" "Native"
                          (Js.StrFixed false 1000000 6) (Some insufficient_balance)]).
  vm_compute. reflexivity.
Defined.

(** ** The amount of mode percent *)

(** Rounding an exact value does not cross a binary64 number above it,
    whatever the exponent of that number. *)
Lemma round_exact_upto (x : positive) (ex : Z) (mh : positive) (eh : Z) :
  valid_binary (S754_finite false mh eh) = true ->
  ex <= eh ->
  Zpos x <= Zpos mh * 2 ^ (eh - ex) ->
  SFleb (binary_round_aux prec emax false (Zpos x) ex loc_Exact)
        (S754_finite false mh eh) = true.
Proof.
  intros Hvalid Hex Hle.
  destruct (valid_finite _ _ _ Hvalid) as [Hcan Heh].
  destruct (round_exact x ex) as (m2 & Hm2 & Hup & Hm153 & He1 & ->).
  rewrite fexp64 in *.
  pose proof (digits2_pos_bounds x) as [Hxlo Hxhi].
  pose proof (digits2_pos_bounds mh) as [Hhlo Hhhi].
  set (d := Zpos (digits2_pos x)) in *. set (dh := Zpos (digits2_pos mh)) in *.
  set (n := Z.max (Z.max (d + ex - 53) (-1074) - ex) 0) in *.
  assert (Hmag : d + ex <= dh + eh).
  { assert (2 ^ (d - 1) < 2 ^ (dh + (eh - ex))).
    { rewrite Z.pow_add_r by lia. nia. }
    apply Z.pow_lt_mono_r_iff in H; lia. }
  assert (Hn0 : 0 <= n) by lia.
  assert (Hm1 : 0 <= Zpos x / 2 ^ n) by (apply Z.div_pos; lia).
  assert (He1h : ex + n <= eh) by lia.
  assert (HH : m2 <= Zpos mh * 2 ^ (eh - (ex + n))).
  { assert (Hsplit : Zpos mh * 2 ^ (eh - ex) = Zpos mh * 2 ^ (eh - (ex + n)) * 2 ^ n).
    { rewrite <- Z.mul_assoc, <- Z.pow_add_r by lia. f_equal. f_equal. lia. }
    rewrite Hsplit in Hle.
    set (H := Zpos mh * 2 ^ (eh - (ex + n))) in *.
    assert (Hpn : 0 < 2 ^ n) by lia.
    assert (Hdiv : Zpos x / 2 ^ n <= H).
    { apply Z.div_le_upper_bound; lia. }
    destruct (Z.eq_dec m2 (Zpos x / 2 ^ n + 1)) as [Heq | Hne]; [|lia].
    specialize (Hup Heq).
    assert (Zpos x / 2 ^ n < H); [|lia].
    apply Z.div_lt_upper_bound; [lia|].
    destruct (Z.eq_dec (Zpos x) (2 ^ n * H)) as [Hx | Hx]; [|lia].
    exfalso. apply Hup. rewrite Hx, Z.mul_comm. apply Z.mod_mul. lia. }
  assert (Hmh : Zpos mh < 2 ^ 53).
  { eapply Z.lt_le_trans; [exact Hhhi|]. apply Z.pow_le_mono_r; lia. }
  unfold finish.
  destruct (Z.eqb_spec m2 0) as [_ | Hnz]; [reflexivity|].
  destruct (Z.eqb_spec m2 (2 ^ 53)) as [H53 | Hn53].
  - assert (Hstep : ex + n + 1 <= eh).
    { destruct (Z_le_gt_dec (ex + n + 1) eh) as [|Hgt]; [assumption|].
      exfalso. replace (eh - (ex + n)) with 0 in HH by lia.
      change (2 ^ 0) with 1 in HH. lia. }
    replace (ex + n + 1 <=? 971) with true by (symmetry; apply Z.leb_le; lia).
    apply SFleb_finite.
    destruct (Z.eq_dec (ex + n + 1) eh) as [Heq | Hne]; [right | left; lia].
    split; [exact Heq|].
    replace (eh - (ex + n)) with 1 in HH by lia. change (2 ^ 1) with 2 in HH.
    rewrite Z2Pos.id by lia. change (2 ^ 53) with (2 * 2 ^ 52) in H53. lia.
  - replace (ex + n <=? 971) with true by (symmetry; apply Z.leb_le; lia).
    apply SFleb_finite.
    destruct (Z.eq_dec (ex + n) eh) as [Heq | Hne]; [right | left; lia].
    split; [exact Heq|].
    replace (eh - (ex + n)) with 0 in HH by lia. change (2 ^ 0) with 1 in HH.
    rewrite Z2Pos.id by lia. lia.
Qed.

Lemma Prim2SF_infinity : Prim2SF infinity = S754_infinity false.
Proof. reflexivity. Qed.

(** A share of at most the whole of a finite non-negative number is a
    non-negative number that is not above it. *)
Lemma share_within (b p : float) :
  (0 <=? b)%float = true -> (b <? infinity)%float = true ->
  (0 <=? p)%float = true -> (p <=? 1)%float = true ->
  (0 <=? b * p)%float = true /\ (b * p <=? b)%float = true.
Proof.
  intros Hb Hfin Hp Hp1.
  pose proof (nonneg_shape b Hb) as Hbs. pose proof (nonneg_shape p Hp) as Hps.
  pose proof (Prim2SF_valid b) as Hbv. pose proof (Prim2SF_valid p) as Hpv.
  rewrite !leb_spec, mul_spec. rewrite ltb_spec, Prim2SF_infinity in Hfin.
  rewrite leb_spec, Prim2SF_1 in Hp1.
  change (Prim2SF 0) with (S754_zero false).
  destruct (Prim2SF b) as [sb | sb | | sb mb eb]; try contradiction.
  - destruct (Prim2SF p) as [sp | sp | | sp mp ep]; try contradiction.
    + destruct sb, sp; split; reflexivity.
    + subst sp. discriminate.
    + subst sp. destruct sb; split; reflexivity.
  - subst sb. discriminate.
  - subst sb.
    destruct (Prim2SF p) as [sp | sp | | sp mp ep]; try contradiction.
    + destruct sp; split; reflexivity.
    + subst sp. discriminate.
    + subst sp. cbn [SFmul xorb]. split; [apply round_nonneg; lia|].
      apply round_exact_upto; [exact Hbv | |].
      * apply SFleb_finite_inv in Hp1. lia.
      * apply SFleb_finite_inv in Hp1.
        destruct (valid_finite _ _ _ Hpv) as [Hcan _].
        pose proof (digits2_pos_bounds mp) as [_ Hhi].
        set (dp := Zpos (digits2_pos mp)) in *.
        assert (Hmp : Zpos mp <= 2 ^ (- ep)).
        { destruct Hp1 as [Hlt | [-> Hle]].
          - assert (2 ^ dp <= 2 ^ (- ep)) by (apply Z.pow_le_mono_r; lia). lia.
          - exact Hle. }
        replace (eb - (eb + ep)) with (- ep) by lia.
        rewrite Pos2Z.inj_mul. nia.
Qed.

Section PercentExtras.

Variable World : Type.
Variable mathRandom : World -> Js.num * World.

Local Abbreviation computeAmount := (computeAmount World mathRandom).

(** X16. In mode percent with a share between 0 and 1, the amount of an
    entry whose balance is a finite non-negative number is the balance
    times the share, and it lies between zero and the balance.  The amount
    never exceeds the balance, so the checks skip the entry only for a zero
    balance (zero_balance) or a zero amount (insufficient_balance) and
    accept it otherwise. *)
Theorem percent_amount_within_balance (cfg : Config) (b : Js.num) (s : State World) :
  transferMode cfg = "percent" ->
  (0 <=? percent cfg)%float = true -> (percent cfg <=? 1)%float = true ->
  (0 <=? b)%float = true -> (b <? infinity)%float = true ->
  computeAmount cfg b s = (Ok (b * percent cfg)%float, s)
  /\ (0 <=? b * percent cfg)%float = true
  /\ (b * percent cfg <=? b)%float = true
  /\ validate b (b * percent cfg)%float
     = if (b =? 0)%float then Skip zero_balance
       else if (b * percent cfg =? 0)%float then Skip insufficient_balance
       else Accept.
Proof.
  intros Hmode Hp0 Hp1 Hb Hfin.
  destruct (share_within b (percent cfg) Hb Hfin Hp0 Hp1) as [Ha Hab].
  split; [unfold computeAmount; rewrite Hmode; reflexivity|].
  split; [exact Ha|]. split; [exact Hab|].
  unfold validate.
  rewrite (nonneg_leb_zero b Hb), (nonneg_leb_zero _ Ha).
  destruct (leb_numbers _ _ Hab) as [Hna Hnb].
  rewrite (leb_ltb _ _ Hna Hnb) in Hab. apply negb_true_iff in Hab. rewrite Hab.
  rewrite orb_false_r. reflexivity.
Qed.

End PercentExtras.

(** An instance: half of 1.234567. *)
Lemma percent_amount_within_balance_witness :
  computeAmount Sim.World Sim.mathRandom Sim.halfOfToken
    (balanceOfEntry Sim.halfOfToken 1234567) (Sim.start (Sim.tokenChain []))
  = (Ok (balanceOfEntry Sim.halfOfToken 1234567 * percent Sim.halfOfToken)%float,
     Sim.start (Sim.tokenChain []))
  /\ (0 <=? balanceOfEntry Sim.halfOfToken 1234567 * percent Sim.halfOfToken)%float = true
  /\ (balanceOfEntry Sim.halfOfToken 1234567 * percent Sim.halfOfToken
      <=? balanceOfEntry Sim.halfOfToken 1234567)%float = true
  /\ validate (balanceOfEntry Sim.halfOfToken 1234567)
       (balanceOfEntry Sim.halfOfToken 1234567 * percent Sim.halfOfToken)%float
     = if (balanceOfEntry Sim.halfOfToken 1234567 =? 0)%float then Skip zero_balance
       else if (balanceOfEntry Sim.halfOfToken 1234567 * percent Sim.halfOfToken =? 0)%float
            then Skip insufficient_balance
            else Accept.
Proof.
  apply (percent_amount_within_balance Sim.World Sim.mathRandom Sim.halfOfToken
           (balanceOfEntry Sim.halfOfToken 1234567) (Sim.start (Sim.tokenChain [])));
    vm_compute; reflexivity.
Defined.

(** ** The pause between two transfers *)

(** After [n] shifts, the round bit is set only when the bits shifted out
    make at least half a unit. *)
Lemma shr_iter_round (m : Z) (r0 s0 : bool) (n : positive) :
  0 <= m ->
  exists r s,
    Pos.iter shr_1 (Build_shr_record m r0 s0) n
    = Build_shr_record (m / 2 ^ Zpos n) r s
    /\ (r = true -> 2 ^ Zpos n <= 2 * (m mod 2 ^ Zpos n)).
Proof.
  intros Hm. revert r0 s0.
  induction n as [|n IH] using Pos.peano_ind; intros r0 s0.
  - exists (Z.odd m), (r0 || s0). cbn [Pos.iter]. rewrite shr_1_nonneg by exact Hm.
    split; [reflexivity|]. intros Hodd.
    change (2 ^ 1) with 2. rewrite Zmod_odd, Hodd. lia.
  - destruct (IH r0 s0) as (r & s & Hn & _).
    exists (Z.odd (m / 2 ^ Zpos n)), (r || s).
    rewrite Pos.iter_succ, Hn, shr_1_nonneg by (apply Z.div_pos; lia).
    rewrite Pos2Z.inj_succ, Z.pow_succ_r, Z.div_div by lia.
    replace (2 ^ Zpos n * 2) with (2 * 2 ^ Zpos n) by lia.
    split; [reflexivity|]. intros Hodd.
    assert (Hp : 0 < 2 ^ Zpos n) by lia.
    replace (2 * 2 ^ Zpos n) with (2 ^ Zpos n * 2) by lia.
    rewrite Z.rem_mul_r by lia.
    rewrite Zmod_odd, Hodd.
    pose proof (Z.mod_pos_bound m (2 ^ Zpos n) Hp). lia.
Qed.

(** Rounding an exact positive value goes up only when the part cut off is
    at least half a unit of the result. *)
Lemma round_exact_half (x : positive) (ex : Z) :
  let n := Z.max (fexp prec emax (Zpos (digits2_pos x) + ex) - ex) 0 in
  exists m2,
    Zpos x / 2 ^ n <= m2 <= Zpos x / 2 ^ n + 1
    /\ (m2 = Zpos x / 2 ^ n + 1 -> 2 ^ n <= 2 * (Zpos x mod 2 ^ n))
    /\ Zpos x / 2 ^ n < 2 ^ 53
    /\ -1074 <= ex + n
    /\ binary_round_aux prec emax false (Zpos x) ex loc_Exact = finish m2 (ex + n).
Proof.
  intros n.
  pose proof (digits2_pos_bounds x) as [Hlo Hhi].
  set (d := Zpos (digits2_pos x)) in *.
  assert (Hdef : n = Z.max (Z.max (d + ex - 53) (-1074) - ex) 0) by reflexivity.
  clearbody n.
  assert (Hn : d - 53 <= n) by lia.
  assert (Hm1 : Zpos x / 2 ^ n < 2 ^ 53).
  { apply Z.div_lt_upper_bound; [lia|].
    rewrite <- Z.pow_add_r by lia.
    eapply Z.lt_le_trans; [exact Hhi|]. apply Z.pow_le_mono_r; lia. }
  assert (Hm0 : 0 <= Zpos x / 2 ^ n) by (apply Z.div_pos; lia).
  unfold binary_round_aux, shr_fexp at 1. cbn [shr_record_of_loc Zdigits2].
  rewrite fexp64. fold d. unfold shr at 1.
  destruct (Z.max (d + ex - 53) (-1074) - ex) as [|p|p] eqn:E.
  - exists (Zpos x). replace n with 0 in * by lia.
    change (2 ^ 0) with 1 in *. rewrite Z.div_1_r in *. rewrite Z.add_0_r.
    cbn [shr_m loc_of_shr_record round_nearest_even].
    rewrite (finish_spec (Zpos x) ex) by lia.
    repeat split; try lia.
  - replace n with (Zpos p) in * by lia.
    rewrite iter_pos_iter.
    destruct (shr_iter_round (Zpos x) false false p ltac:(lia)) as (r & s & -> & Hflag).
    set (m1 := Zpos x / 2 ^ Zpos p) in *.
    remember (round_nearest_even (shr_m (Build_shr_record m1 r s))
                (loc_of_shr_record (Build_shr_record m1 r s))) as m2 eqn:Hm2.
    assert (Hround : m1 <= m2 <= m1 + 1 /\ (m2 = m1 + 1 -> r = true)).
    { subst m2. destruct r, s; cbn [shr_m loc_of_shr_record round_nearest_even];
        try destruct (Z.even m1); split; try lia; auto; intros; lia. }
    destruct Hround as [Hbounds Hup].
    exists m2. rewrite (finish_spec m2 (ex + Zpos p)) by lia.
    repeat split; try lia. intros Heq. apply Hflag, Hup, Heq.
  - exists (Zpos x). replace n with 0 in * by lia.
    change (2 ^ 0) with 1 in *. rewrite Z.div_1_r in *. rewrite Z.add_0_r.
    cbn [shr_m loc_of_shr_record round_nearest_even].
    rewrite (finish_spec (Zpos x) ex) by lia.
    repeat split; try lia.
Qed.

(** Rounding to nearest: an exact value below the middle of a binary64
    number and the next one rounds to that number or below. *)
Lemma round_exact_below_middle (x : positive) (ex : Z) (mh : positive) (eh : Z) :
  valid_binary (S754_finite false mh eh) = true ->
  ex <= eh ->
  2 * Zpos x < (2 * Zpos mh + 1) * 2 ^ (eh - ex) ->
  SFleb (binary_round_aux prec emax false (Zpos x) ex loc_Exact)
        (S754_finite false mh eh) = true.
Proof.
  intros Hvalid Hex Hmid.
  destruct (Z_le_gt_dec (Zpos x) (Zpos mh * 2 ^ (eh - ex))) as [Hle | Hgt].
  { apply round_exact_upto; assumption. }
  destruct (valid_finite _ _ _ Hvalid) as [Hcan Heh].
  destruct (round_exact_half x ex) as (m2 & Hm2 & Hup & Hm153 & He1 & ->).
  rewrite fexp64 in *.
  pose proof (digits2_pos_bounds x) as [Hxlo Hxhi].
  pose proof (digits2_pos_bounds mh) as [Hhlo Hhhi].
  set (d := Zpos (digits2_pos x)) in *. set (dh := Zpos (digits2_pos mh)) in *.
  set (n := Z.max (Z.max (d + ex - 53) (-1074) - ex) 0) in *.
  set (k := eh - ex) in *.
  assert (Hk : 0 <= k) by lia.
  assert (Hpk : 0 < 2 ^ k) by (apply Z.pow_pos_nonneg; lia).
  assert (Hk1 : 1 <= k).
  { destruct (Z.eq_dec k 0) as [Hz | Hnz]; [|lia].
    exfalso. rewrite Hz in *. change (2 ^ 0) with 1 in *. lia. }
  assert (Hd : d = dh + k).
  { assert (H1 : 2 ^ (dh - 1 + k) < 2 ^ d).
    { rewrite Z.pow_add_r by lia. nia. }
    assert (H2 : 2 ^ (d - 1) < 2 ^ (dh + k)).
    { rewrite Z.pow_add_r by lia. nia. }
    apply Z.pow_lt_mono_r_iff in H1; [|lia|lia].
    apply Z.pow_lt_mono_r_iff in H2; [|lia|lia]. lia. }
  assert (Hn : n = k) by lia.
  rewrite Hn in *.
  assert (Hdiv : Zpos x / 2 ^ k = Zpos mh).
  { symmetry. apply (Z.div_unique (Zpos x) (2 ^ k) (Zpos mh) (Zpos x - Zpos mh * 2 ^ k));
      [left; nia | lia]. }
  assert (Hmod : Zpos x mod 2 ^ k = Zpos x - Zpos mh * 2 ^ k).
  { symmetry. apply (Z.mod_unique (Zpos x) (2 ^ k) (Zpos mh) (Zpos x - Zpos mh * 2 ^ k));
      [left; nia | lia]. }
  rewrite Hdiv, Hmod in *.
  assert (Hm2' : m2 = Zpos mh).
  { destruct (Z.eq_dec m2 (Zpos mh + 1)) as [Heq | Hne]; [|lia].
    specialize (Hup Heq). nia. }
  rewrite Hm2'. replace (ex + k) with eh by lia.
  unfold finish.
  replace (Zpos mh =? 0) with false by reflexivity.
  replace (Zpos mh =? 2 ^ 53) with false by (symmetry; apply Z.eqb_neq; lia).
  replace (eh <=? 971) with true by (symmetry; apply Z.leb_le; lia).
  apply SFleb_finite. right. split; [reflexivity|]. rewrite Z2Pos.id by lia. lia.
Qed.

Lemma Prim2SF_3 : Prim2SF 3 = S754_finite false 6755399441055744 (-51).
Proof. reflexivity. Qed.

(** Three times a draw of [[0, 1)] is below 3: at most the number just
    below it. *)
Lemma tripled_draw (r : float) :
  (0 <=? r)%float = true -> (r <? 1)%float = true ->
  (0 <=? r * 3)%float = true
  /\ SFleb (Prim2SF (r * 3)) (S754_finite false 6755399441055743 (-51)) = true.
Proof.
  intros Hlo Hhi. apply nonneg_shape in Hlo.
  rewrite ltb_spec in Hhi. rewrite leb_spec, mul_spec.
  pose proof (Prim2SF_valid r) as Hvalid.
  rewrite Prim2SF_0, Prim2SF_3. rewrite Prim2SF_1 in Hhi.
  destruct (Prim2SF r) as [sr | sr | | sr mr er]; try contradiction.
  - destruct sr; split; reflexivity.
  - subst sr. discriminate.
  - subst sr. cbn [SFmul xorb].
    destruct (valid_finite _ _ _ Hvalid) as [Hcan _].
    pose proof (digits2_pos_bounds mr) as [Hmlo Hmhi].
    set (d := Zpos (digits2_pos mr)) in *.
    apply SFltb_finite_inv in Hhi.
    assert (Hm53 : Zpos mr < 2 ^ 53).
    { eapply Z.lt_le_trans; [exact Hmhi|]. apply Z.pow_le_mono_r; lia. }
    split; [apply round_nonneg; lia|].
    apply round_exact_below_middle; [reflexivity | lia |].
    replace (-51 - (er + -51)) with (- er) by lia.
    rewrite Pos2Z.inj_mul.
    destruct Hhi as [Hlt | [-> Hm]].
    + assert (2 ^ 53 <= 2 ^ (- er)) by (apply Z.pow_le_mono_r; lia).
      change (2 ^ 53) with 9007199254740992 in *. nia.
    + change (2 ^ (- -52)) with 4503599627370496. lia.
Qed.

Lemma valid_below_4 : valid_binary (S754_finite false 9007199254740991 (-51)) = true.
Proof. reflexivity. Qed.

Lemma valid_1 : valid_binary (S754_finite false 4503599627370496 (-52)) = true.
Proof. reflexivity. Qed.

(** One more than a non-negative number below 3 is a number of [[1, 4)]. *)
Lemma shifted_by_one (y : float) :
  (0 <=? y)%float = true ->
  SFleb (Prim2SF y) (S754_finite false 6755399441055743 (-51)) = true ->
  SFleb (S754_finite false 4503599627370496 (-52)) (Prim2SF (y + 1)) = true
  /\ SFleb (Prim2SF (y + 1)) (S754_finite false 9007199254740991 (-51)) = true.
Proof.
  intros Hlo Hhi. apply nonneg_shape in Hlo.
  rewrite add_spec.
  pose proof (Prim2SF_valid y) as Hvalid.
  rewrite Prim2SF_1.
  destruct (Prim2SF y) as [sy | sy | | sy my ey]; try contradiction.
  - destruct sy; split; reflexivity.
  - subst sy. discriminate.
  - subst sy. apply SFleb_finite_inv in Hhi.
    destruct (valid_finite _ _ _ Hvalid) as [Hcan _].
    pose proof (digits2_pos_bounds my) as [Hmlo Hmhi].
    set (d := Zpos (digits2_pos my)) in *.
    assert (Hey : ey <= -51) by lia.
    assert (Hm53 : Zpos my < 2 ^ 53).
    { eapply Z.lt_le_trans; [exact Hmhi|]. apply Z.pow_le_mono_r; lia. }
    unfold SF64add. cbn [SFadd cond_Zopp].
    set (e0 := Z.min ey (-52)).
    assert (He0 : e0 <= ey /\ e0 <= -52) by (unfold e0; lia).
    destruct (shl_align_spec my ey e0) as [_ Ha].
    destruct (shl_align_spec 4503599627370496 (-52) e0) as [_ Hb].
    replace (Z.min ey e0) with e0 in Ha by lia.
    replace (Z.min (-52) e0) with e0 in Hb by lia.
    set (a := fst (shl_align my ey e0)) in *.
    set (b := fst (shl_align 4503599627370496 (-52) e0)) in *.
    change (Zpos a + Zpos b) with (Zpos (a + b)).
    cbn [binary_normalize]. unfold binary_round.
    destruct (shl_align_spec (a + b) e0
                (fexp prec emax (Zpos (digits2_pos (a + b)) + e0))) as [Hez Hmz].
    destruct (shl_align (a + b) e0
                (fexp prec emax (Zpos (digits2_pos (a + b)) + e0))) as [mz ez].
    cbn [fst snd] in Hez, Hmz. rewrite <- Hez in Hmz.
    assert (Hsum : Zpos (a + b)
                   = Zpos my * 2 ^ (ey - e0) + 4503599627370496 * 2 ^ (-52 - e0)).
    { rewrite Pos2Z.inj_add, Ha, Hb. reflexivity. }
    clearbody a b e0.
    assert (Hez' : ez <= e0) by lia.
    assert (Hp1 : 0 < 2 ^ (-52 - e0)) by (apply Z.pow_pos_nonneg; lia).
    assert (Hp2 : 0 < 2 ^ (e0 - ez)) by (apply Z.pow_pos_nonneg; lia).
    assert (Hp3 : 0 < 2 ^ (ey - e0)) by (apply Z.pow_pos_nonneg; lia).
    split.
    + apply round_exact_ge; [exact valid_1 | lia |].
      replace (-52 - ez) with ((-52 - e0) + (e0 - ez)) by lia.
      rewrite Z.pow_add_r by lia. rewrite Hmz, Hsum.
      nia.
    + apply round_exact_upto; [exact valid_below_4 | lia |].
      replace (-51 - ez) with ((-51 - e0) + (e0 - ez)) by lia.
      rewrite Z.pow_add_r by lia. rewrite Hmz, Hsum.
      assert (Hsplit : 2 ^ (-51 - e0) = 2 * 2 ^ (-52 - e0)).
      { replace (-51 - e0) with (Z.succ (-52 - e0)) by lia.
        rewrite Z.pow_succ_r by lia. reflexivity. }
      assert (Hmy : Zpos my * 2 ^ (ey - e0) <= 6755399441055743 * 2 ^ (-51 - e0)).
      { destruct Hhi as [Hlt | [Heq Hle]].
        - assert (Hs2 : 2 ^ (-51 - e0) = 2 ^ (-51 - ey) * 2 ^ (ey - e0)).
          { rewrite <- Z.pow_add_r by lia. f_equal. lia. }
          rewrite Hs2.
          assert (2 ^ 1 <= 2 ^ (-51 - ey)) by (apply Z.pow_le_mono_r; lia).
          change (2 ^ 1) with 2 in *. change (2 ^ 53) with 9007199254740992 in Hm53.
          nia.
        - subst ey. nia. }
      rewrite Hsplit in *. nia.
Qed.

(** The floor of a number of [[1, 4)] is 1, 2 or 3. *)
Lemma floor_small (z : float) :
  SFleb (S754_finite false 4503599627370496 (-52)) (Prim2SF z) = true ->
  SFleb (Prim2SF z) (S754_finite false 9007199254740991 (-51)) = true ->
  exists k, Js.floor z = Js.ofZ k /\ 1 <= k <= 3.
Proof.
  intros Hlo Hhi.
  pose proof (Prim2SF_valid z) as Hvalid.
  unfold Js.floor.
  destruct (Prim2SF z) as [sz | sz | | sz mz ez]; try discriminate.
  - destruct sz; discriminate.
  - pose proof (SFleb_finite_sign _ _ _ _ _ Hlo) as ->.
    apply SFleb_finite_inv in Hlo. apply SFleb_finite_inv in Hhi.
    destruct (valid_finite _ _ _ Hvalid) as [Hcan _].
    pose proof (digits2_pos_bounds mz) as [Hmlo Hmhi].
    set (d := Zpos (digits2_pos mz)) in *.
    assert (Hd : d = 53) by lia.
    rewrite Hd in Hmlo, Hmhi.
    change (2 ^ (53 - 1)) with 4503599627370496 in Hmlo.
    change (2 ^ 53) with 9007199254740992 in Hmhi.
    replace (0 <=? ez) with false by (symmetry; apply Z.leb_gt; lia).
    exists (Z.shiftr (Zpos mz) (- ez)). split; [reflexivity|].
    rewrite Z.shiftr_div_pow2 by lia.
    destruct (Z.eq_dec ez (-52)) as [-> | Hne].
    + change (2 ^ (- -52)) with 4503599627370496.
      assert (Zpos mz / 4503599627370496 < 2) by (apply Z.div_lt_upper_bound; lia).
      assert (1 <= Zpos mz / 4503599627370496) by (apply Z.div_le_lower_bound; lia).
      lia.
    + replace ez with (-51) in * by lia. change (2 ^ (- -51)) with 2251799813685248.
      assert (2 <= Zpos mz / 2251799813685248) by (apply Z.div_le_lower_bound; lia).
      assert (Zpos mz / 2251799813685248 < 4) by (apply Z.div_lt_upper_bound; lia).
      lia.
Qed.

Section DelayExtras.

Variable World : Type.
Variable mathRandom : World -> Js.num * World.

(** X17. With the default bounds (DELAY_MIN 1, DELAY_MAX 3) the pause
    between two transfers is 1000, 2000 or 3000 milliseconds, whatever
    number of [[0, 1)] the generator draws: the pause consumes one draw,
    sleeps once and never throws. *)
Theorem default_delay_bounds (cfg : Config) (s : State World) (r : Js.num) (w : World) :
  delayMin cfg = 1%float -> delayMax cfg = 3%float ->
  mathRandom (world s) = (r, w) ->
  (0 <=? r)%float = true -> (r <? 1)%float = true ->
  exists ms,
    randomDelay World mathRandom cfg s
    = (Ok tt, {| world := w; trace := trace s ++ [EvSleep ms] |})
    /\ (ms = 1000%float \/ ms = 2000%float \/ ms = 3000%float).
Proof.
  intros Hmin Hmax Hdraw Hlo Hhi.
  unfold randomDelay, bind, random, emit. rewrite Hdraw, Hmin, Hmax.
  cbn [world trace].
  change (3 - 1 + 1)%float with 3%float.
  eexists. split; [reflexivity|].
  destruct (tripled_draw r Hlo Hhi) as [Hy0 Hy3].
  destruct (shifted_by_one _ Hy0 Hy3) as [Hz1 Hz4].
  destruct (floor_small _ Hz1 Hz4) as (k & -> & Hk).
  assert (Hcases : k = 1 \/ k = 2 \/ k = 3) by lia.
  destruct Hcases as [-> | [-> | ->]]; [left | right; left | right; right];
    vm_compute; reflexivity.
Qed.

End DelayExtras.

(** An instance: the draw 0.5. *)
Lemma default_delay_bounds_witness :
  exists ms,
    randomDelay Sim.World Sim.mathRandom Sim.fixedOne (Sim.start (Sim.chain [0.5%float] []))
    = (Ok tt, {| world := Sim.chain [] []; trace := [] ++ [EvSleep ms] |})
    /\ (ms = 1000%float \/ ms = 2000%float \/ ms = 3000%float).
Proof.
  apply (default_delay_bounds Sim.World Sim.mathRandom Sim.fixedOne
           (Sim.start (Sim.chain [0.5%float] [])) 0.5%float (Sim.chain [] []));
    reflexivity.
Defined.

(** ** The amount of mode range, whatever the number of decimals *)

(** *** Rounding between two binary64 numbers *)






(** *** The steps of [randomAmount] on a factor *)
















Section RangeClaim.

Variable World : Type.
Variable mathRandom : World -> Js.num * World.

Local Abbreviation computeAmount := (computeAmount World mathRandom).


End RangeClaim.



(** ** The lines of the address file *)

Lemma chars_app (a b : string) :
  Js.chars (a ++ b)%string = Js.chars a ++ Js.chars b.
Proof.
  induction a as [|c a IH]; [reflexivity|].
  cbn [append]. unfold Js.chars in *. cbn [list_ascii_of_string app]. rewrite IH.
  reflexivity.
Qed.

Lemma splitLinesChars_plain (p : list ascii) :
  plainChars p = true -> splitLinesChars p = [p].
Proof.
  induction p as [|c p IH]; [reflexivity|].
  cbn [plainChars forallb]. intros H. apply andb_true_iff in H. destruct H as [Hc Hp].
  apply andb_true_iff in Hc. destruct Hc as [Hlf Hcr].
  apply negb_true_iff in Hlf, Hcr.
  cbn [splitLinesChars]. rewrite Hlf, Hcr. cbn [andb].
  destruct p as [|c' p]; [reflexivity|].
  rewrite (IH Hp). reflexivity.
Qed.

Lemma splitLinesChars_LF (p rest : list ascii) :
  plainChars p = true ->
  splitLinesChars (p ++ LF :: rest) = p :: splitLinesChars rest.
Proof.
  induction p as [|c p IH]; [reflexivity|].
  cbn [plainChars forallb]. intros H. apply andb_true_iff in H. destruct H as [Hc Hp].
  apply andb_true_iff in Hc. destruct Hc as [Hlf Hcr].
  apply negb_true_iff in Hlf, Hcr.
  cbn [app splitLinesChars]. rewrite Hlf, Hcr. cbn [andb].
  specialize (IH Hp).
  destruct (p ++ LF :: rest) as [|c' l] eqn:E; [destruct p; discriminate|].
  rewrite IH. reflexivity.
Qed.

Lemma splitLinesChars_CRLF (p rest : list ascii) :
  plainChars p = true ->
  splitLinesChars (p ++ CR :: LF :: rest) = p :: splitLinesChars rest.
Proof.
  induction p as [|c p IH]; [reflexivity|].
  cbn [plainChars forallb]. intros H. apply andb_true_iff in H. destruct H as [Hc Hp].
  apply andb_true_iff in Hc. destruct Hc as [Hlf Hcr].
  apply negb_true_iff in Hlf, Hcr.
  cbn [app splitLinesChars]. rewrite Hlf, Hcr. cbn [andb].
  specialize (IH Hp).
  destruct (p ++ CR :: LF :: rest) as [|c' l] eqn:E; [destruct p; discriminate|].
  rewrite IH. reflexivity.
Qed.

(** The lines of a text in which each of [ls] is followed by the line end
    [sep], and [tail] comes last. *)
Lemma splitLinesChars_each (sep : string) (ls : list string) (tail : list ascii) :
  sep = lineEndLF \/ sep = lineEndCRLF ->
  Forall (fun l => plainLine l = true) ls ->
  splitLinesChars
    (fold_right (fun l acc => Js.chars l ++ Js.chars sep ++ acc) tail ls)
  = map Js.chars ls ++ splitLinesChars tail.
Proof.
  intros Hsep Hall. induction Hall as [|l ls Hl _ IH]; [reflexivity|].
  cbn [fold_right map app]. rewrite <- IH.
  set (after := fold_right (fun l acc => Js.chars l ++ Js.chars sep ++ acc) tail ls).
  destruct Hsep as [-> | ->].
  - change (Js.chars lineEndLF) with [LF]. cbn [app].
    apply splitLinesChars_LF, Hl.
  - change (Js.chars lineEndCRLF) with [CR; LF]. cbn [app].
    apply splitLinesChars_CRLF, Hl.
Qed.

Lemma chars_concat (sep : string) (ls : list string) (last : string) :
  Js.chars (String.concat sep (ls ++ [last]))
  = fold_right (fun l acc => Js.chars l ++ Js.chars sep ++ acc) (Js.chars last) ls.
Proof.
  induction ls as [|l ls IH]; [reflexivity|].
  cbn [app fold_right]. rewrite <- IH.
  destruct (ls ++ [last]) as [|x xs] eqn:E; [destruct ls; discriminate|].
  cbn [String.concat]. rewrite !chars_app. reflexivity.
Qed.

Lemma map_str_chars (ls : list string) : map Js.str (map Js.chars ls) = ls.
Proof.
  induction ls as [|l ls IH]; [reflexivity|].
  cbn [map]. rewrite str_chars, IH. reflexivity.
Qed.

Lemma splitLines_joined (sep : string) (ls : list string) (last : string) :
  sep = lineEndLF \/ sep = lineEndCRLF ->
  Forall (fun l => plainLine l = true) (ls ++ [last]) ->
  splitLines (String.concat sep (ls ++ [last])) = ls ++ [last]
  /\ splitLines (String.concat sep (ls ++ [last]) ++ sep)%string = ls ++ [last; ""].
Proof.
  intros Hsep Hall. apply Forall_app in Hall. destruct Hall as [Hls Hlast].
  inversion Hlast as [|? ? Hl _]; subst. unfold splitLines. split.
  - rewrite chars_concat, (splitLinesChars_each sep ls _ Hsep Hls).
    rewrite splitLinesChars_plain by exact Hl.
    rewrite map_app, map_str_chars. cbn [map]. rewrite str_chars. reflexivity.
  - rewrite chars_app, chars_concat.
    assert (Hfold : forall tail,
               fold_right (fun l acc => Js.chars l ++ Js.chars sep ++ acc) (Js.chars last) ls
               ++ tail
               = fold_right (fun l acc => Js.chars l ++ Js.chars sep ++ acc)
                   (Js.chars last ++ tail) ls).
    { intros tail. induction ls as [|x xs IHx]; [reflexivity|].
      cbn [fold_right]. rewrite <- !app_assoc. rewrite IHx; [reflexivity|].
      inversion Hls; assumption. }
    rewrite Hfold, (splitLinesChars_each sep ls _ Hsep Hls).
    assert (Hend : splitLinesChars (Js.chars last ++ Js.chars sep) = [Js.chars last; []]).
    { destruct Hsep as [-> | ->].
      - change (Js.chars lineEndLF) with [LF].
        rewrite splitLinesChars_LF by exact Hl. reflexivity.
      - change (Js.chars lineEndCRLF) with [CR; LF].
        rewrite splitLinesChars_CRLF by exact Hl. reflexivity. }
    rewrite Hend, map_app, map_str_chars. cbn [map]. rewrite str_chars. reflexivity.
Qed.

(** X13.  The address file may end its lines with LF or with CR LF: a text
    made of lines that hold neither character, joined by either line end,
    splits back into those lines, so both forms give the planner the same
    lines; and a line end after the last line adds only an empty line,
    which the planner drops with the other blank lines. *)
Theorem line_ends_agree (ls : list string) (last : string) :
  Forall (fun l => plainLine l = true) (ls ++ [last]) ->
  splitLines (String.concat lineEndLF (ls ++ [last])) = ls ++ [last]
  /\ splitLines (String.concat lineEndCRLF (ls ++ [last])) = ls ++ [last]
  /\ linesOf (String.concat lineEndLF (ls ++ [last]) ++ lineEndLF)%string
     = nonBlankLines (ls ++ [last])
  /\ linesOf (String.concat lineEndCRLF (ls ++ [last]) ++ lineEndCRLF)%string
     = nonBlankLines (ls ++ [last]).
Proof.
  intros Hall.
  destruct (splitLines_joined lineEndLF ls last (or_introl eq_refl) Hall) as [H1 H2].
  destruct (splitLines_joined lineEndCRLF ls last (or_intror eq_refl) Hall) as [H3 H4].
  split; [exact H1|]. split; [exact H3|].
  unfold linesOf. rewrite H2, H4.
  assert (Hblank : forall xs : list string, nonBlankLines (xs ++ [last; ""])
                                            = nonBlankLines (xs ++ [last])).
  { intros xs. unfold nonBlankLines. rewrite !filter_app. reflexivity. }
  rewrite Hblank. split; reflexivity.
Qed.

(** An instance: four lines, one of them empty. *)
Lemma line_ends_agree_witness :
  splitLines (String.concat lineEndLF (["k1:d1"; ""; " k2:d2"] ++ ["k3:d3"]))
  = ["k1:d1"; ""; " k2:d2"] ++ ["k3:d3"]
  /\ splitLines (String.concat lineEndCRLF (["k1:d1"; ""; " k2:d2"] ++ ["k3:d3"]))
     = ["k1:d1"; ""; " k2:d2"] ++ ["k3:d3"]
  /\ linesOf (String.concat lineEndLF (["k1:d1"; ""; " k2:d2"] ++ ["k3:d3"])
              ++ lineEndLF)%string
     = nonBlankLines (["k1:d1"; ""; " k2:d2"] ++ ["k3:d3"])
  /\ linesOf (String.concat lineEndCRLF (["k1:d1"; ""; " k2:d2"] ++ ["k3:d3"])
              ++ lineEndCRLF)%string
     = nonBlankLines (["k1:d1"; ""; " k2:d2"] ++ ["k3:d3"]).
Proof.
  apply (line_ends_agree ["k1:d1"; ""; " k2:d2"] "k3:d3").
  repeat constructor.
Defined.

(** * The balance query script *)

Section BalanceRetryFacts.

Variable World : Type.
Variable A : Type.
Variable fn : World -> Res A * World.
Variable retries delayMs : Z.

Local Abbreviation loop := (Balances.retryFrom fn retries delayMs).

Lemma attemptLog_more (n : nat) :
  Balances.attemptLog delayMs (S (S n))
  = Balances.Query :: Balances.Delay delayMs :: Balances.attemptLog delayMs (S n).
Proof. reflexivity. Qed.

(** The loop from index [i] on, with exactly the iterations it needs. *)
Lemma retryFrom_shape (budget : nat) :
  forall (i : Z) (lastError : Balances.Thrown) (s : Balances.State World),
    budget = Z.to_nat (retries - i) ->
    exists n,
      Balances.log (snd (loop budget i lastError s))
      = Balances.log s ++ Balances.attemptLog delayMs n
      /\ (n <= budget)%nat
      /\ (1 <= budget -> 1 <= n)%nat
      /\ match fst (loop budget i lastError s) with
         | inl v =>
             (1 <= n)%nat
             /\ exists wl, fn wl = (Ok v, Balances.chain (snd (loop budget i lastError s)))
         | inr t =>
             n = budget
             /\ (budget = O -> t = lastError /\ snd (loop budget i lastError s) = s)
             /\ ((1 <= budget)%nat ->
                 exists e wl,
                   t = Balances.Error e
                   /\ fn wl = (Throw e, Balances.chain (snd (loop budget i lastError s))))
         end.
Proof.
  induction budget as [|budget IH]; intros i lastError s Hbudget.
  - exists O. cbn [Balances.retryFrom].
    destruct (i <? retries); cbn [fst snd Balances.attemptLog];
      rewrite app_nil_r.
    all: split; [reflexivity|]; split; [lia|]; split; [lia|].
    all: split; [reflexivity|].
    all: split; [intros _; split; reflexivity | intros Hone; inversion Hone].
  - cbn [Balances.retryFrom].
    replace (i <? retries) with true by (symmetry; apply Z.ltb_lt; lia).
    cbn [Balances.record Balances.chain Balances.log].
    destruct (fn (Balances.chain s)) as [[v | err] w] eqn:Hfn.
    + exists 1%nat. cbn [fst snd Balances.log Balances.chain Balances.attemptLog].
      split; [reflexivity|]. split; [lia|]. split; [lia|]. split; [lia|].
      exists (Balances.chain s). exact Hfn.
    + destruct budget as [|budget].
      * replace (i <? retries - 1) with false by (symmetry; apply Z.ltb_ge; lia).
        cbn [Balances.retryFrom].
        replace (i + 1 <? retries) with false by (symmetry; apply Z.ltb_ge; lia).
        exists 1%nat. cbn [fst snd Balances.log Balances.chain Balances.attemptLog].
        split; [reflexivity|]. split; [lia|]. split; [lia|].
        split; [reflexivity|]. split; [intros; lia|].
        intros _. exists err, (Balances.chain s). split; [reflexivity | exact Hfn].
      * replace (i <? retries - 1) with true by (symmetry; apply Z.ltb_lt; lia).
        cbn [Balances.record Balances.chain Balances.log].
        match goal with
        | |- context [loop (S budget) (i + 1) ?le ?st] =>
            destruct (IH (i + 1) le st ltac:(lia)) as (n & Hlog & Hn & Hpos & Hres);
            destruct (loop (S budget) (i + 1) le st) as [r s'] eqn:Hloop
        end.
        cbn [fst snd Balances.log] in *.
        specialize (Hpos ltac:(lia)).
        destruct n as [|n]; [lia|].
        exists (S (S n)). rewrite attemptLog_more, Hlog.
        cbn [Balances.record Balances.log]. rewrite <- !app_assoc. cbn [app].
        split; [reflexivity|]. split; [lia|]. split; [lia|].
        destruct r as [v | t].
        -- split; [lia | apply Hres].
        -- destruct Hres as (Hn' & _ & Hlast).
           split; [lia|]. split; [intros; lia|]. intros _. apply Hlast. lia.
Qed.

End BalanceRetryFacts.

(** X10.  The [withRetry] of the balance query script retries on every
    error, whatever its kind, and waits the same [delayMs] between two
    attempts, with no wait after the last one: a run makes [n] calls
    interleaved with [n - 1] waits, [n] being at most [retries].  When it
    returns, the value is that of its last call.  When it throws, it has made
    all of [max(retries, 0)] calls; what it throws is the error of the last
    call when [retries >= 1], and [undefined], with no call made, when
    [retries <= 0]. *)
Theorem balance_retry_attempts (World A : Type) (fn : World -> Res A * World)
    (retries delayMs : Z) (s : Balances.State World) :
  exists n,
    Balances.log (snd (Balances.withRetry fn retries delayMs s))
    = Balances.log s ++ Balances.attemptLog delayMs n
    /\ Z.of_nat n <= Z.max retries 0
    /\ match fst (Balances.withRetry fn retries delayMs s) with
       | inl v =>
           (1 <= n)%nat
           /\ exists wl,
                fn wl = (Ok v, Balances.chain (snd (Balances.withRetry fn retries delayMs s)))
       | inr t =>
           Z.of_nat n = Z.max retries 0
           /\ (retries <= 0 ->
               t = Balances.Undefined
               /\ snd (Balances.withRetry fn retries delayMs s) = s)
           /\ (1 <= retries ->
               exists e wl,
                 t = Balances.Error e
                 /\ fn wl
                    = (Throw e,
                       Balances.chain (snd (Balances.withRetry fn retries delayMs s))))
       end.
Proof.
  unfold Balances.withRetry.
  destruct (retryFrom_shape World A fn retries delayMs (Z.to_nat retries) 0
              Balances.Undefined s ltac:(f_equal; lia))
    as (n & Hlog & Hn & Hpos & Hres).
  exists n. split; [exact Hlog|]. split; [lia|].
  destruct (fst _) as [v | t].
  - exact Hres.
  - destruct Hres as (Hnb & Hzero & Hlast).
    split; [lia|]. split.
    + intros Hle. apply Hzero. lia.
    + intros Hge. apply Hlast. lia.
Qed.

Section BalanceScriptFacts.

Variable World : Type.
Variable getBalance : Address -> World -> Res Z * World.
Variable balanceOf : Address -> World -> Res Z * World.

Local Abbreviation queryOne := (Balances.queryOne World getBalance balanceOf).
Local Abbreviation queryAll := (Balances.queryAll World getBalance balanceOf).
Local Abbreviation run := (Balances.run World getBalance balanceOf).




(** X12.  With [MAX_RETRIES] at zero or below, [withRetry] makes no call and
    throws [undefined]; the [catch] clause of the loop then reads
    [error.message] of it, which throws a TypeError out of the loop.  So on a
    file with at least one address the script stops at the first one: the two
    headers are written, the chain is never queried and no address is
    logged. *)
Theorem balances_need_an_attempt (isNative : bool) (decimals : nat)
    (retries delayMs : Z) (raw address : string) (rest : list string)
    (s : Balances.State World) :
  retries <= 0 ->
  Balances.addressesOf raw = address :: rest ->
  run isNative decimals retries delayMs raw s
  = (inr (Balances.Error
            (typeError "Cannot read properties of undefined (reading 'message')")),
     {| Balances.chain := Balances.chain s;
        Balances.log := Balances.log s
          ++ [Balances.WriteSuccessHeader; Balances.WriteFailureHeader] |}).
Proof.
  intros Hretries Hlist. unfold Balances.run. rewrite Hlist.
  cbn [Balances.queryAll]. unfold Balances.queryOne, Balances.withRetry.
  replace (Z.to_nat retries) with O by lia. cbn [Balances.retryFrom].
  replace (0 <? retries) with false by (symmetry; apply Z.ltb_ge; lia).
  unfold Balances.record. cbn [Balances.chain Balances.log].
  rewrite <- app_assoc. reflexivity.
Qed.

End BalanceScriptFacts.


(** An instance: two addresses and no attempt allowed. *)
Lemma balances_need_an_attempt_witness :
  Balances.run (list (Res Z)) Balances.scripted Balances.scripted true 18 0 500
    (String.concat lineEndCRLF ["0xa"; "0xb"]) (Balances.mkState [Ok 7; Ok 9] [])
  = (inr (Balances.Error
            (typeError "Cannot read properties of undefined (reading 'message')")),
     {| Balances.chain := [Ok 7; Ok 9];
        Balances.log := [] ++ [Balances.WriteSuccessHeader; Balances.WriteFailureHeader] |}).
Proof.
  apply (balances_need_an_attempt (list (Res Z)) Balances.scripted Balances.scripted
           true 18 0 500 (String.concat lineEndCRLF ["0xa"; "0xb"]) "0xa" ["0xb"] (Balances.mkState [Ok 7; Ok 9] [])).
  - lia.
  - vm_compute. reflexivity.
Defined.

(** * The wallet generator *)

Lemma decimal_inj (i j : Z) :
  0 <= i -> 0 <= j -> Wallets.decimal i = Wallets.decimal j -> i = j.
Proof.
  intros Hi Hj H. unfold Wallets.decimal in H.
  assert (Hu : N.to_uint (Z.to_N i) = N.to_uint (Z.to_N j)).
  { pose proof (NilEmpty.usu (N.to_uint (Z.to_N i))) as H1.
    pose proof (NilEmpty.usu (N.to_uint (Z.to_N j))) as H2.
    rewrite H in H1. congruence. }
  apply DecimalN.Unsigned.to_uint_inj in Hu. lia.
Qed.

Lemma pathOf_inj (i j : Z) :
  0 <= i -> 0 <= j -> Wallets.pathOf i = Wallets.pathOf j -> i = j.
Proof.
  intros Hi Hj H. unfold Wallets.pathOf in H.
  apply decimal_inj; try assumption.
  repeat (cbn [append] in H; injection H as H). exact H.
Qed.

Section WalletFacts.

Variable World : Type.
Variable generateMnemonic : World -> string * World.
Variable derivePrivateKey : string -> string -> Res string.
Variable newWallet : string -> Res Address.

Local Abbreviation generateFrom :=
  (Wallets.generateFrom World generateMnemonic derivePrivateKey newWallet).
Local Abbreviation generateWallets :=
  (Wallets.generateWallets World generateMnemonic derivePrivateKey newWallet).
Local Abbreviation rowOf := (Wallets.rowOf derivePrivateKey newWallet).
Local Abbreviation draw := (Wallets.draw World generateMnemonic).

Lemma rowOf_mnemonic (m p : string) (row : Wallets.Row) :
  rowOf m p = Ok row -> Wallets.mnemonic row = m.
Proof.
  unfold Wallets.rowOf.
  destruct (derivePrivateKey m p) as [key | e]; [|discriminate].
  destruct (newWallet key) as [addr | e]; [|discriminate].
  intros H. injection H as <-. reflexivity.
Qed.

(** The loop with one mnemonic: each row is derived from it, at the path of
    the index of the row. *)
Lemma generateFrom_single (num : Z) (m : string) (budget : nat) :
  forall (i : Z) (path : string) (rows : list Wallets.Row) (w : World),
    budget = Z.to_nat (num - i) ->
    (forall k, i <= k < num -> exists row, rowOf m (Wallets.pathOf k) = Ok row) ->
    exists more,
      generateFrom true num budget i m path rows w = (Ok (rows ++ more), w)
      /\ Forall2 (fun k row => rowOf m (Wallets.pathOf k) = Ok row)
           (Wallets.indicesFrom i budget) more.
Proof.
  induction budget as [|budget IH]; intros i path rows w Hbudget Hderive.
  - exists []. cbn [Wallets.generateFrom]. rewrite app_nil_r.
    destruct (i <? num); split; try reflexivity; constructor.
  - cbn [Wallets.generateFrom negb].
    replace (i <? num) with true by (symmetry; apply Z.ltb_lt; lia).
    destruct (Hderive i ltac:(lia)) as [row Hrow].
    pose proof Hrow as Hrow'. unfold Wallets.rowOf in Hrow'.
    destruct (derivePrivateKey m (Wallets.pathOf i)) as [key | e]; [|discriminate].
    destruct (newWallet key) as [addr | e]; [|discriminate].
    injection Hrow' as Hrow'.
    assert (Hnext : budget = Z.to_nat (num - (i + 1))) by lia.
    destruct (IH (i + 1) (Wallets.pathOf i)
                (rows ++ [{| Wallets.address := addr; Wallets.privateKey := key;
                             Wallets.mnemonic := m |}]) w Hnext)
      as (more & -> & Hmore).
    { intros k Hk. apply Hderive. lia. }
    exists (row :: more). rewrite <- app_assoc, Hrow'. split; [reflexivity|].
    cbn [Wallets.indicesFrom]. constructor; assumption.
Qed.

(** The loop with a mnemonic per wallet: each row is derived from a fresh
    mnemonic, at the path the loop started with. *)
Lemma generateFrom_fresh (num : Z) (path : string) (budget : nat) :
  forall (i : Z) (m : string) (rows : list Wallets.Row) (w : World),
    budget = Z.to_nat (num - i) ->
    Forall (fun fresh => exists row, rowOf fresh path = Ok row) (fst (draw budget w)) ->
    exists more,
      generateFrom false num budget i m path rows w
      = (Ok (rows ++ more), snd (draw budget w))
      /\ Forall2 (fun fresh row => rowOf fresh path = Ok row)
           (fst (draw budget w)) more.
Proof.
  induction budget as [|budget IH]; intros i m rows w Hbudget Hderive.
  - exists []. cbn [Wallets.generateFrom Wallets.draw fst snd]. rewrite app_nil_r.
    destruct (i <? num); split; try reflexivity; constructor.
  - cbn [Wallets.generateFrom Wallets.draw negb] in *.
    replace (i <? num) with true by (symmetry; apply Z.ltb_lt; lia).
    destruct (generateMnemonic w) as [fresh w1].
    destruct (draw budget w1) as [ms w2] eqn:Hdraw. cbn [fst snd] in Hderive.
    inversion Hderive as [|fresh' ms' [row Hrow] Hrest]; subst fresh' ms'.
    pose proof Hrow as Hrow'. unfold Wallets.rowOf in Hrow'.
    destruct (derivePrivateKey fresh path) as [key | e]; [|discriminate].
    destruct (newWallet key) as [addr | e]; [|discriminate].
    injection Hrow' as Hrow'.
    assert (Hnext : budget = Z.to_nat (num - (i + 1))) by lia.
    destruct (IH (i + 1) fresh
                (rows ++ [{| Wallets.address := addr; Wallets.privateKey := key;
                             Wallets.mnemonic := fresh |}]) w1 Hnext)
      as (more & -> & Hmore).
    { rewrite Hdraw. exact Hrest. }
    rewrite Hdraw in *. cbn [fst snd] in *.
    exists (row :: more). rewrite <- app_assoc, Hrow'. split; [reflexivity|].
    constructor; assumption.
Qed.

(** X14.  The wallet generator reads its setting upside down: it is when
    [USE_SINGLE_MNEMONIC] is the text false that all wallets come from one
    mnemonic.  Then the generator draws a single mnemonic, and when the
    derivations of the run go through (those from that mnemonic at the paths
    of the indices below [num]), the row of index [i] holds that mnemonic and
    the wallet derived from it at the path [m/44'/60'/0'/0/i]; these paths
    differ from one index to the next. *)
Theorem single_mnemonic_when_false (num : Z) (w : World) :
  (forall i, 0 <= i < num ->
     exists row, rowOf (fst (generateMnemonic w)) (Wallets.pathOf i) = Ok row) ->
  exists rows,
    generateWallets num (Some "false") w = (Ok rows, snd (generateMnemonic w))
    /\ Forall2 (fun i row =>
                  rowOf (fst (generateMnemonic w)) (Wallets.pathOf i) = Ok row)
         (Wallets.indicesFrom 0 (Z.to_nat num)) rows
    /\ Forall (fun row => Wallets.mnemonic row = fst (generateMnemonic w)) rows
    /\ (forall i j, 0 <= i -> 0 <= j -> Wallets.pathOf i = Wallets.pathOf j -> i = j).
Proof.
  intros Hderive.
  unfold Wallets.generateWallets. cbn [Wallets.isUsingSingleMnemonic String.eqb].
  change ("false" =? "false")%string with true.
  destruct (generateMnemonic w) as [m w1]. cbn [fst snd] in *.
  assert (Hbudget : Z.to_nat num = Z.to_nat (num - 0)) by (f_equal; lia).
  destruct (generateFrom_single num m (Z.to_nat num) 0 "m/44'/60'/0'/0/0" [] w1
              Hbudget Hderive)
    as (rows & Hrun & Hrows).
  exists rows. split; [exact Hrun|]. split; [exact Hrows|]. split.
  - clear Hrun. induction Hrows as [|i row idx rows Hrow _ IH]; constructor.
    + eapply rowOf_mnemonic, Hrow.
    + exact IH.
  - apply pathOf_inj.
Qed.

(** X15.  With any other setting ([USE_SINGLE_MNEMONIC] absent, or true, or
    anything but the text false), the generator draws [num + 1] mnemonics
    and the first one is used by no wallet: when the derivations of the run
    go through (those from the [num] mnemonics drawn after the first, at the
    path [m/44'/60'/0'/0/0]), each of the [num] rows holds the wallet derived
    from the next fresh mnemonic at that path. *)
Theorem fresh_mnemonic_otherwise (num : Z) (setting : option string) (w : World) :
  setting <> Some "false" ->
  Forall (fun fresh => exists row, rowOf fresh "m/44'/60'/0'/0/0" = Ok row)
         (tl (fst (draw (S (Z.to_nat num)) w))) ->
  exists rows,
    generateWallets num setting w
    = (Ok rows, snd (draw (S (Z.to_nat num)) w))
    /\ Forall2 (fun fresh row => rowOf fresh "m/44'/60'/0'/0/0" = Ok row)
         (tl (fst (draw (S (Z.to_nat num)) w))) rows
    /\ List.length rows = Z.to_nat num.
Proof.
  intros Hsetting Hderive. unfold Wallets.generateWallets.
  assert (Hflag : Wallets.isUsingSingleMnemonic setting = false).
  { destruct setting as [text|]; [|reflexivity].
    cbn [Wallets.isUsingSingleMnemonic].
    destruct (String.eqb_spec text "false") as [-> | _]; [congruence | reflexivity]. }
  rewrite Hflag. cbn [Wallets.draw] in *.
  destruct (generateMnemonic w) as [m w1].
  assert (Hbudget : Z.to_nat num = Z.to_nat (num - 0)) by (f_equal; lia).
  destruct (draw (Z.to_nat num) w1) as [ms w2] eqn:Hdraw. cbn [fst snd tl] in *.
  destruct (generateFrom_fresh num "m/44'/60'/0'/0/0" (Z.to_nat num) 0 m [] w1 Hbudget)
    as (rows & Hrun & Hrows).
  { rewrite Hdraw. exact Hderive. }
  rewrite Hdraw in Hrun, Hrows. cbn [fst snd] in Hrun, Hrows.
  exists rows. split; [exact Hrun|]. split; [exact Hrows|].
  apply Forall2_length in Hrows. rewrite <- Hrows.
  clear - Hdraw. revert w1 ms w2 Hdraw.
  induction (Z.to_nat num) as [|n IH]; intros w1 ms w2 Hdraw.
  - cbn in Hdraw. injection Hdraw as <- _. reflexivity.
  - cbn [Wallets.draw] in Hdraw.
    destruct (generateMnemonic w1) as [m' w1'].
    destruct (draw n w1') as [ms' w2'] eqn:Hd.
    injection Hdraw as <- _. cbn [List.length]. f_equal. eapply IH. exact Hd.
Qed.

End WalletFacts.

(** An instance: three wallets from one mnemonic. *)
Lemma single_mnemonic_when_false_witness :
  exists rows,
    Wallets.generateWallets (list string) Wallets.scripted Wallets.derived
      Wallets.walletOf 3 (Some "false") ["abandon"; "ability"]
    = (Ok rows, snd (Wallets.scripted ["abandon"; "ability"]))
    /\ Forall2 (fun i row =>
                  Wallets.rowOf Wallets.derived Wallets.walletOf
                    (fst (Wallets.scripted ["abandon"; "ability"])) (Wallets.pathOf i)
                  = Ok row)
         (Wallets.indicesFrom 0 (Z.to_nat 3)) rows
    /\ Forall (fun row => Wallets.mnemonic row
                          = fst (Wallets.scripted ["abandon"; "ability"])) rows
    /\ (forall i j, 0 <= i -> 0 <= j -> Wallets.pathOf i = Wallets.pathOf j -> i = j).
Proof.
  apply (single_mnemonic_when_false (list string) Wallets.scripted Wallets.derived
           Wallets.walletOf).
  intros i _. eexists. reflexivity.
Defined.

(** An instance: two wallets with the setting at true. *)
Lemma fresh_mnemonic_otherwise_witness :
  exists rows,
    Wallets.generateWallets (list string) Wallets.scripted Wallets.derived
      Wallets.walletOf 2 (Some "true") ["abandon"; "ability"; "able"; "about"]
    = (Ok rows,
       snd (Wallets.draw (list string) Wallets.scripted (S (Z.to_nat 2))
              ["abandon"; "ability"; "able"; "about"]))
    /\ Forall2 (fun fresh row =>
                  Wallets.rowOf Wallets.derived Wallets.walletOf fresh "m/44'/60'/0'/0/0"
                  = Ok row)
         (tl (fst (Wallets.draw (list string) Wallets.scripted (S (Z.to_nat 2))
                     ["abandon"; "ability"; "able"; "about"]))) rows
    /\ List.length rows = Z.to_nat 2.
Proof.
  apply (fresh_mnemonic_otherwise (list string) Wallets.scripted Wallets.derived
           Wallets.walletOf).
  - discriminate.
  - repeat constructor; eexists; reflexivity.
Defined.
